(** * microlab_firmware: the electrode matrix driver and its UART command handler

    A shallow embedding of [src/ArrayDriver.cpp] and
    [src/UartCommandHandler.cpp].

    - C integers are [Z]; a value stored in a [uint8_t], [uint16_t] or
      [uint32_t] is reduced with [u8], [u16], [u32] where the source converts.
    - C strings are [string] (the bytes before the terminating NUL); a
      [char*] into a string is the suffix it points to.
    - A fixed-size array is a [list] updated by index with [upd].
    - Every effect on the outside world (GPIO set/reset registers, interrupt
      masking, [HAL_Delay], [HAL_UART_Transmit]) is an [event]; a function
      returns the new object state together with the events it issued, in
      order.
    - A function that can index an array past its end returns an [option]:
      [None] is the behaviour C leaves undefined.
    - What the code takes from outside is a parameter: the two mapping files
      ([FileSystem]), the contents of storage the constructor does not
      assign ([Storage]), the tick counter, and the text an [snprintf] whose
      arguments overlap leaves behind ([overlapped]). *)

From Stdlib Require Import ZArith List String Ascii Bool Lia DecimalString.
Import ListNotations.

Local Open Scope string_scope.
Local Open Scope list_scope.
Local Open Scope Z_scope.

Infix "+++" := String.append (right associativity, at level 60).

(** ** Fixed-width integers *)

Definition u8 (z : Z) : Z := z mod 256.
Definition u16 (z : Z) : Z := z mod 65536.
Definition u32 (z : Z) : Z := z mod 4294967296.

Definition INT_MAX : Z := 2147483647.
Definition INT_MIN : Z := -2147483648.

(** ** Arrays *)

Fixpoint upd {A : Type} (l : list A) (i : nat) (x : A) : list A :=
  match l, i with
  | [], _ => []
  | _ :: t, O => x :: t
  | h :: t, S j => h :: upd t j x
  end.

(** ** The C library functions the firmware calls *)

Module CStr.

Definition nl : string := String "010"%char EmptyString.
Definition dquote : string := String "034"%char EmptyString.

Definition isspace (c : ascii) : bool :=
  (c =? " ")%char || (c =? "009")%char || (c =? "010")%char
  || (c =? "011")%char || (c =? "012")%char || (c =? "013")%char.

Definition isdigit (c : ascii) : bool :=
  let n := Z.of_nat (nat_of_ascii c) in (48 <=? n) && (n <=? 57).

Definition digit (c : ascii) : Z := Z.of_nat (nat_of_ascii c) - 48.

(** [strncmp(s, lit, strlen(lit)) == 0] *)
Fixpoint starts_with (lit s : string) : bool :=
  match lit, s with
  | EmptyString, _ => true
  | String _ _, EmptyString => false
  | String a lit', String b s' => (a =? b)%char && starts_with lit' s'
  end.

(** [strchr(s, c)]: the suffix of [s] at the first [c], or [NULL]. *)
Fixpoint strchr (s : string) (c : ascii) : option string :=
  match s with
  | EmptyString => None
  | String a r => if (a =? c)%char then Some s else strchr r c
  end.

(** [strstr(haystack, needle)]: the suffix at the first occurrence. *)
Fixpoint strstr (haystack needle : string) : option string :=
  if starts_with needle haystack then Some haystack
  else match haystack with
       | EmptyString => None
       | String _ r => strstr r needle
       end.

Fixpoint skip_space (s : string) : string :=
  match s with
  | String c r => if isspace c then skip_space r else s
  | EmptyString => s
  end.

Fixpoint digits_value (acc : Z) (s : string) : Z :=
  match s with
  | String c r => if isdigit c then digits_value (acc * 10 + digit c) r else acc
  | EmptyString => acc
  end.

Definition clamp_long (z : Z) : Z := Z.max INT_MIN (Z.min INT_MAX z).

(** [atoi(s)] is [(int)strtol(s, NULL, 10)]: leading white space, an optional
    sign, then decimal digits up to the first other character.  [long] has 32
    bits on the STM32F4, and [strtol] clamps a value it cannot represent. *)
Definition atoi (s : string) : Z :=
  match skip_space s with
  | EmptyString => 0
  | String c r =>
    if (c =? "-")%char then clamp_long (- digits_value 0 r)
    else if (c =? "+")%char then clamp_long (digits_value 0 r)
    else clamp_long (digits_value 0 (String c r))
  end.

(** [%d] of [printf] *)
Definition dec (z : Z) : string := NilZero.string_of_int (Z.to_int z).

End CStr.

(** ** Effects *)

Inductive event : Type :=
| IrqDisable                          (* __disable_irq() *)
| IrqEnable                           (* __enable_irq() *)
| RowLine (row : nat) (high : bool)   (* rowPins[row].port->BSRR = set / reset *)
| ColLine (col : nat) (high : bool)   (* colPins[col].port->BSRR = set / reset *)
| Delay (ms : Z)                      (* HAL_Delay(ms) *)
| Transmit (text : string).           (* HAL_UART_Transmit(huart, text, strlen(text), 1000) *)

(** ** ArrayDriver *)

Module ArrayDriver.

Definition NUM_ROWS : Z := 10.
Definition NUM_COLS : Z := 14.
Definition NUM_ELECTRODES : Z := 140.

Record ElectrodeStep_t : Type := {
  row : Z;            (* uint8_t *)
  col : Z;            (* uint8_t *)
  state : bool;
  duration_ms : Z     (* uint32_t *)
}.

(** [steps] is a pointer: [None] is [nullptr], [Some a] points to the array
    [a]; [numSteps] is a separate field, as in the source. *)
Record ElectrodeSequence_t : Type := {
  steps : option (list ElectrodeStep_t);
  numSteps : Z;       (* uint16_t *)
  cycleCount : Z;     (* uint32_t *)
  cycleDelay_ms : Z   (* uint32_t *)
}.

Record ElectrodeMapping_t : Type := {
  map_row : Z;        (* uint8_t *)
  map_col : Z         (* uint8_t *)
}.

Record t : Type := {
  electrodeState : list (list bool);          (* bool [NUM_ROWS][NUM_COLS] *)
  sequenceRunning : bool;
  currentStep : Z;
  stepStartTime : Z;
  currentSequence : option ElectrodeSequence_t;
  electrodeMap : list ElectrodeMapping_t;     (* [NUM_ELECTRODES] *)
  pcieToRow : list Z;                         (* uint8_t [NUM_ELECTRODES] *)
  pcieToCol : list Z
}.

Definition with_electrodeState (d : t) (st : list (list bool)) : t :=
  {| electrodeState := st;
     sequenceRunning := sequenceRunning d;
     currentStep := currentStep d;
     stepStartTime := stepStartTime d;
     currentSequence := currentSequence d;
     electrodeMap := electrodeMap d;
     pcieToRow := pcieToRow d;
     pcieToCol := pcieToCol d |}.

(** The object has the dimensions its declaration gives it. *)
Definition wf_state (st : list (list bool)) : Prop :=
  List.length st = 10%nat /\ Forall (fun r => List.length r = 14%nat) st.

Definition wf (d : t) : Prop :=
  wf_state (electrodeState d) /\ List.length (electrodeMap d) = 140%nat.

Definition cell (st : list (list bool)) (r c : nat) : bool :=
  nth c (nth r st []) false.

Definition set_cell (st : list (list bool)) (r c : nat) (v : bool) : list (list bool) :=
  upd st r (upd (nth r st []) c v).

Definition rows : list nat := seq 0 10.
Definition cols : list nat := seq 0 14.

(** [setRowColAtomic]: the two register writes between the interrupt mask. *)
Definition setRowColAtomic (row col : Z) (state : bool) : list event :=
  [IrqDisable;
   RowLine (Z.to_nat row) state;
   ColLine (Z.to_nat col) (negb state);
   IrqEnable].

Definition setElectrode (d : t) (row col : Z) (state : bool) : t * list event :=
  if (row >=? NUM_ROWS) || (col >=? NUM_COLS) then (d, [])
  else (with_electrodeState d
          (set_cell (electrodeState d) (Z.to_nat row) (Z.to_nat col) state),
        setRowColAtomic row col state).

Definition setElectrodeHigh (d : t) (row col : Z) := setElectrode d row col true.
Definition setElectrodeLow (d : t) (row col : Z) := setElectrode d row col false.

(** [row] and [col] are the caller's variables behind the two pointers: the
    result carries their values after the call. *)
Definition getRowColFromElectrode (d : t) (electrodeNum : Z) (row col : Z)
  : bool * Z * Z :=
  if (electrodeNum <? 1) || (electrodeNum >? NUM_ELECTRODES) then (false, row, col)
  else
    let m := nth (Z.to_nat (electrodeNum - 1)) (electrodeMap d)
                 {| map_row := 0; map_col := 0 |} in
    (true, map_row m, map_col m).

(** [row] and [col] are uninitialised locals of the caller; they are read only
    after a successful resolution has written them. *)
Definition setElectrodeByNumber (d : t) (electrodeNum : Z) (state : bool)
  : t * list event :=
  match getRowColFromElectrode d electrodeNum 0 0 with
  | (true, row, col) => setElectrode d row col state
  | (false, _, _) => (d, [])
  end.

Definition setElectrodeHighByNumber (d : t) (n : Z) := setElectrodeByNumber d n true.
Definition setElectrodeLowByNumber (d : t) (n : Z) := setElectrodeByNumber d n false.

Definition fill_state (st : list (list bool)) (v : bool) : list (list bool) :=
  fold_left (fun st r => fold_left (fun st c => set_cell st r c v) cols st) rows st.

Definition setAllElectrodesLow (d : t) : t * list event :=
  (with_electrodeState d (fill_state (electrodeState d) false),
   [IrqDisable]
     ++ map (fun r => RowLine r false) rows
     ++ map (fun c => ColLine c true) cols
     ++ [IrqEnable]).

Definition setAllElectrodesHigh (d : t) : t * list event :=
  (with_electrodeState d (fill_state (electrodeState d) true),
   [IrqDisable]
     ++ map (fun r => RowLine r true) rows
     ++ map (fun c => ColLine c false) cols
     ++ [IrqEnable]).

Definition getElectrodeState (d : t) (row col : Z) : bool :=
  if (row >=? NUM_ROWS) || (col >=? NUM_COLS) then false
  else cell (electrodeState d) (Z.to_nat row) (Z.to_nat col).

(** A loop of calls that each return the new object and their events. *)
Definition each {A : Type} (body : t -> A -> t * list event) (l : list A) (d : t)
  : t * list event :=
  fold_left (fun acc x => let '(d1, tr) := body (fst acc) x in (d1, snd acc ++ tr))
            l (d, []).

Definition setRowElectrodes (d : t) (row : Z) (state : bool) : t * list event :=
  if row >=? NUM_ROWS then (d, [])
  else each (fun d c => setElectrode d row (Z.of_nat c) state) cols d.

Definition setColElectrodes (d : t) (col : Z) (state : bool) : t * list event :=
  if col >=? NUM_COLS then (d, [])
  else each (fun d r => setElectrode d (Z.of_nat r) col state) rows d.

(** [getPattern] assigns every cell of the caller's array, so the array after
    the call is a function of the driver alone. *)
Definition getPattern (d : t) : list (list bool) :=
  map (fun r => map (fun c => cell (electrodeState d) r c) cols) rows.

Definition setPattern (d : t) (pattern : list (list bool)) : t * list event :=
  each (fun d rc => setElectrode d (Z.of_nat (fst rc)) (Z.of_nat (snd rc))
                      (cell pattern (fst rc) (snd rc)))
       (list_prod rows cols) d.

(** *** Sequences *)

(** The inner loop of [executeSequence], from index [step] with [n] steps
    left.  [None]: the loop read [steps[step]] past the end of the array the
    pointer refers to, which C leaves undefined. *)
Fixpoint run_steps (arr : list ElectrodeStep_t) (n step : nat) (d : t)
  : option (t * list event) :=
  match n with
  | O => Some (d, [])
  | S n' =>
    match nth_error arr step with
    | None => None
    | Some currentStep =>
      let '(d1, tr1) := setElectrode d (row currentStep) (col currentStep)
                                     (state currentStep) in
      match run_steps arr n' (S step) d1 with
      | None => None
      | Some (d2, tr2) => Some (d2, tr1 ++ Delay (duration_ms currentStep) :: tr2)
      end
    end
  end.

(** The outer loop, at [cycle] with [n] cycles left. *)
Fixpoint run_cycles (sequence : ElectrodeSequence_t) (arr : list ElectrodeStep_t)
         (n : nat) (cycle : Z) (d : t) : option (t * list event) :=
  match n with
  | O => Some (d, [])
  | S n' =>
    match run_steps arr (Z.to_nat (numSteps sequence)) 0 d with
    | None => None
    | Some (d1, tr1) =>
      let gap := if cycle <? u32 (cycleCount sequence - 1)
                 then [Delay (cycleDelay_ms sequence)] else [] in
      match run_cycles sequence arr n' (cycle + 1) d1 with
      | None => None
      | Some (d2, tr2) => Some (d2, tr1 ++ gap ++ tr2)
      end
    end
  end.

(** [sequence = None] is the null pointer. *)
Definition executeSequence (d : t) (sequence : option ElectrodeSequence_t)
  : option (t * list event) :=
  match sequence with
  | None => Some (d, [])
  | Some s =>
    match steps s with
    | None => Some (d, [])
    | Some arr => run_cycles s arr (Z.to_nat (cycleCount s)) 0 d
    end
  end.


Definition isSequenceRunning (d : t) : bool := sequenceRunning d.

Definition stopSequence (d : t) : t :=
  {| electrodeState := electrodeState d;
     sequenceRunning := false;
     currentStep := 0;
     stepStartTime := stepStartTime d;
     currentSequence := None;
     electrodeMap := electrodeMap d;
     pcieToRow := pcieToRow d;
     pcieToCol := pcieToCol d |}.

Definition pulse (duration_ms : Z) (d : t) (electrodeNum : Z) : t * list event :=
  let '(d1, tr1) := setElectrodeHighByNumber d electrodeNum in
  let '(d2, tr2) := setElectrodeLowByNumber d1 electrodeNum in
  (d2, tr1 ++ Delay duration_ms :: tr2).

Definition runElectrodeSequenceTest (d : t) (electrodeNumbers : list Z)
           (duration_ms : Z) : t * list event :=
  each (pulse duration_ms) electrodeNumbers d.

Definition runElectrodeTest (d : t) : t * list event :=
  each (pulse 100) (map Z.of_nat (seq 1 140)) d.

(** *** Loading the two mapping files *)

(** [readFile]: the text of the file at a path, [None] when [fopen] (or
    [malloc]) fails. *)
Definition FileSystem : Type := string -> option string.

Definition ELECTRODE_MAP_PATH : string := "resources/ElectrodeMap.json".
Definition PIN_MAP_PATH : string := "resources/PinMap.json".

Definition readFile (fs : FileSystem) (filepath : string) : option string :=
  fs filepath.

(** [snprintf(buf, size, ...)] keeps at most [size - 1] characters. *)
Definition snprintf (size : nat) (text : string) : string :=
  substring 0 (size - 1) text.

Definition tail_string (s : string) : string :=
  match s with
  | EmptyString => EmptyString
  | String _ r => r
  end.

Definition findJSONValue (json key : string) : option string :=
  let searchStr := snprintf 64 (CStr.dquote +++ key +++ CStr.dquote) in
  match CStr.strstr json searchStr with
  | None => None
  | Some keyPos =>
    match CStr.strchr keyPos ":" with
    | None => None
    | Some colon => Some (CStr.skip_space (tail_string colon))
    end
  end.

(** [int] arithmetic as the Cortex-M4 does it (C leaves overflow undefined). *)
Definition wrap_int (z : Z) : Z := (z + 2147483648) mod 4294967296 - 2147483648.

Fixpoint json_digits (value : Z) (s : string) : Z :=
  match s with
  | String c r =>
    if CStr.isdigit c then json_digits (wrap_int (value * 10 + CStr.digit c)) r
    else value
  | EmptyString => value
  end.

Definition parseJSONInt (str : option string) : Z :=
  match str with
  | None => 0
  | Some s =>
    match CStr.skip_space s with
    | String "-" r => wrap_int (- json_digits 0 r)
    | t => json_digits 0 t
    end
  end.

Definition with_maps (d : t) (m : list ElectrodeMapping_t) (pr pc : list Z) : t :=
  {| electrodeState := electrodeState d;
     sequenceRunning := sequenceRunning d;
     currentStep := currentStep d;
     stepStartTime := stepStartTime d;
     currentSequence := currentSequence d;
     electrodeMap := m;
     pcieToRow := pr;
     pcieToCol := pc |}.

Definition electrodes : list Z := map Z.of_nat (seq 1 140).

(** One iteration of the loop of [parseElectrodeMapJSON]. *)
Definition electrode_entry (openBrace : string) (m : list ElectrodeMapping_t)
           (electrode : Z) : list ElectrodeMapping_t :=
  let keyStr := snprintf 16 (CStr.dquote +++ CStr.dec electrode +++ CStr.dquote) in
  match CStr.strstr openBrace keyStr with
  | None => m
  | Some keyPos =>
    match findJSONValue keyPos (tail_string keyStr) with
    | None => m
    | Some valuePos =>
      let pciePin := parseJSONInt (Some valuePos) in
      if (pciePin >? 0) && (pciePin <=? NUM_ELECTRODES)
      then upd m (Z.to_nat (electrode - 1))
               {| map_row := u8 ((pciePin - 1) / NUM_COLS);
                  map_col := u8 ((pciePin - 1) mod NUM_COLS) |}
      else m
    end
  end.

Definition parseElectrodeMapJSON (d : t) (jsonData : string) : bool * t :=
  match CStr.strstr jsonData (CStr.dquote +++ "mapping" +++ CStr.dquote) with
  | None => (false, d)
  | Some mappingStart =>
    match CStr.strchr mappingStart "{" with
    | None => (false, d)
    | Some openBrace =>
      (true, with_maps d (fold_left (electrode_entry openBrace) electrodes (electrodeMap d))
                       (pcieToRow d) (pcieToCol d))
    end
  end.

Definition loadElectrodeMap (fs : FileSystem) (d : t) (filepath : string) : bool * t :=
  match readFile fs filepath with
  | None => (false, d)
  | Some jsonData => parseElectrodeMapJSON d jsonData
  end.

(** One iteration of the inner loop of [parsePinMapJSON], on the pair of
    tables [(pcieToRow, pcieToCol)]. *)
Definition pin_entry (openBrace : string) (tabs : list Z * list Z) (rc : nat * nat)
  : list Z * list Z :=
  let '(row, col) := rc in
  let keyStr := snprintf 16 (CStr.dquote +++ CStr.dec (Z.of_nat row) +++ ","
                               +++ CStr.dec (Z.of_nat col) +++ CStr.dquote) in
  match CStr.strstr openBrace keyStr with
  | None => tabs
  | Some keyPos =>
    match CStr.strchr keyPos ":" with
    | None => tabs
    | Some colon =>
      let pciePin := parseJSONInt (Some (tail_string colon)) in
      if (pciePin >? 0) && (pciePin <=? NUM_ELECTRODES)
      then (upd (fst tabs) (Z.to_nat (pciePin - 1)) (Z.of_nat row),
            upd (snd tabs) (Z.to_nat (pciePin - 1)) (Z.of_nat col))
      else tabs
    end
  end.

(** One iteration of the last loop of [parsePinMapJSON]. *)
Definition chain_entry (pr pc : list Z) (m : list ElectrodeMapping_t) (electrode : Z)
  : list ElectrodeMapping_t :=
  let e := nth (Z.to_nat (electrode - 1)) m {| map_row := 0; map_col := 0 |} in
  let tempRow := map_row e in
  let tempCol := map_col e in
  let pciePin := u16 (tempRow * NUM_COLS + tempCol + 1) in
  if (pciePin >? 0) && (pciePin <=? NUM_ELECTRODES)
  then upd m (Z.to_nat (electrode - 1))
           {| map_row := nth (Z.to_nat (pciePin - 1)) pr 0;
              map_col := nth (Z.to_nat (pciePin - 1)) pc 0 |}
  else m.

Definition zero_all (l : list Z) : list Z :=
  fold_left (fun l i => upd l i 0) (seq 0 140) l.

Definition parsePinMapJSON (d : t) (jsonData : string) : bool * t :=
  match CStr.strstr jsonData (CStr.dquote +++ "electrodes" +++ CStr.dquote) with
  | None => (false, d)
  | Some electrodesStart =>
    match CStr.strchr electrodesStart "{" with
    | None => (false, d)
    | Some openBrace =>
      let tabs := fold_left (pin_entry openBrace) (list_prod rows cols)
                            (zero_all (pcieToRow d), zero_all (pcieToCol d)) in
      (true, with_maps d (fold_left (chain_entry (fst tabs) (snd tabs)) electrodes
                                    (electrodeMap d))
                       (fst tabs) (snd tabs))
    end
  end.

Definition loadPinMap (fs : FileSystem) (d : t) (filepath : string) : bool * t :=
  match readFile fs filepath with
  | None => (false, d)
  | Some jsonData => parsePinMapJSON d jsonData
  end.

(** What the storage of the object holds before the constructor runs: the
    constructor never assigns [electrodeMap], [pcieToRow] or [pcieToCol]
    itself, so their first contents are whatever the memory held (all zero for
    an object of static storage duration). *)
Record Storage : Type := {
  raw_map_row : nat -> Z;
  raw_map_col : nat -> Z;
  raw_pcieToRow : nat -> Z;
  raw_pcieToCol : nat -> Z
}.

Definition default_entry (i : nat) : ElectrodeMapping_t :=
  {| map_row := u8 (Z.of_nat i / NUM_COLS); map_col := u8 (Z.of_nat i mod NUM_COLS) |}.

Definition default_mapping (m : list ElectrodeMapping_t) : list ElectrodeMapping_t :=
  fold_left (fun m i => upd m i (default_entry i)) (seq 0 140) m.

(** The object as the first part of the constructor leaves it, before the
    mapping files are read. *)
Definition fresh (mem : Storage) : t :=
  {| electrodeState := repeat (repeat false 14) 10;
     sequenceRunning := false;
     currentStep := 0;
     stepStartTime := 0;
     currentSequence := None;
     electrodeMap :=
       map (fun i => {| map_row := u8 (raw_map_row mem i);
                        map_col := u8 (raw_map_col mem i) |}) (seq 0 140);
     pcieToRow := map (fun i => u8 (raw_pcieToRow mem i)) (seq 0 140);
     pcieToCol := map (fun i => u8 (raw_pcieToCol mem i)) (seq 0 140) |}.

(** [success &= loadElectrodeMap(...); success &= loadPinMap(...)]: both
    loads run, whatever the first returns. *)
Definition load_mappings (fs : FileSystem) (d : t) : bool * t :=
  let '(ok1, d1) := loadElectrodeMap fs d ELECTRODE_MAP_PATH in
  let '(ok2, d2) := loadPinMap fs d1 PIN_MAP_PATH in
  (true && ok1 && ok2, d2).

(** The constructor. *)
Definition ArrayDriver (fs : FileSystem) (mem : Storage) : t :=
  let '(success, d) := load_mappings fs (fresh mem) in
  if negb success
  then with_maps d (default_mapping (electrodeMap d)) (pcieToRow d) (pcieToCol d)
  else d.

End ArrayDriver.

(** ** UartCommandHandler *)

Module UartCommandHandler.

Import CStr.

Definition UART_CMD_BUFFER_SIZE : Z := 2048.
Definition MAX_STEPS : Z := 256.
Definition UART_RESPONSE_BUFFER_SIZE : nat := 256.

(** [currentSequence.steps] is either still unassigned or the address of the
    handler's own [sequenceSteps] array. *)
Inductive StepsPtr : Type := Unassigned | SequenceSteps.

Record Sequence : Type := {
  steps : StepsPtr;
  numSteps : Z;
  cycleCount : Z;
  cycleDelay_ms : Z
}.

(** [responseBuffer] is scratch storage, written by [snprintf] immediately
    before each use, and is not part of the state. *)
Record t : Type := {
  arrayDriver : ArrayDriver.t;
  cmdBuffer : list ascii;                              (* char [2048] *)
  cmdBufferIndex : Z;                                  (* uint16_t *)
  cmdComplete : bool;
  sequenceSteps : list ArrayDriver.ElectrodeStep_t;    (* [MAX_STEPS] *)
  currentSequence : Sequence
}.

Definition with_driver (h : t) (d : ArrayDriver.t) : t :=
  {| arrayDriver := d;
     cmdBuffer := cmdBuffer h;
     cmdBufferIndex := cmdBufferIndex h;
     cmdComplete := cmdComplete h;
     sequenceSteps := sequenceSteps h;
     currentSequence := currentSequence h |}.

Definition with_buffer (h : t) (buf : list ascii) (index : Z) (complete : bool) : t :=
  {| arrayDriver := arrayDriver h;
     cmdBuffer := buf;
     cmdBufferIndex := index;
     cmdComplete := complete;
     sequenceSteps := sequenceSteps h;
     currentSequence := currentSequence h |}.

Definition with_sequence (h : t) (arr : list ArrayDriver.ElectrodeStep_t)
           (s : Sequence) : t :=
  {| arrayDriver := arrayDriver h;
     cmdBuffer := cmdBuffer h;
     cmdBufferIndex := cmdBufferIndex h;
     cmdComplete := cmdComplete h;
     sequenceSteps := arr;
     currentSequence := s |}.

(** The sequence object as the driver sees it through the pointer. *)
Definition deref (h : t) : ArrayDriver.ElectrodeSequence_t :=
  {| ArrayDriver.steps := Some (sequenceSteps h);
     ArrayDriver.numSteps := numSteps (currentSequence h);
     ArrayDriver.cycleCount := cycleCount (currentSequence h);
     ArrayDriver.cycleDelay_ms := cycleDelay_ms (currentSequence h) |}.

Definition NUL : ascii := "000"%char.

(** The C string in a buffer: the characters before the first NUL.
    [None]: the array holds no NUL, and a C string function that reads it
    goes past its end, which C leaves undefined. *)
Fixpoint cstring (buf : list ascii) : option string :=
  match buf with
  | [] => None
  | c :: r =>
    if (c =? NUL)%char then Some EmptyString
    else match cstring r with
         | None => None
         | Some s => Some (String c s)
         end
  end.

Fixpoint drop (n : nat) (s : string) : string :=
  match n, s with
  | O, _ => s
  | S n', String _ r => drop n' r
  | S _, EmptyString => EmptyString
  end.

Definition format (text : string) : string :=
  ArrayDriver.snprintf UART_RESPONSE_BUFFER_SIZE text.

Definition sendResponse (response : string) : list event := [Transmit response].

Definition sendError (errorMsg : string) : list event :=
  sendResponse (format ("ERROR: " +++ errorMsg +++ nl)).

Definition sendOK : list event := sendResponse ("OK" +++ nl).

Definition level_name (high : bool) : string := if high then "HIGH" else "LOW".

Section Libc.

(** Three error paths format their message into [responseBuffer] and then
    call [sendError(responseBuffer)], which runs
    [snprintf(responseBuffer, size, "ERROR: %s\n", responseBuffer)]: source
    and destination overlap, and C leaves the text produced to the library.
    [overlapped msg] is the text the library leaves in the buffer when the
    buffer held [msg]. *)
Variable overlapped : string -> string.

Definition sendError_responseBuffer (msg : string) : list event :=
  sendResponse (overlapped (format msg)).

(** The loop of [executeSequence] that builds the steps, at index [i] with
    [n] iterations left.  [None]: the loop indexed one of the three arrays
    past its end.  The result is [false] when a resolution failed. *)
Fixpoint build_steps (d : ArrayDriver.t) (electrodeIds durations : list Z)
         (n i : nat) (arr : list ArrayDriver.ElectrodeStep_t)
  : option (bool * list ArrayDriver.ElectrodeStep_t) :=
  match n with
  | O => Some (true, arr)
  | S n' =>
    match nth_error electrodeIds i, nth_error durations i, nth_error arr i with
    | Some id, Some dur, Some _ =>
      match ArrayDriver.getRowColFromElectrode d (u8 id) 0 0 with
      | (true, row, col) =>
        build_steps d electrodeIds durations n' (S i)
          (upd arr i {| ArrayDriver.row := row;
                        ArrayDriver.col := col;
                        ArrayDriver.state := true;
                        ArrayDriver.duration_ms := u32 dur |})
      | (false, _, _) => Some (false, arr)
      end
    | _, _, _ => None
    end
  end.

(** [executeSequence]; the driver borrows the handler's sequence for the
    blocking run. *)
Definition executeSequence (h : t) (cycleReps cycleDelay numSteps : Z)
           (electrodeIds durations : list Z) : option (t * list event) :=
  match build_steps (arrayDriver h) electrodeIds durations (Z.to_nat numSteps) 0
                    (sequenceSteps h) with
  | None => None
  | Some (false, arr) =>
    Some (with_sequence h arr (currentSequence h), sendError "Invalid electrode number")
  | Some (true, arr) =>
    let h1 := with_sequence h arr
                {| steps := SequenceSteps;
                   numSteps := u16 numSteps;
                   cycleCount := u32 cycleReps;
                   cycleDelay_ms := u32 cycleDelay |} in
    match ArrayDriver.executeSequence (arrayDriver h1) (Some (deref h1)) with
    | None => None
    | Some (d, tr) =>
      Some (with_driver h1 d,
            sendResponse ("Executing sequence..." +++ nl)
              ++ tr ++ sendResponse ("Sequence complete" +++ nl))
    end
  end.

(** How the step loop of [parseElectrodeCommand] ends. *)
Inductive steps_result : Type :=
| Rejected (reply : list event)
| Parsed (electrodeIds durations : list Z)
| LoopDone.

(** The step loop at index [i], with [n] iterations left, [ptr] the rest of
    the line, and the two local arrays filled up to [i]. *)
Fixpoint parse_steps (numSteps : Z) (n : nat) (i : Z) (ptr : string)
         (electrodeIds durations : list Z) : steps_result :=
  match n with
  | O => LoopDone
  | S n' =>
    let id := atoi ptr in
    if (id <? 1) || (id >? 140)
    then Rejected (sendError_responseBuffer
                     ("Invalid electrode ID at step " +++ dec i +++ " (1-140)"))
    else
      match strchr ptr "," with
      | None => Rejected (sendError "Missing comma in step")
      | Some comma =>
        let ptr := ArrayDriver.tail_string comma in
        let dur := atoi ptr in
        if dur <? 0
        then Rejected (sendError_responseBuffer ("Invalid duration at step " +++ dec i))
        else
          match strchr ptr "|" with
          | None => Rejected (sendError "Missing delimiter")
          | Some pipe =>
            let ptr := ArrayDriver.tail_string pipe in
            if starts_with "END" ptr
            then if i + 1 =? numSteps
                 then Parsed (electrodeIds ++ [id]) (durations ++ [dur])
                 else Rejected (sendError "Early END marker")
            else parse_steps numSteps n' (i + 1) ptr
                             (electrodeIds ++ [id]) (durations ++ [dur])
          end
      end
  end.

Definition parseElectrodeCommand (h : t) (cmd : string) : option (t * list event) :=
  if negb (starts_with "START|" cmd) then Some (h, sendError "Invalid start")
  else
    let ptr := drop 6 cmd in
    let cycleReps := atoi ptr in
    if (cycleReps <? 1) || (cycleReps >? 1000)
    then Some (h, sendError "Invalid cycle repetitions (1-1000)")
    else
      match strchr ptr "|" with
      | None => Some (h, sendError "Missing delimiter after REPS")
      | Some pipe =>
        let ptr := ArrayDriver.tail_string pipe in
        let cycleDelay := atoi ptr in
        if cycleDelay <? 0 then Some (h, sendError "Invalid cycle delay")
        else
          match strchr ptr "|" with
          | None => Some (h, sendError "Missing delimiter after DELAY")
          | Some pipe =>
            let ptr := ArrayDriver.tail_string pipe in
            let numSteps := atoi ptr in
            if (numSteps <? 1) || (numSteps >? MAX_STEPS)
            then Some (h, sendError_responseBuffer
                            ("Invalid steps count (1-" +++ dec MAX_STEPS +++ ")"))
            else
              match strchr ptr "|" with
              | None => Some (h, sendError "Missing delimiter after STEPS")
              | Some pipe =>
                let ptr := ArrayDriver.tail_string pipe in
                match parse_steps numSteps (Z.to_nat numSteps) 0 ptr [] [] with
                | Rejected reply => Some (h, reply)
                | LoopDone => Some (h, sendError "Missing END marker")
                | Parsed electrodeIds durations =>
                  match executeSequence h cycleReps cycleDelay numSteps
                                        electrodeIds durations with
                  | None => None
                  | Some (h1, tr) => Some (h1, tr ++ sendOK)
                  end
                end
              end
          end
      end.

Definition parseSingleElectrodeCommand (h : t) (cmd : string) : t * list event :=
  let ptr := drop 4 cmd in
  let electrode := atoi ptr in
  if (electrode <? 1) || (electrode >? 140)
  then (h, sendError "Invalid electrode (1-140)")
  else
    match strchr ptr "|" with
    | None => (h, sendError "Missing delimiter")
    | Some pipe =>
      let state := atoi (ArrayDriver.tail_string pipe) in
      if negb (state =? 0) && negb (state =? 1)
      then (h, sendError "Invalid state (0=LOW, 1=HIGH)")
      else
        let '(d, tr) := ArrayDriver.setElectrodeByNumber (arrayDriver h)
                          (u8 electrode) (state =? 1) in
        (with_driver h d,
         tr ++ sendResponse (format ("Electrode " +++ dec electrode +++ " set to "
                                       +++ level_name (negb (state =? 0)) +++ nl))
            ++ sendOK)
    end.

Definition parseAllElectrodesCommand (h : t) (cmd : string) : t * list event :=
  let state := atoi (drop 4 cmd) in
  if negb (state =? 0) && negb (state =? 1)
  then (h, sendError "Invalid state (0=LOW, 1=HIGH)")
  else if state =? 1
  then let '(d, tr) := ArrayDriver.setAllElectrodesHigh (arrayDriver h) in
       (with_driver h d,
        tr ++ sendResponse ("All electrodes set to HIGH" +++ nl) ++ sendOK)
  else let '(d, tr) := ArrayDriver.setAllElectrodesLow (arrayDriver h) in
       (with_driver h d,
        tr ++ sendResponse ("All electrodes set to LOW" +++ nl) ++ sendOK).

Definition parseRowCommand (h : t) (cmd : string) : t * list event :=
  let ptr := drop 4 cmd in
  let row := atoi ptr in
  if (row <? 0) || (row >? 9) then (h, sendError "Invalid row (0-9)")
  else
    match strchr ptr "|" with
    | None => (h, sendError "Missing delimiter")
    | Some pipe =>
      let state := atoi (ArrayDriver.tail_string pipe) in
      if negb (state =? 0) && negb (state =? 1)
      then (h, sendError "Invalid state (0=LOW, 1=HIGH)")
      else
        let '(d, tr) := ArrayDriver.setRowElectrodes (arrayDriver h) (u8 row)
                          (state =? 1) in
        (with_driver h d,
         tr ++ sendResponse (format ("Row " +++ dec row +++ " set to "
                                       +++ level_name (negb (state =? 0)) +++ nl))
            ++ sendOK)
    end.

Definition parseColCommand (h : t) (cmd : string) : t * list event :=
  let ptr := drop 4 cmd in
  let col := atoi ptr in
  if (col <? 0) || (col >? 13) then (h, sendError "Invalid column (0-13)")
  else
    match strchr ptr "|" with
    | None => (h, sendError "Missing delimiter")
    | Some pipe =>
      let state := atoi (ArrayDriver.tail_string pipe) in
      if negb (state =? 0) && negb (state =? 1)
      then (h, sendError "Invalid state (0=LOW, 1=HIGH)")
      else
        let '(d, tr) := ArrayDriver.setColElectrodes (arrayDriver h) (u8 col)
                          (state =? 1) in
        (with_driver h d,
         tr ++ sendResponse (format ("Column " +++ dec col +++ " set to "
                                       +++ level_name (negb (state =? 0)) +++ nl))
            ++ sendOK)
    end.

Definition parseTestCommand (h : t) (cmd : string) : t * list event :=
  let '(d, tr) := ArrayDriver.runElectrodeTest (arrayDriver h) in
  (with_driver h d,
   sendResponse ("Running electrode test (140 electrodes x 100ms)..." +++ nl)
     ++ tr ++ sendResponse ("Test complete" +++ nl) ++ sendOK).

Definition parseStatusCommand (h : t) (cmd : string) : t * list event :=
  (h,
   sendResponse (nl +++ "=== System Status ===" +++ nl)
     ++ (if ArrayDriver.isSequenceRunning (arrayDriver h)
         then sendResponse ("Sequence: RUNNING" +++ nl)
         else sendResponse ("Sequence: IDLE" +++ nl))
     ++ sendResponse (format ("Electrodes: 140 (10 rows x 14 columns)" +++ nl))
     ++ sendResponse ("Status: OK" +++ nl +++ nl)).

Definition parseStopCommand (h : t) (cmd : string) : t * list event :=
  if ArrayDriver.isSequenceRunning (arrayDriver h)
  then (with_driver h (ArrayDriver.stopSequence (arrayDriver h)),
        sendResponse ("Sequence stopped" +++ nl) ++ sendOK)
  else (h, sendResponse ("No sequence running" +++ nl) ++ sendOK).

Definition parseGetStateCommand (h : t) (cmd : string) : t * list event :=
  let electrode := atoi (drop 4 cmd) in
  if (electrode <? 1) || (electrode >? 140)
  then (h, sendError "Invalid electrode (1-140)")
  else
    match ArrayDriver.getRowColFromElectrode (arrayDriver h) (u8 electrode) 0 0 with
    | (true, row, col) =>
      let state := ArrayDriver.getElectrodeState (arrayDriver h) row col in
      (h,
       sendResponse (format ("Electrode " +++ dec electrode +++ " (Row " +++ dec row
                               +++ ", Col " +++ dec col +++ "): "
                               +++ level_name state +++ nl))
         ++ sendOK)
    | (false, _, _) => (h, sendError "Failed to get electrode state")
    end.

Definition parseReloadMappingCommand (h : t) (cmd : string) : t * list event :=
  (h,
   sendResponse ("Reload mapping not implemented (requires re-initialization)" +++ nl)
     ++ sendError "Not implemented").

Definition help_text : list event :=
  sendResponse (nl +++ "=== ArrayDriver Commands ===" +++ nl)
    ++ sendResponse ("START|REPS|DELAY|STEPS|ID1,DUR1|ID2,DUR2|...|END - Execute sequence" +++ nl)
    ++ sendResponse ("SET|ELECTRODE|STATE - Set single electrode (STATE: 0=LOW, 1=HIGH)" +++ nl)
    ++ sendResponse ("ALL|STATE - Set all electrodes" +++ nl)
    ++ sendResponse ("ROW|ROW_NUM|STATE - Set all electrodes in row" +++ nl)
    ++ sendResponse ("COL|COL_NUM|STATE - Set all electrodes in column" +++ nl)
    ++ sendResponse ("TEST - Run full electrode test" +++ nl)
    ++ sendResponse ("STATUS - Get system status" +++ nl)
    ++ sendResponse ("STOP - Stop current sequence" +++ nl)
    ++ sendResponse ("GET|ELECTRODE - Get electrode state" +++ nl)
    ++ sendResponse ("RELOAD - Reload JSON mappings" +++ nl)
    ++ sendResponse ("HELP - Show this help" +++ nl +++ nl).

Fixpoint skip_blanks (s : string) : string :=
  match s with
  | String c r => if (c =? " ")%char || (c =? "009")%char then skip_blanks r else s
  | EmptyString => s
  end.

Definition parseCommand (h : t) (line : string) : option (t * list event) :=
  let cmd := skip_blanks line in
  match cmd with
  | EmptyString => Some (h, [])
  | _ =>
    if starts_with "START|" cmd then parseElectrodeCommand h cmd
    else if starts_with "SET|" cmd then Some (parseSingleElectrodeCommand h cmd)
    else if starts_with "ALL|" cmd then Some (parseAllElectrodesCommand h cmd)
    else if starts_with "ROW|" cmd then Some (parseRowCommand h cmd)
    else if starts_with "COL|" cmd then Some (parseColCommand h cmd)
    else if starts_with "TEST" cmd then Some (parseTestCommand h cmd)
    else if starts_with "STATUS" cmd then Some (parseStatusCommand h cmd)
    else if starts_with "STOP" cmd then Some (parseStopCommand h cmd)
    else if starts_with "GET|" cmd then Some (parseGetStateCommand h cmd)
    else if starts_with "RELOAD" cmd then Some (parseReloadMappingCommand h cmd)
    else if starts_with "HELP" cmd then Some (h, help_text)
    else Some (h, sendError "Unknown command. Type 'HELP' for command list")
  end.

(** *** Line assembly *)

Definition processByte (h : t) (byte : ascii) : t * list event :=
  if cmdBufferIndex h >=? UART_CMD_BUFFER_SIZE - 1
  then (with_buffer h (cmdBuffer h) 0 (cmdComplete h), sendError "Buffer overflow")
  else if (byte =? "010")%char || (byte =? "013")%char
  then if cmdBufferIndex h >? 0
       then (with_buffer h (upd (cmdBuffer h) (Z.to_nat (cmdBufferIndex h)) NUL)
                         (cmdBufferIndex h) true, [])
       else (h, [])
  else (with_buffer h (upd (cmdBuffer h) (Z.to_nat (cmdBufferIndex h)) byte)
                    (u16 (cmdBufferIndex h + 1)) (cmdComplete h), []).

Definition isCommandReady (h : t) : bool := cmdComplete h.

Definition empty_buffer : list ascii := repeat NUL (Z.to_nat UART_CMD_BUFFER_SIZE).

Definition processCommands (h : t) : option (t * list event) :=
  if negb (cmdComplete h) then Some (h, [])
  else
    match cstring (cmdBuffer h) with
    | None => None
    | Some line =>
      match parseCommand h line with
      | None => None
      | Some (h1, tr) => Some (with_buffer h1 empty_buffer 0 false, tr)
      end
    end.

(** The handler after its constructor and [init()], around a driver [d].
    The constructor leaves [sequenceSteps] and [currentSequence] unassigned;
    [steps0] is what the storage of the step array holds. *)
Definition init (d : ArrayDriver.t) (steps0 : list ArrayDriver.ElectrodeStep_t)
  : t * list event :=
  ({| arrayDriver := d;
      cmdBuffer := empty_buffer;
      cmdBufferIndex := 0;
      cmdComplete := false;
      sequenceSteps := steps0;
      currentSequence := {| steps := Unassigned; numSteps := 0;
                            cycleCount := 0; cycleDelay_ms := 0 |} |},
   sendResponse ("ArrayDriver UART Command Handler Ready" +++ nl)
     ++ sendResponse ("Type 'HELP' for command list" +++ nl)).

(** *** The polling loop

    The firmware's main loop is not part of these files; the handler's header
    says how it is used: [processByte] for each byte received,
    [processCommands] from the main loop.  An [input] is one of the two calls,
    and [run] makes the calls of a list in order. *)
Inductive input : Type :=
| Rx (byte : ascii)
| Poll.

Fixpoint run (h : t) (ins : list input) : option (t * list event) :=
  match ins with
  | [] => Some (h, [])
  | i :: rest =>
    match (match i with
           | Rx byte => Some (processByte h byte)
           | Poll => processCommands h
           end) with
    | None => None
    | Some (h1, tr1) =>
      match run h1 rest with
      | None => None
      | Some (h2, tr2) => Some (h2, tr1 ++ tr2)
      end
    end
  end.

Fixpoint bytes_of (s : string) : list ascii :=
  match s with
  | EmptyString => []
  | String c r => c :: bytes_of r
  end.

(** The main loop polls after every byte. *)
Definition receive (s : string) : list input :=
  flat_map (fun b => [Rx b; Poll]) (bytes_of s).

End Libc.

End UartCommandHandler.

(** ** The wire format of START

    [START|reps|delay|steps|id1,dur1|id2,dur2|...|END] as the help text of the
    handler gives it: a line is put together from its fields.  A header field
    or a duration holds no [|]; an electrode field holds neither [|] nor [,]
    and does not begin with [END], so that it cannot be taken for the marker.
    The number a field stands for is the one [atoi] reads. *)

Module Wire.

Import CStr.

Definition field (f : string) : Prop := strchr f "|" = None.

Definition id_field (f : string) : Prop :=
  strchr f "|" = None /\ strchr f "," = None /\ starts_with "END" f = false.

Definition step_fields (st : string * string) : Prop :=
  id_field (fst st) /\ field (snd st).

Definition step_text (st : string * string) : string :=
  fst st +++ "," +++ snd st +++ "|".

(** The steps, each closed by [|], then whatever ends the line. *)
Definition steps_text (body : list (string * string)) (tail : string) : string :=
  fold_right (fun st rest => step_text st +++ rest) tail body.

Definition start_line (reps delay count : string) (body : list (string * string))
           (tail : string) : string :=
  "START|" +++ reps +++ "|" +++ delay +++ "|" +++ count +++ "|"
    +++ steps_text body tail.

(** A step as a pair of numbers. *)
Definition step_values (st : string * string) : Z * Z := (atoi (fst st), atoi (snd st)).

Definition bad_step (st : string * string) : Prop :=
  atoi (fst st) < 1 \/ atoi (fst st) > 140 \/ atoi (snd st) < 0.

Definition good_step (st : string * string) : Prop :=
  1 <= atoi (fst st) <= 140 /\ 0 <= atoi (snd st).

(** The END marker is not where the step count says the list ends: absent
    after the last step, met before it, pushed back by further steps, or the
    line stops short of it (fewer steps than announced, and no [|] in what
    follows them).  The marker is what the parser takes for it: a step that
    begins with the letters END. *)
Definition bad_end (count : Z) (body : list (string * string)) (tail : string) : Prop :=
  (Z.of_nat (List.length body) = count /\ starts_with "END" tail = false)
  \/ (Z.of_nat (List.length body) < count /\ starts_with "END" tail = true)
  \/ Z.of_nat (List.length body) > count
  \/ (Z.of_nat (List.length body) < count /\ strchr tail "|" = None).

(** What the blocking run of a sequence does, in the words of the
    specification: [reps] cycles; in a cycle, each step in order writes its
    electrode and then holds for its duration; the inter-cycle delay comes
    between two cycles and not after the last. *)
Definition step_events (d : ArrayDriver.t) (st : Z * Z) : list event :=
  match ArrayDriver.getRowColFromElectrode d (fst st) 0 0 with
  | (_, row, col) => snd (ArrayDriver.setElectrode d row col true) ++ [Delay (snd st)]
  end.

(** The step the handler builds for an electrode and a duration. *)
Definition built (d : ArrayDriver.t) (st : Z * Z) : ArrayDriver.ElectrodeStep_t :=
  match ArrayDriver.getRowColFromElectrode d (u8 (fst st)) 0 0 with
  | (_, row, col) =>
    {| ArrayDriver.row := row; ArrayDriver.col := col;
       ArrayDriver.state := true; ArrayDriver.duration_ms := u32 (snd st) |}
  end.

Definition cycle_events (d : ArrayDriver.t) (steps : list (Z * Z)) : list event :=
  flat_map (step_events d) steps.

Definition blocking_events (d : ArrayDriver.t) (reps delay : Z) (steps : list (Z * Z))
  : list event :=
  List.concat (repeat (cycle_events d steps ++ [Delay delay]) (Z.to_nat (reps - 1)))
    ++ cycle_events d steps.

(** The events of one step of a sequence in the driver's blocking run; they
    do not depend on the driver. *)
Definition step_run (s : ArrayDriver.ElectrodeStep_t) : list event :=
  (if (ArrayDriver.row s >=? 10) || (ArrayDriver.col s >=? 14) then []
   else ArrayDriver.setRowColAtomic (ArrayDriver.row s) (ArrayDriver.col s)
                                    (ArrayDriver.state s))
  ++ [Delay (ArrayDriver.duration_ms s)].

(** An event that writes a line does so to energize: row high, column low. *)
Definition energizes (e : event) : Prop :=
  match e with
  | RowLine _ high => high = true
  | ColLine _ high => high = false
  | _ => True
  end.

End Wire.

(** ** Concrete objects for the examples *)

Module Demo.

Import ArrayDriver.

(** No mapping file can be opened. *)
Definition no_files : FileSystem := fun _ => None.

(** Storage of static duration: zero before the constructor runs. *)
Definition zeroed : Storage :=
  {| raw_map_row := fun _ => 0; raw_map_col := fun _ => 0;
     raw_pcieToRow := fun _ => 0; raw_pcieToCol := fun _ => 0 |}.

(** Storage that held 0xFF bytes (a stack or heap object). *)
Definition stale : Storage :=
  {| raw_map_row := fun _ => 255; raw_map_col := fun _ => 255;
     raw_pcieToRow := fun _ => 255; raw_pcieToCol := fun _ => 255 |}.

(** The driver with the default mapping. *)
Definition driver : t := ArrayDriver no_files zeroed.

Definition no_step : ElectrodeStep_t :=
  {| row := 0; col := 0; state := false; duration_ms := 0 |}.

Definition handler : UartCommandHandler.t :=
  fst (UartCommandHandler.init driver (repeat no_step 256)).

(** The handler as its constructor leaves it, when [init()] has not been
    called: the constructor does not clear the command buffer, and here the
    memory held 0xFF bytes. *)
Definition constructed : UartCommandHandler.t :=
  UartCommandHandler.with_buffer handler (repeat "255"%char 2048) 0 false.

(** A library whose overlapping [snprintf] happens to produce the text the
    author meant. *)
Definition overlapped (msg : string) : string := "ERROR: " +++ msg +++ CStr.nl.

(** Both mapping files are there and are read; the electrode map has
    entries for electrodes 1 and 2 only. *)
Definition partial_files : FileSystem :=
  fun path =>
    if (path =? ELECTRODE_MAP_PATH)%string
    then Some ("{" +++ CStr.dquote +++ "mapping" +++ CStr.dquote +++ ": {"
                 +++ CStr.dquote +++ "1" +++ CStr.dquote +++ ": 3, "
                 +++ CStr.dquote +++ "2" +++ CStr.dquote +++ ": 1}}")
    else if (path =? PIN_MAP_PATH)%string
    then Some ("{" +++ CStr.dquote +++ "electrodes" +++ CStr.dquote +++ ": {"
                 +++ CStr.dquote +++ "0,0" +++ CStr.dquote +++ ": 1, "
                 +++ CStr.dquote +++ "0,1" +++ CStr.dquote +++ ": 2, "
                 +++ CStr.dquote +++ "3,5" +++ CStr.dquote +++ ": 3}}")
    else None.

(** Both mapping files are there and are read; the pin map places pin 1 at
    row 2, column 7. *)
Definition pin1_files : FileSystem :=
  fun path =>
    if (path =? ELECTRODE_MAP_PATH)%string
    then Some ("{" +++ CStr.dquote +++ "mapping" +++ CStr.dquote +++ ": {"
                 +++ CStr.dquote +++ "1" +++ CStr.dquote +++ ": 3, "
                 +++ CStr.dquote +++ "2" +++ CStr.dquote +++ ": 1}}")
    else if (path =? PIN_MAP_PATH)%string
    then Some ("{" +++ CStr.dquote +++ "electrodes" +++ CStr.dquote +++ ": {"
                 +++ CStr.dquote +++ "2,7" +++ CStr.dquote +++ ": 1, "
                 +++ CStr.dquote +++ "0,1" +++ CStr.dquote +++ ": 2, "
                 +++ CStr.dquote +++ "3,5" +++ CStr.dquote +++ ": 3}}")
    else None.

(** 2048 letters, then a command, then the line end: the line is longer
    than the 2047 characters the command buffer can hold. *)
Definition overlong_line : string :=
  String.concat "" (repeat "A" 2048) +++ "ALL|1" +++ CStr.nl.

(** The handler after a START of one step, and what the command made happen. *)
Definition after_start : UartCommandHandler.t * list event :=
  match UartCommandHandler.parseElectrodeCommand overlapped handler
          "START|2|5|1|15,10|END" with
  | Some r => r
  | None => (handler, [])
  end.


End Demo.

(** ** Notions used to state further properties *)

Module Extra.

Import ArrayDriver.

(** The entries of the electrode table are [uint8_t] values. *)
Definition table_u8 (d : t) : Prop :=
  Forall (fun e => 0 <= map_row e < 256 /\ 0 <= map_col e < 256) (electrodeMap d).

(** Electrode number [n] resolves, and to the cell [(r, c)] of the matrix. *)
Definition addresses (d : t) (n r c : Z) : bool :=
  match getRowColFromElectrode d n 0 0 with
  | (true, row, col) => (row <? 10) && (col <? 14) && (row =? r) && (col =? c)
  | (false, _, _) => false
  end.

(** What one pulse of the electrode tests issues: the write that switches
    the electrode on, the wait, the write that switches it off; the wait
    alone when the number does not resolve to a cell of the matrix. *)
Definition pulse_events (d : t) (duration_ms n : Z) : list event :=
  match getRowColFromElectrode d n 0 0 with
  | (true, row, col) =>
    if (row <? 10) && (col <? 14)
    then setRowColAtomic row col true ++ Delay duration_ms :: setRowColAtomic row col false
    else [Delay duration_ms]
  | (false, _, _) => [Delay duration_ms]
  end.

(** An entry of the electrode table that stands for a pin number of
    1 to 140, as the first pass of the constructor leaves it for the second
    (row * 14 + col + 1 is the pin). *)
Definition chainable (e : ElectrodeMapping_t) : Prop :=
  0 <= map_row e /\ 0 <= map_col e /\ map_row e * 14 + map_col e + 1 <= 140.

(** An entry that is a cell of the matrix. *)
Definition in_matrix (e : ElectrodeMapping_t) : Prop :=
  0 <= map_row e < 10 /\ 0 <= map_col e < 14.

(** The text holds two double quotes in a row. *)
Fixpoint has_qq (s : string) : bool :=
  match s with
  | String a (String b _ as r) => ((a =? "034")%char && (b =? "034")%char) || has_qq r
  | _ => false
  end.

(** A character of a command line: not a line end, and not the NUL that ends
    a C string. *)
Definition line_char (c : ascii) : bool :=
  negb ((c =? "010")%char || (c =? "013")%char || (c =? UartCommandHandler.NUL)%char).

(** A byte that ends a line. *)
Definition line_end (c : ascii) : bool := (c =? "010")%char || (c =? "013")%char.

Fixpoint plain (s : string) : bool :=
  match s with
  | EmptyString => true
  | String c r => line_char c && plain r
  end.

(** The bytes of a text, received one after the other with no poll between. *)
Definition rx (s : string) : list UartCommandHandler.input :=
  map UartCommandHandler.Rx (UartCommandHandler.bytes_of s).

(** The handler's arrays have the sizes of their declarations, the last
    cell of the command buffer holds a NUL (as [init()] and every
    [processCommands] leave it; the constructor alone does not), the write
    index is at most the index of that cell, and the driver has its
    dimensions. *)
Definition ready (h : UartCommandHandler.t) : Prop :=
  List.length (UartCommandHandler.cmdBuffer h) = 2048%nat
  /\ nth_error (UartCommandHandler.cmdBuffer h) 2047 = Some UartCommandHandler.NUL
  /\ 0 <= UartCommandHandler.cmdBufferIndex h <= 2047
  /\ List.length (UartCommandHandler.sequenceSteps h) = 256%nat
  /\ wf (UartCommandHandler.arrayDriver h).

(** What no call of the handler changes in the driver: the state array
    keeps its dimensions, the electrode table is as it was, and no sequence
    is set running. *)
Definition kept (d d' : t) : Prop :=
  (wf_state (electrodeState d) -> wf_state (electrodeState d'))
  /\ electrodeMap d' = electrodeMap d
  /\ (sequenceRunning d = false -> sequenceRunning d' = false).

(** What a command leaves alone in the handler: the command buffer and its
    two variables, the size of the step array, and in the driver what
    [kept] says. *)
Definition handled (h h' : UartCommandHandler.t) : Prop :=
  UartCommandHandler.cmdBuffer h' = UartCommandHandler.cmdBuffer h
  /\ UartCommandHandler.cmdBufferIndex h' = UartCommandHandler.cmdBufferIndex h
  /\ UartCommandHandler.cmdComplete h' = UartCommandHandler.cmdComplete h
  /\ List.length (UartCommandHandler.sequenceSteps h')
     = List.length (UartCommandHandler.sequenceSteps h)
  /\ kept (UartCommandHandler.arrayDriver h) (UartCommandHandler.arrayDriver h').

End Extra.

(** * Properties *)

(** ** Arrays *)

Section ArrayFacts.

Context {A : Type}.

Lemma upd_length (l : list A) (i : nat) (x : A) :
  List.length (upd l i x) = List.length l.
Proof.
  revert i; induction l as [|h t IH]; intros [|i]; simpl; auto.
Qed.

Lemma nth_upd_same (l : list A) (i : nat) (x d : A) :
  (i < List.length l)%nat -> nth i (upd l i x) d = x.
Proof.
  revert i; induction l as [|h t IH]; intros [|i] Hi; simpl in *; try lia; auto.
  apply IH; lia.
Qed.

Lemma nth_upd_other (l : list A) (i j : nat) (x d : A) :
  i <> j -> nth j (upd l i x) d = nth j l d.
Proof.
  revert i j; induction l as [|h t IH]; intros [|i] [|j] Hij; simpl; auto;
    try congruence.
Qed.

Lemma nth_upd (l : list A) (i j : nat) (x d : A) :
  nth j (upd l i x) d =
  if (i =? j)%nat && (i <? List.length l)%nat then x else nth j l d.
Proof.
  destruct (Nat.eqb_spec i j) as [->|Hne]; simpl.
  - destruct (Nat.ltb_spec j (List.length l)).
    + now apply nth_upd_same.
    + rewrite !nth_overflow; auto; rewrite ?upd_length; lia.
  - now apply nth_upd_other.
Qed.

Lemma upd_out_of_range (l : list A) (i : nat) (x : A) :
  (List.length l <= i)%nat -> upd l i x = l.
Proof.
  revert i; induction l as [|h t IH]; intros [|i] Hi; simpl in *; try lia; auto.
  f_equal; apply IH; lia.
Qed.

End ArrayFacts.

(** ** The electrode state array *)

Section StateArray.

Import ArrayDriver.

Lemma set_cell_length st r c v :
  List.length (set_cell st r c v) = List.length st.
Proof. unfold set_cell; apply upd_length. Qed.

Lemma set_cell_row_length st r c v r' :
  List.length (nth r' (set_cell st r c v) []) = List.length (nth r' st []).
Proof.
  unfold set_cell; rewrite nth_upd.
  destruct (Nat.eqb_spec r r') as [->|]; simpl; auto.
  destruct (Nat.ltb_spec r' (List.length st)); auto.
  apply upd_length.
Qed.

Lemma cell_set_cell st r c v r' c' :
  cell (set_cell st r c v) r' c' =
  if (r =? r')%nat && (c =? c')%nat
     && (r <? List.length st)%nat && (c <? List.length (nth r st []))%nat
  then v else cell st r' c'.
Proof.
  unfold cell, set_cell; rewrite nth_upd.
  destruct (Nat.eqb_spec r r') as [->|]; simpl; auto.
  destruct (Nat.ltb_spec r' (List.length st)); simpl.
  - rewrite nth_upd. now destruct (c =? c')%nat.
  - now destruct (c =? c')%nat.
Qed.

Lemma wf_state_row st r :
  wf_state st -> (r < 10)%nat -> List.length (nth r st []) = 14%nat.
Proof.
  intros [Hlen Hrows] Hr.
  rewrite Forall_forall in Hrows; apply Hrows, nth_In; lia.
Qed.

Lemma wf_state_set_cell st r c v : wf_state st -> wf_state (set_cell st r c v).
Proof.
  intros Hwf; pose proof Hwf as [Hlen Hrows]; split.
  - now rewrite set_cell_length.
  - apply Forall_forall; intros x Hx.
    destruct (In_nth _ _ [] Hx) as [k [Hk <-]].
    rewrite set_cell_length in Hk.
    rewrite set_cell_row_length. apply wf_state_row; auto; lia.
Qed.

(** The inner loop of the bulk update, over any list of columns. *)
Lemma fill_cols st r v cs :
  wf_state st -> (r < 10)%nat -> Forall (fun c => (c < 14)%nat) cs ->
  let st' := fold_left (fun st c => set_cell st r c v) cs st in
  wf_state st' /\
  forall r' c', cell st' r' c' =
                if (r =? r')%nat && existsb (Nat.eqb c') cs then v else cell st r' c'.
Proof.
  revert st; induction cs as [|c cs IH]; intros st Hwf Hr Hcs; simpl.
  - split; auto. intros; now rewrite andb_false_r.
  - inversion Hcs as [|? ? Hc Hcs']; subst.
    destruct (IH (set_cell st r c v) (wf_state_set_cell _ _ _ _ Hwf) Hr Hcs') as [Hwf' Hcell].
    split; auto. intros r' c'. rewrite Hcell, cell_set_cell.
    destruct Hwf as [Hlen Hrows].
    rewrite (wf_state_row st r (conj Hlen Hrows) Hr).
    replace (r <? List.length st)%nat with true by (symmetry; apply Nat.ltb_lt; lia).
    replace (c <? 14)%nat with true by (symmetry; apply Nat.ltb_lt; lia).
    rewrite !andb_true_r.
    destruct (r =? r')%nat; simpl; auto.
    rewrite (Nat.eqb_sym c' c).
    destruct (c =? c')%nat; simpl; auto.
    now destruct (existsb (Nat.eqb c') cs).
Qed.

(** The two nested loops assign every cell. *)
Lemma fill_state_cell st v :
  wf_state st ->
  wf_state (fill_state st v) /\
  forall r c, (r < 10)%nat -> (c < 14)%nat -> cell (fill_state st v) r c = v.
Proof.
  unfold fill_state.
  assert (G : forall rs st, wf_state st -> Forall (fun r => (r < 10)%nat) rs ->
            let st' := fold_left
                         (fun st r => fold_left (fun st c => set_cell st r c v) cols st)
                         rs st in
            wf_state st' /\
            forall r c, (c < 14)%nat ->
              cell st' r c = if existsb (Nat.eqb r) rs then v else cell st r c).
  { induction rs as [|r rs IH]; intros st0 Hwf Hrs; simpl.
    - split; auto.
    - inversion Hrs as [|? ? Hr Hrs']; subst.
      assert (Hcols : Forall (fun c => (c < 14)%nat) cols).
      { apply Forall_forall; intros c Hc; apply in_seq in Hc; lia. }
      destruct (fill_cols st0 r v cols Hwf Hr Hcols) as [Hwf1 Hcell1].
      destruct (IH _ Hwf1 Hrs') as [Hwf2 Hcell2].
      split; auto. intros r' c Hc.
      assert (E : existsb (Nat.eqb c) cols = true).
      { apply existsb_exists; exists c; split; [apply in_seq; lia | apply Nat.eqb_refl]. }
      rewrite Hcell2, Hcell1, E, andb_true_r by auto.
      rewrite (Nat.eqb_sym r' r).
      destruct (existsb (Nat.eqb r') rs); [now rewrite orb_true_r|].
      rewrite orb_false_r.
      now destruct (r =? r')%nat. }
  intros Hwf.
  assert (Hrows : Forall (fun r => (r < 10)%nat) rows).
  { apply Forall_forall; intros r Hr; apply in_seq in Hr; lia. }
  destruct (G rows st Hwf Hrows) as [Hwf' Hcell].
  split; auto. intros r c Hr Hc. rewrite Hcell by auto.
  assert (E : existsb (Nat.eqb r) rows = true).
  { apply existsb_exists; exists r; split; [apply in_seq; lia | apply Nat.eqb_refl]. }
  now rewrite E.
Qed.

End StateArray.

(** ** The matrix actuator *)

Section Actuator.

Import ArrayDriver.

Lemma wf_demo_driver : wf Demo.driver.
Proof.
  split; [split; [reflexivity | repeat constructor] | reflexivity].
Qed.

(** C6. For an in-range row and column, [setElectrode] followed by
    [getElectrodeState] returns the state just written, whichever it is; for
    a row or column out of range, [setElectrode] returns the driver as it
    was, electrode state array included, and issues no event. *)
Theorem setElectrode_then_getElectrodeState (d : t) (row col : Z) (s : bool) :
  wf d -> 0 <= row < 256 -> 0 <= col < 256 ->
  (row < 10 -> col < 14 ->
   getElectrodeState (fst (setElectrode d row col s)) row col = s)
  /\ (row >= 10 \/ col >= 14 -> setElectrode d row col s = (d, [])).
Proof.
  intros [[Hlen Hrows] _] Hrow Hcol; split.
  - intros Hr Hc. unfold setElectrode, getElectrodeState, NUM_ROWS, NUM_COLS.
    destruct (Z.geb_spec row 10); [lia|].
    destruct (Z.geb_spec col 14); [lia|]. simpl.
    rewrite cell_set_cell, !Nat.eqb_refl; simpl.
    rewrite (wf_state_row _ (Z.to_nat row) (conj Hlen Hrows)) by lia.
    rewrite Hlen.
    replace (Z.to_nat row <? 10)%nat with true by (symmetry; apply Nat.ltb_lt; lia).
    replace (Z.to_nat col <? 14)%nat with true by (symmetry; apply Nat.ltb_lt; lia).
    reflexivity.
  - intros Hout. unfold setElectrode, NUM_ROWS, NUM_COLS.
    destruct (Z.geb_spec row 10); simpl; auto.
    destruct (Z.geb_spec col 14); simpl; auto. lia.
Qed.

Lemma setElectrode_then_getElectrodeState_witness :
  getElectrodeState (fst (setElectrode Demo.driver 3 5 true)) 3 5 = true
  /\ setElectrode Demo.driver 10 5 true = (Demo.driver, []).
Proof.
  destruct (setElectrode_then_getElectrodeState Demo.driver 3 5 true
              wf_demo_driver ltac:(lia) ltac:(lia)) as [Hin _].
  destruct (setElectrode_then_getElectrodeState Demo.driver 10 5 true
              wf_demo_driver ltac:(lia) ltac:(lia)) as [_ Hout].
  split; [apply Hin; lia | apply Hout; lia].
Defined.

(** C7. After [setAllElectrodesHigh], [getPattern] gives [true] in each of
    the 10 x 14 cells; after [setAllElectrodesLow] it gives [false] in each. *)
Theorem setAll_then_getPattern (d : t) :
  wf d ->
  getPattern (fst (setAllElectrodesHigh d)) = repeat (repeat true 14) 10
  /\ getPattern (fst (setAllElectrodesLow d)) = repeat (repeat false 14) 10.
Proof.
  intros [Hwf _].
  assert (G : forall v, map (fun r => map (fun c => cell (fill_state (electrodeState d) v) r c)
                                          cols) rows
                        = repeat (repeat v 14) 10).
  { intros v. destruct (fill_state_cell (electrodeState d) v Hwf) as [_ Hcell].
    transitivity (map (fun _ : nat => repeat v 14) rows); [|reflexivity].
    apply map_ext_in; intros r Hr; apply in_seq in Hr.
    transitivity (map (fun _ : nat => v) cols); [|reflexivity].
    apply map_ext_in; intros c Hc; apply in_seq in Hc.
    apply Hcell; lia. }
  split; unfold getPattern, setAllElectrodesHigh, setAllElectrodesLow; simpl; apply G.
Qed.

Lemma setAll_then_getPattern_witness :
  getPattern (fst (setAllElectrodesHigh Demo.driver)) = repeat (repeat true 14) 10
  /\ getPattern (fst (setAllElectrodesLow Demo.driver)) = repeat (repeat false 14) 10.
Proof.
  apply (setAll_then_getPattern Demo.driver wf_demo_driver).
Defined.

End Actuator.

(** ** The sequence engine *)

Section Engine.

Import ArrayDriver.

(** C8. In every state, [stopSequence] leaves the engine idle:
    [isSequenceRunning] is [false] right after; it issues no event and the
    electrode state array (as the mapping tables) is as before. *)
Theorem stopSequence_idle_and_frame (d : t) :
  isSequenceRunning (stopSequence d) = false
  /\ electrodeState (stopSequence d) = electrodeState d
  /\ getPattern (stopSequence d) = getPattern d
  /\ electrodeMap (stopSequence d) = electrodeMap d.
Proof. repeat split. Qed.

Lemma run_steps_zero arr step d : run_steps arr 0 step d = Some (d, []).
Proof. reflexivity. Qed.





End Engine.

(** ** The C string functions on a line made of fields *)

Section CStrFacts.

Import CStr.

Lemma skip_space_stop f c r :
  isspace c = false -> skip_space (f +++ String c r) = skip_space f +++ String c r.
Proof.
  intros Hc; induction f as [|a f IH]; simpl.
  - now rewrite Hc.
  - destruct (isspace a); auto.
Qed.

Lemma digits_value_stop acc f c r :
  isdigit c = false -> digits_value acc (f +++ String c r) = digits_value acc f.
Proof.
  intros Hc; revert acc; induction f as [|a f IH]; intros acc; simpl.
  - now rewrite Hc.
  - destruct (isdigit a); auto.
Qed.

(** [atoi] reads no further than a character that is neither a digit, a
    sign nor white space. *)
Lemma atoi_stop f c r :
  isdigit c = false -> isspace c = false ->
  (c =? "-")%char = false -> (c =? "+")%char = false ->
  atoi (f +++ String c r) = atoi f.
Proof.
  intros Hd Hs Hm Hp; unfold atoi.
  rewrite skip_space_stop by assumption.
  destruct (skip_space f) as [|a t]; simpl.
  - now rewrite Hm, Hp, Hd.
  - destruct (a =? "-")%char; [now rewrite digits_value_stop|].
    destruct (a =? "+")%char; [now rewrite digits_value_stop|].
    destruct (isdigit a); auto.
    now rewrite digits_value_stop.
Qed.

Lemma atoi_pipe f r : atoi (f +++ "|" +++ r) = atoi f.
Proof. now apply atoi_stop. Qed.

Lemma atoi_comma f r : atoi (f +++ "," +++ r) = atoi f.
Proof. now apply atoi_stop. Qed.

Lemma atoi_range s : INT_MIN <= atoi s <= INT_MAX.
Proof.
  unfold atoi, clamp_long, INT_MIN, INT_MAX.
  destruct (skip_space s) as [|c r]; [lia|].
  destruct (c =? "-")%char; [lia|]. destruct (c =? "+")%char; lia.
Qed.

Lemma strchr_skip f c r :
  strchr f c = None -> strchr (f +++ String c r) c = Some (String c r).
Proof.
  induction f as [|a f IH]; simpl.
  - now rewrite Ascii.eqb_refl.
  - destruct (a =? c)%char; [discriminate | auto].
Qed.

Lemma starts_with_END s :
  starts_with "END" s = true -> exists r, s = "END" +++ r.
Proof.
  intros H.
  destruct s as [|a [|b [|c r]]]; cbn -[Ascii.eqb] in H;
    repeat match type of H with
           | context [(?x =? ?y)%char] => destruct (Ascii.eqb_spec x y); subst
           end; try discriminate.
  now exists r.
Qed.

Lemma atoi_END s : starts_with "END" s = true -> atoi s = 0.
Proof. intros H; destruct (starts_with_END s H) as [r ->]; reflexivity. Qed.

(** An electrode field followed by its comma is not the END marker. *)
Lemma id_field_not_END f r :
  strchr f "," = None -> starts_with "END" f = false ->
  starts_with "END" (f +++ "," +++ r) = false.
Proof.
  intros Hc H.
  destruct f as [|a [|b [|c t]]]; cbn -[Ascii.eqb] in *; auto;
    repeat match goal with
           | |- context [(?x =? ?y)%char] => destruct (Ascii.eqb_spec x y); subst; auto
           end; try discriminate.
Qed.

Lemma sendError_is_error msg :
  exists reply, UartCommandHandler.sendError msg = [Transmit reply]
                /\ starts_with "ERROR: " reply = true.
Proof. eexists; split; reflexivity. Qed.

End CStrFacts.

(** ** Parsing START *)

Section StartParsing.

Import CStr UartCommandHandler Wire.

Variable overlapped : string -> string.

Lemma append_assoc3 (a b c : string) : (a +++ b) +++ c = a +++ b +++ c.
Proof. induction a as [|x a IH]; simpl; [reflexivity | now rewrite IH]. Qed.

(** One iteration of the step loop on a line that begins with a step. *)
Lemma parse_steps_step numSteps n i id dur rest ids durs :
  id_field id -> field dur ->
  parse_steps overlapped numSteps (S n) i (step_text (id, dur) +++ rest) ids durs =
  if (atoi id <? 1) || (atoi id >? 140)
  then Rejected (sendError_responseBuffer overlapped
                   ("Invalid electrode ID at step " +++ dec i +++ " (1-140)"))
  else if atoi dur <? 0
  then Rejected (sendError_responseBuffer overlapped
                   ("Invalid duration at step " +++ dec i))
  else if starts_with "END" rest
  then if i + 1 =? numSteps
       then Parsed (ids ++ [atoi id]) (durs ++ [atoi dur])
       else Rejected (sendError "Early END marker")
  else parse_steps overlapped numSteps n (i + 1) rest
                   (ids ++ [atoi id]) (durs ++ [atoi dur]).
Proof.
  intros [_ [Hcomma _]] Hpipe.
  unfold step_text; cbn [fst snd].
  rewrite !append_assoc3.
  cbn [parse_steps].
  rewrite atoi_comma.
  destruct ((atoi id <? 1) || (atoi id >? 140)); [reflexivity|].
  change ("," +++ dur +++ "|" +++ rest) with (String "," (dur +++ "|" +++ rest)).
  rewrite (strchr_skip id "," _ Hcomma).
  cbn [ArrayDriver.tail_string].
  rewrite atoi_pipe.
  destruct (atoi dur <? 0); [reflexivity|].
  change ("|" +++ rest) with (String "|" rest).
  rewrite (strchr_skip dur "|" _ Hpipe).
  reflexivity.
Qed.

Lemma overlapped_is_error msg :
  (forall m, starts_with "ERROR: " (overlapped m) = true) ->
  exists reply, sendError_responseBuffer overlapped msg = [Transmit reply]
                /\ starts_with "ERROR: " reply = true.
Proof. intros Hov; eexists; split; [reflexivity | apply Hov]. Qed.

(** The step loop never accepts a list with a bad step or a misplaced END:
    it ends in a rejection, or runs out ([LoopDone]), after which
    [parseElectrodeCommand] reports the missing marker. *)
Lemma strchr_suffix_none s c c2 : forall r,
  strchr s c = Some r -> strchr s c2 = None ->
  strchr (ArrayDriver.tail_string r) c2 = None.
Proof.
  induction s as [|a s IH]; intros r Hs Hn; cbn [strchr] in Hs, Hn; [discriminate|].
  destruct (a =? c2)%char; [discriminate|].
  destruct (a =? c)%char.
  - inversion Hs; subst. exact Hn.
  - now apply IH.
Qed.

Lemma parse_steps_rejects tail :
  (forall m, starts_with "ERROR: " (overlapped m) = true) ->
  forall body numSteps n i ids durs,
    Forall step_fields body ->
    numSteps = i + Z.of_nat n ->
    Exists bad_step body \/ bad_end (Z.of_nat n) body tail ->
    match parse_steps overlapped numSteps n i (steps_text body tail) ids durs with
    | Rejected tr =>
      exists reply, tr = [Transmit reply] /\ starts_with "ERROR: " reply = true
    | LoopDone => True
    | Parsed _ _ => False
    end.
Proof.
  intros Hov; induction body as [|[id dur] body IH];
    intros numSteps n i ids durs Hfields Hn Hbad.
  - destruct n as [|n]; [exact I|].
    cbn [steps_text fold_right].
    destruct Hbad as [Hex | [[Hlen _] | [[_ Hend] | [Hlen | [_ Hpipe]]]]];
      [inversion Hex | cbn in Hlen; lia | | cbn in Hlen; lia |].
    + cbn [parse_steps]. rewrite (atoi_END _ Hend).
      apply overlapped_is_error, Hov.
    + cbn [parse_steps]. cbv zeta.
      destruct ((atoi tail <? 1) || (atoi tail >? 140));
        [apply overlapped_is_error, Hov|].
      destruct (strchr tail ",") as [comma|] eqn:Ec; [|apply sendError_is_error].
      destruct (atoi (ArrayDriver.tail_string comma) <? 0);
        [apply overlapped_is_error, Hov|].
      rewrite (strchr_suffix_none tail "," "|" comma Ec Hpipe).
      apply sendError_is_error.
  - destruct n as [|n]; [exact I|].
    inversion Hfields as [|? ? [Hid Hdur] Hfields']; subst.
    cbn [steps_text fold_right].
    rewrite parse_steps_step by assumption.
    destruct (Z.ltb_spec (atoi id) 1) as [|Hid1];
      [apply overlapped_is_error, Hov|].
    destruct (Z.gtb_spec (atoi id) 140) as [|Hid2];
      [apply overlapped_is_error, Hov|].
    cbn [orb].
    destruct (Z.ltb_spec (atoi dur) 0) as [|Hdur0];
      [apply overlapped_is_error, Hov|].
    assert (Hgood : ~ bad_step (id, dur)).
    { unfold bad_step; cbn [fst snd]; lia. }
    assert (Hbad' : Exists bad_step body
                    \/ bad_end (Z.of_nat n) body tail).
    { destruct Hbad as [Hex | Hend].
      - left. inversion Hex; subst; [contradiction | assumption].
      - right. unfold bad_end in *. cbn [List.length] in Hend.
        rewrite !Nat2Z.inj_succ in Hend.
        destruct Hend as [[H1 H2] | [[H1 H2] | [H1 | [H1 H2]]]];
          [left | right; left | right; right; left | right; right; right];
          try split; auto; lia. }
    fold (steps_text body tail).
    destruct (starts_with "END" (steps_text body tail)) eqn:Eend.
    + destruct body as [|[id2 dur2] body].
      * cbn [steps_text fold_right] in Eend.
        destruct (Z.eqb_spec (i + 1) (i + Z.of_nat (S n))) as [E|E].
        -- exfalso. assert (n = 0)%nat by lia; subst n.
           destruct Hbad' as [Hex | [[_ H] | [[H _] | [H | [H _]]]]];
             [inversion Hex | congruence | cbn in H; lia | cbn in H; lia
              | cbn in H; lia].
        -- apply sendError_is_error.
      * exfalso. inversion Hfields' as [|? ? [[_ [Hc He]] _] _]; subst.
        cbn [steps_text fold_right] in Eend.
        unfold step_text in Eend; cbn [fst snd] in *.
        rewrite !append_assoc3 in Eend.
        rewrite (id_field_not_END id2 _ Hc He) in Eend. discriminate.
    + apply IH; auto. lia.
Qed.

(** The header of a line made of fields. *)
Lemma parse_header h reps delay count rest :
  field reps -> field delay -> field count ->
  parseElectrodeCommand overlapped h
    ("START|" +++ reps +++ "|" +++ delay +++ "|" +++ count +++ "|" +++ rest) =
  if (atoi reps <? 1) || (atoi reps >? 1000)
  then Some (h, sendError "Invalid cycle repetitions (1-1000)")
  else if atoi delay <? 0 then Some (h, sendError "Invalid cycle delay")
  else if (atoi count <? 1) || (atoi count >? MAX_STEPS)
  then Some (h, sendError_responseBuffer overlapped
                  ("Invalid steps count (1-" +++ dec MAX_STEPS +++ ")"))
  else
    match parse_steps overlapped (atoi count) (Z.to_nat (atoi count)) 0 rest [] [] with
    | Rejected reply => Some (h, reply)
    | LoopDone => Some (h, sendError "Missing END marker")
    | Parsed electrodeIds durations =>
      match executeSequence h (atoi reps) (atoi delay) (atoi count)
                            electrodeIds durations with
      | None => None
      | Some (h1, tr) => Some (h1, tr ++ sendOK)
      end
    end.
Proof.
  intros Hreps Hdelay Hcount.
  set (l2 := count +++ "|" +++ rest).
  set (l1 := delay +++ "|" +++ l2).
  set (l0 := reps +++ "|" +++ l1).
  assert (E0 : atoi l0 = atoi reps) by apply atoi_pipe.
  assert (E1 : atoi l1 = atoi delay) by apply atoi_pipe.
  assert (E2 : atoi l2 = atoi count) by apply atoi_pipe.
  assert (S0 : strchr l0 "|" = Some (String "|" l1))
    by apply (strchr_skip reps "|" _ Hreps).
  assert (S1 : strchr l1 "|" = Some (String "|" l2))
    by apply (strchr_skip delay "|" _ Hdelay).
  assert (S2 : strchr l2 "|" = Some (String "|" rest))
    by apply (strchr_skip count "|" _ Hcount).
  unfold parseElectrodeCommand.
  change (starts_with "START|" ("START|" +++ l0)) with true.
  change (drop 6 ("START|" +++ l0)) with l0.
  cbv zeta. cbn [negb].
  rewrite !E0, S0. cbn [ArrayDriver.tail_string].
  rewrite !E1, S1. cbn [ArrayDriver.tail_string].
  rewrite !E2, S2. cbn [ArrayDriver.tail_string].
  reflexivity.
Qed.

(** A line made of fields that has one of the defects is answered by one
    reply that begins with [ERROR:], and by nothing else. *)
Lemma start_defect_rejected h reps delay count body tail :
  (forall m, starts_with "ERROR: " (overlapped m) = true) ->
  field reps -> field delay -> field count -> Forall step_fields body ->
  atoi reps < 1 \/ atoi reps > 1000
  \/ atoi count < 1 \/ atoi count > 256
  \/ Exists bad_step body
  \/ bad_end (atoi count) body tail ->
  exists reply,
    parseElectrodeCommand overlapped h (start_line reps delay count body tail)
    = Some (h, [Transmit reply])
    /\ starts_with "ERROR: " reply = true.
Proof.
  intros Hov Hreps Hdelay Hcount Hbody Hbad.
  unfold start_line. rewrite parse_header by assumption.
  destruct (Z.ltb_spec (atoi reps) 1);
    [eexists; split; reflexivity|].
  destruct (Z.gtb_spec (atoi reps) 1000);
    [eexists; split; reflexivity|].
  cbn [orb].
  destruct (Z.ltb_spec (atoi delay) 0);
    [eexists; split; reflexivity|].
  unfold MAX_STEPS.
  destruct (Z.ltb_spec (atoi count) 1);
    [eexists; split; [reflexivity | apply Hov]|].
  destruct (Z.gtb_spec (atoi count) 256);
    [eexists; split; [reflexivity | apply Hov]|].
  cbn [orb].
  assert (Hsteps : Exists bad_step body
                   \/ bad_end (Z.of_nat (Z.to_nat (atoi count))) body tail).
  { rewrite Z2Nat.id by lia.
    destruct Hbad as [?|[?|[?|[?|[?|?]]]]]; try lia; auto. }
  pose proof (parse_steps_rejects tail Hov body (atoi count) (Z.to_nat (atoi count))
                0 [] [] Hbody ltac:(lia) Hsteps) as Hres.
  destruct (parse_steps overlapped (atoi count) (Z.to_nat (atoi count)) 0
                        (steps_text body tail) [] []).
  - destruct Hres as [txt [Htxt Herr]]; subst; eauto.
  - contradiction.
  - eexists; split; reflexivity.
Qed.

(** What the step loop can end with, whatever the text it reads: one reply,
    the end of the loop, or as many electrodes in [1,140] and durations that
    are not negative as were announced.  [P] is any property the replies
    have. *)
Lemma parse_steps_outcome_gen (P : string -> Prop) :
  (forall m, P (overlapped m)) ->
  (forall msg, P (format ("ERROR: " +++ msg +++ nl))) ->
  forall n numSteps i ptr ids durs,
    match parse_steps overlapped numSteps n i ptr ids durs with
    | Rejected reply => exists txt, reply = [Transmit txt] /\ P txt
    | LoopDone => True
    | Parsed ids' durs' =>
      exists nids ndurs,
        ids' = ids ++ nids /\ durs' = durs ++ ndurs
        /\ List.length ndurs = List.length nids
        /\ Z.of_nat (List.length nids) = numSteps - i
        /\ Forall (fun id => 1 <= id <= 140) nids
        /\ Forall (fun dur => 0 <= dur <= INT_MAX) ndurs
    end.
Proof.
  intros Hov Herr; induction n as [|n IH]; intros numSteps i ptr ids durs;
    cbn [parse_steps]; [exact I|].
  assert (Ho : forall msg, exists txt,
               sendError_responseBuffer overlapped msg = [Transmit txt] /\ P txt)
    by (intros msg; eexists; split; [reflexivity | apply Hov]).
  assert (He : forall msg, exists txt, sendError msg = [Transmit txt] /\ P txt)
    by (intros msg; eexists; split; [reflexivity | apply Herr]).
  destruct (Z.ltb_spec (atoi ptr) 1); [apply Ho|].
  destruct (Z.gtb_spec (atoi ptr) 140); [apply Ho|].
  cbn [orb].
  destruct (strchr ptr ",") as [comma|]; [|apply He].
  destruct (Z.ltb_spec (atoi (ArrayDriver.tail_string comma)) 0); [apply Ho|].
  destruct (strchr (ArrayDriver.tail_string comma) "|") as [pipe|]; [|apply He].
  destruct (starts_with "END" (ArrayDriver.tail_string pipe)).
  - destruct (Z.eqb_spec (i + 1) numSteps); [|apply He].
    exists [atoi ptr], [atoi (ArrayDriver.tail_string comma)].
    pose proof (atoi_range (ArrayDriver.tail_string comma)).
    repeat split; auto; cbn [List.length]; try lia.
    repeat constructor; lia.
  - specialize (IH numSteps (i + 1) (ArrayDriver.tail_string pipe)
                   (ids ++ [atoi ptr])
                   (durs ++ [atoi (ArrayDriver.tail_string comma)])).
    destruct (parse_steps overlapped numSteps n (i + 1) (ArrayDriver.tail_string pipe)
                          (ids ++ [atoi ptr])
                          (durs ++ [atoi (ArrayDriver.tail_string comma)]));
      auto.
    destruct IH as [nids [ndurs [-> [-> [Hl [Hn [Hi Hd]]]]]]].
    exists (atoi ptr :: nids), (atoi (ArrayDriver.tail_string comma) :: ndurs).
    pose proof (atoi_range (ArrayDriver.tail_string comma)).
    rewrite <- !app_assoc. repeat split; auto; cbn [List.length]; try lia.
    constructor; auto; lia.
Qed.

Lemma parse_steps_outcome :
  (forall m, starts_with "ERROR: " (overlapped m) = true) ->
  forall n numSteps i ptr ids durs,
    match parse_steps overlapped numSteps n i ptr ids durs with
    | Rejected reply =>
      exists txt, reply = [Transmit txt] /\ starts_with "ERROR: " txt = true
    | LoopDone => True
    | Parsed ids' durs' =>
      exists nids ndurs,
        ids' = ids ++ nids /\ durs' = durs ++ ndurs
        /\ List.length ndurs = List.length nids
        /\ Z.of_nat (List.length nids) = numSteps - i
        /\ Forall (fun id => 1 <= id <= 140) nids
        /\ Forall (fun dur => 0 <= dur <= INT_MAX) ndurs
    end.
Proof.
  intros Hov.
  apply (parse_steps_outcome_gen (fun txt => starts_with "ERROR: " txt = true));
    [exact Hov | reflexivity].
Qed.

(** Whatever the line, [parseElectrodeCommand] either answers with one reply
    that begins with [ERROR:] and changes nothing, or has checked every
    number it read before it calls [executeSequence]. *)
Lemma start_runs_only_validated h cmd h' tr :
  (forall m, starts_with "ERROR: " (overlapped m) = true) ->
  parseElectrodeCommand overlapped h cmd = Some (h', tr) ->
  (exists reply, tr = [Transmit reply] /\ starts_with "ERROR: " reply = true /\ h' = h)
  \/ (exists reps delay ids durs tr0,
        1 <= reps <= 1000 /\ 0 <= delay
        /\ (1 <= List.length ids <= 256)%nat
        /\ List.length durs = List.length ids
        /\ Forall (fun id => 1 <= id <= 140) ids
        /\ Forall (fun dur => 0 <= dur) durs
        /\ executeSequence h reps delay (Z.of_nat (List.length ids)) ids durs
           = Some (h', tr0)
        /\ tr = tr0 ++ sendOK).
Proof.
  intros Hov H. unfold parseElectrodeCommand in H.
  assert (Hrej : forall reply,
            (exists txt, reply = [Transmit txt] /\ starts_with "ERROR: " txt = true) ->
            Some (h, reply) = Some (h', tr) ->
            exists txt, tr = [Transmit txt] /\ starts_with "ERROR: " txt = true /\ h' = h).
  { intros reply [txt [-> Htxt]] E; inversion E; subst; eauto. }
  destruct (negb (starts_with "START|" cmd));
    [left; apply (Hrej _ (sendError_is_error _) H)|].
  cbv zeta in H.
  destruct (Z.ltb_spec (atoi (drop 6 cmd)) 1);
    [left; apply (Hrej _ (sendError_is_error _) H)|].
  destruct (Z.gtb_spec (atoi (drop 6 cmd)) 1000);
    [left; apply (Hrej _ (sendError_is_error _) H)|].
  cbn [orb] in H.
  destruct (strchr (drop 6 cmd) "|") as [p1|];
    [|left; apply (Hrej _ (sendError_is_error _) H)].
  destruct (Z.ltb_spec (atoi (ArrayDriver.tail_string p1)) 0);
    [left; apply (Hrej _ (sendError_is_error _) H)|].
  destruct (strchr (ArrayDriver.tail_string p1) "|") as [p2|];
    [|left; apply (Hrej _ (sendError_is_error _) H)].
  unfold MAX_STEPS in H.
  destruct (Z.ltb_spec (atoi (ArrayDriver.tail_string p2)) 1);
    [left; apply (Hrej _ (overlapped_is_error _ Hov) H)|].
  destruct (Z.gtb_spec (atoi (ArrayDriver.tail_string p2)) 256);
    [left; apply (Hrej _ (overlapped_is_error _ Hov) H)|].
  cbn [orb] in H.
  destruct (strchr (ArrayDriver.tail_string p2) "|") as [p3|];
    [|left; apply (Hrej _ (sendError_is_error _) H)].
  pose proof (parse_steps_outcome Hov
                (Z.to_nat (atoi (ArrayDriver.tail_string p2)))
                (atoi (ArrayDriver.tail_string p2)) 0
                (ArrayDriver.tail_string p3) [] []) as Hout.
  destruct (parse_steps overlapped (atoi (ArrayDriver.tail_string p2))
                        (Z.to_nat (atoi (ArrayDriver.tail_string p2))) 0
                        (ArrayDriver.tail_string p3) [] [])
    as [reply | ids durs |].
  - left; apply (Hrej _ Hout H).
  - right. destruct Hout as [nids [ndurs [Ei [Ed [Hl [Hn [Hi Hd]]]]]]].
    cbn [app] in Ei, Ed; subst ids durs.
    destruct (executeSequence h (atoi (drop 6 cmd)) (atoi (ArrayDriver.tail_string p1))
                              (atoi (ArrayDriver.tail_string p2)) nids ndurs)
      as [[h1 tr1]|] eqn:Ex; [|discriminate].
    inversion H; subst; clear H.
    exists (atoi (drop 6 cmd)), (atoi (ArrayDriver.tail_string p1)), nids, ndurs, tr1.
    replace (Z.of_nat (List.length nids)) with (atoi (ArrayDriver.tail_string p2)) by lia.
    repeat split; auto; try lia.
    eapply Forall_impl; [|exact Hd]. cbn beta; intros; lia.
  - left; apply (Hrej _ (sendError_is_error _) H).
Qed.

Lemma strchr_app_none a b c : strchr a c = None -> strchr (a +++ b) c = strchr b c.
Proof.
  induction a as [|x a IH]; intros H; cbn [String.append strchr] in *; [reflexivity|].
  destruct (x =? c)%char; [discriminate | auto].
Qed.

(** The comma of a step is sought from the step to the end of the line: a
    step [f] without a comma takes the comma of what follows, and the text
    [g] between, fields and delimiters, is not read. *)
Lemma parse_steps_comma_past_field numSteps n i f g rest ids durs :
  strchr f "," = None -> strchr g "," = None ->
  parse_steps overlapped numSteps n i (f +++ "|" +++ g +++ "," +++ rest) ids durs
  = parse_steps overlapped numSteps n i (f +++ "," +++ rest) ids durs.
Proof.
  intros Hf Hg. destruct n as [|n]; [reflexivity|].
  cbn [parse_steps]. rewrite atoi_pipe, atoi_comma.
  destruct ((atoi f <? 1) || (atoi f >? 140)); [reflexivity|].
  rewrite (strchr_app_none f _ "," Hf).
  change ("|" +++ g +++ "," +++ rest) with (String "|" (g +++ "," +++ rest)).
  cbn [strchr]. change ("|" =? ",")%char with false. cbv iota.
  change ("," +++ rest) with (String "," rest).
  rewrite (strchr_skip g "," rest Hg), (strchr_skip f "," rest Hf).
  reflexivity.
Qed.

Lemma start_comma_past_field h reps delay count f g rest :
  field reps -> field delay -> field count ->
  strchr f "," = None -> strchr g "," = None ->
  parseElectrodeCommand overlapped h
    ("START|" +++ reps +++ "|" +++ delay +++ "|" +++ count +++ "|"
       +++ f +++ "|" +++ g +++ "," +++ rest)
  = parseElectrodeCommand overlapped h
      ("START|" +++ reps +++ "|" +++ delay +++ "|" +++ count +++ "|"
         +++ f +++ "," +++ rest).
Proof.
  intros Hr Hd Hc Hf Hg. rewrite !parse_header by assumption.
  now rewrite parse_steps_comma_past_field.
Qed.

End StartParsing.

(** ** Running a parsed START *)

Section StartRunning.

Import CStr UartCommandHandler Wire.

Variable overlapped : string -> string.

Lemma nth_error_upd {A : Type} (l : list A) (i j : nat) (x : A) :
  nth_error (upd l i x) j =
  if (i =? j)%nat && (i <? List.length l)%nat then Some x else nth_error l j.
Proof.
  revert i j; induction l as [|a l IH]; intros i j.
  - destruct i, j; simpl; rewrite ?andb_false_r; auto.
  - destruct i, j; simpl; auto.
Qed.

(** The step loop accepts a list of good steps that END follows. *)
Lemma parse_steps_accepts tail :
  starts_with "END" tail = true ->
  forall body numSteps i ids durs,
    Forall step_fields body -> Forall good_step body -> body <> [] ->
    numSteps = i + Z.of_nat (List.length body) ->
    parse_steps overlapped numSteps (List.length body) i (steps_text body tail) ids durs
    = Parsed (ids ++ map (fun st => atoi (fst st)) body)
             (durs ++ map (fun st => atoi (snd st)) body).
Proof.
  intros Hend; induction body as [|[id dur] body IH];
    intros numSteps i ids durs Hfields Hgood Hne Hn; [congruence|].
  inversion Hfields as [|? ? [Hid Hdur] Hfields']; subst.
  inversion Hgood as [|? ? [Hidr Hdurr] Hgood']; subst.
  cbn [fst snd] in *.
  cbn [steps_text fold_right List.length map].
  rewrite parse_steps_step by assumption.
  destruct (Z.ltb_spec (atoi id) 1); [lia|].
  destruct (Z.gtb_spec (atoi id) 140); [lia|].
  cbn [orb].
  destruct (Z.ltb_spec (atoi dur) 0); [lia|].
  fold (steps_text body tail).
  destruct body as [|[id2 dur2] body].
  - cbn [steps_text fold_right]. rewrite Hend.
    cbn [List.length]. rewrite (proj2 (Z.eqb_eq _ _)) by lia.
    reflexivity.
  - assert (E : starts_with "END" (steps_text ((id2, dur2) :: body) tail) = false).
    { inversion Hfields' as [|? ? [[_ [Hc He]] _] _]; subst.
      cbn [steps_text fold_right]. unfold step_text; cbn [fst snd] in *.
      rewrite !append_assoc3. now apply id_field_not_END. }
    rewrite E.
    rewrite IH; auto; try congruence.
    + now rewrite <- !app_assoc.
    + cbn [List.length] in *. lia.
Qed.

(** The loop that builds the steps succeeds on electrodes in [1,140]. *)
Lemma build_steps_ok d ids durs :
  Forall (fun id => 1 <= id <= 140) ids ->
  List.length durs = List.length ids ->
  forall k i arr,
    (i + k = List.length ids)%nat -> (List.length ids <= List.length arr)%nat ->
    exists arr',
      build_steps d ids durs k i arr = Some (true, arr')
      /\ List.length arr' = List.length arr
      /\ forall j, nth_error arr' j =
                   if (i <=? j)%nat && (j <? i + k)%nat
                   then option_map (built d) (nth_error (combine ids durs) j)
                   else nth_error arr j.
Proof.
  intros Hids Hlen; induction k as [|k IH]; intros i arr Hik Harr.
  - exists arr; repeat split. intros j.
    destruct (Nat.leb_spec i j), (Nat.ltb_spec j (i + 0)); simpl; auto; lia.
  - cbn [build_steps].
    destruct (nth_error ids i) as [id|] eqn:Eid;
      [|apply nth_error_None in Eid; lia].
    destruct (nth_error durs i) as [dur|] eqn:Edur;
      [|apply nth_error_None in Edur; lia].
    destruct (nth_error arr i) as [old|] eqn:Earr;
      [|apply nth_error_None in Earr; lia].
    assert (Hid : 1 <= id <= 140).
    { rewrite Forall_forall in Hids; eapply Hids, nth_error_In; eauto. }
    assert (Hu8 : u8 id = id) by (unfold u8; apply Z.mod_small; lia).
    unfold ArrayDriver.getRowColFromElectrode, ArrayDriver.NUM_ELECTRODES.
    rewrite Hu8.
    destruct (Z.ltb_spec id 1); [lia|]. destruct (Z.gtb_spec id 140); [lia|].
    cbn [orb].
    destruct (IH (S i) (upd arr i
                {| ArrayDriver.row :=
                     ArrayDriver.map_row
                       (nth (Z.to_nat (id - 1)) (ArrayDriver.electrodeMap d)
                            {| ArrayDriver.map_row := 0; ArrayDriver.map_col := 0 |});
                   ArrayDriver.col :=
                     ArrayDriver.map_col
                       (nth (Z.to_nat (id - 1)) (ArrayDriver.electrodeMap d)
                            {| ArrayDriver.map_row := 0; ArrayDriver.map_col := 0 |});
                   ArrayDriver.state := true;
                   ArrayDriver.duration_ms := u32 dur |}))
      as [arr' [Hb [Hl Hnth]]]; [lia | rewrite upd_length; lia |].
    exists arr'; split; [exact Hb|]. split; [now rewrite Hl, upd_length|].
    intros j. rewrite Hnth, nth_error_upd.
    destruct (Nat.eqb_spec i j) as [<-|Hne].
    + replace (S i <=? i)%nat with false by (symmetry; apply Nat.leb_gt; lia).
      replace (i <=? i)%nat with true by (symmetry; apply Nat.leb_le; lia).
      replace (i <? i + S k)%nat with true by (symmetry; apply Nat.ltb_lt; lia).
      replace (i <? List.length arr)%nat with true by (symmetry; apply Nat.ltb_lt; lia).
      cbn [andb].
      assert (Ec : nth_error (combine ids durs) i = Some (id, dur)).
      { clear - Eid Edur. revert i durs Eid Edur.
        induction ids as [|a ids IHi]; intros [|i] [|b durs] E1 E2;
          simpl in *; try discriminate; auto. congruence. }
      rewrite Ec; cbn [option_map]. unfold built; cbn [fst snd].
      unfold ArrayDriver.getRowColFromElectrode, ArrayDriver.NUM_ELECTRODES.
      rewrite Hu8.
      destruct (Z.ltb_spec id 1); [lia|]. destruct (Z.gtb_spec id 140); [lia|].
      reflexivity.
    + cbn [andb].
      destruct (Nat.leb_spec (S i) j), (Nat.leb_spec i j),
               (Nat.ltb_spec j (S i + k)), (Nat.ltb_spec j (i + S k));
        cbn [andb]; auto; lia.
Qed.

Lemma build_steps_prefix d ids durs arr :
  Forall (fun id => 1 <= id <= 140) ids ->
  List.length durs = List.length ids ->
  (List.length ids <= List.length arr)%nat ->
  exists arr',
    build_steps d ids durs (List.length ids) 0 arr = Some (true, arr')
    /\ List.length arr' = List.length arr
    /\ arr' = map (built d) (combine ids durs) ++ skipn (List.length ids) arr'.
Proof.
  intros Hids Hlen Harr.
  destruct (build_steps_ok d ids durs Hids Hlen (List.length ids) 0 arr)
    as [arr' [Hb [Hl Hnth]]]; [lia | lia |].
  exists arr'; repeat split; auto.
  rewrite <- (firstn_skipn (List.length ids) arr') at 1. f_equal.
  apply nth_error_ext; intros j.
  rewrite nth_error_firstn, nth_error_map, Hnth. cbn [Nat.leb andb Nat.add].
  destruct (Nat.ltb_spec j (List.length ids)); auto.
  symmetry. replace (nth_error (combine ids durs) j) with (@None (Z * Z)); auto.
  symmetry; apply nth_error_None. rewrite length_combine. lia.
Qed.

Lemma setElectrode_events d row col state :
  snd (ArrayDriver.setElectrode d row col state) =
  if (row >=? 10) || (col >=? 14) then []
  else ArrayDriver.setRowColAtomic row col state.
Proof.
  unfold ArrayDriver.setElectrode, ArrayDriver.NUM_ROWS, ArrayDriver.NUM_COLS.
  now destruct ((row >=? 10) || (col >=? 14)).
Qed.

(** The inner loop over the steps [ss] of an array. *)
Lemma run_steps_events ss post :
  forall pre d,
  exists d',
    ArrayDriver.run_steps (pre ++ ss ++ post) (List.length ss) (List.length pre) d
    = Some (d', flat_map step_run ss).
Proof.
  induction ss as [|s ss IH]; intros pre d; cbn [List.length ArrayDriver.run_steps].
  - now exists d.
  - rewrite nth_error_app2, Nat.sub_diag by lia. cbn [nth_error app].
    destruct (ArrayDriver.setElectrode d (ArrayDriver.row s) (ArrayDriver.col s)
                                       (ArrayDriver.state s)) as [d1 tr1] eqn:E.
    pose proof (setElectrode_events d (ArrayDriver.row s) (ArrayDriver.col s)
                                    (ArrayDriver.state s)) as Hev.
    rewrite E in Hev; cbn [snd] in Hev.
    destruct (IH (pre ++ [s]) d1) as [d2 Hd2].
    rewrite <- app_assoc, length_app in Hd2. cbn [app List.length] in Hd2.
    rewrite Nat.add_1_r in Hd2. rewrite Hd2.
    exists d2. cbn [flat_map]. unfold step_run. rewrite Hev, <- app_assoc.
    reflexivity.
Qed.

(** The outer loop: [k + 1] cycles are left, the last of them without a gap. *)
Lemma run_cycles_events s ss post :
  ArrayDriver.numSteps s = Z.of_nat (List.length ss) ->
  1 <= ArrayDriver.cycleCount s < 4294967296 ->
  forall k cycle d,
    0 <= cycle -> cycle + Z.of_nat k + 1 = ArrayDriver.cycleCount s ->
    exists d',
      ArrayDriver.run_cycles s (ss ++ post) (S k) cycle d
      = Some (d', List.concat (repeat (flat_map step_run ss
                                         ++ [Delay (ArrayDriver.cycleDelay_ms s)]) k)
                    ++ flat_map step_run ss).
Proof.
  intros Hn Hcc.
  assert (Hu : u32 (ArrayDriver.cycleCount s - 1) = ArrayDriver.cycleCount s - 1)
    by (unfold u32; apply Z.mod_small; lia).
  induction k as [|k IH]; intros cycle d Hc Hk.
  - cbn [ArrayDriver.run_cycles]. rewrite Hn, Nat2Z.id.
    destruct (run_steps_events ss post [] d) as [d1 Hd1].
    cbn [app List.length] in Hd1. rewrite Hd1, Hu.
    destruct (Z.ltb_spec cycle (ArrayDriver.cycleCount s - 1)); [lia|].
    exists d1. cbn [repeat List.concat app]. now rewrite app_nil_r.
  - remember (S k) as k1. cbn [ArrayDriver.run_cycles]. subst k1.
    rewrite Hn, Nat2Z.id.
    destruct (run_steps_events ss post [] d) as [d1 Hd1].
    cbn [app List.length] in Hd1. rewrite Hd1, Hu.
    destruct (Z.ltb_spec cycle (ArrayDriver.cycleCount s - 1)); [|lia].
    destruct (IH (cycle + 1) d1) as [d2 Hd2]; [lia | lia |].
    rewrite Hd2. exists d2. cbn [repeat List.concat].
    now rewrite <- !app_assoc.
Qed.

Lemma combine_map_fst_snd {A B : Type} (l : list (A * B)) :
  combine (map fst l) (map snd l) = l.
Proof. induction l as [|[a b] l IH]; simpl; congruence. Qed.

Lemma step_run_built d st :
  1 <= fst st <= 140 -> 0 <= snd st <= INT_MAX ->
  step_run (built d st) = step_events d st.
Proof.
  intros Hid Hdur. unfold step_run, built, step_events.
  assert (Hu8 : u8 (fst st) = fst st) by (unfold u8; apply Z.mod_small; lia).
  assert (Hu32 : u32 (snd st) = snd st)
    by (unfold u32; apply Z.mod_small; unfold INT_MAX in Hdur; lia).
  rewrite Hu8.
  destruct (ArrayDriver.getRowColFromElectrode d (fst st) 0 0) as [[ok row] col].
  cbn [ArrayDriver.row ArrayDriver.col ArrayDriver.state ArrayDriver.duration_ms].
  now rewrite setElectrode_events, Hu32.
Qed.

Lemma flat_map_built d steps :
  Forall (fun st => 1 <= fst st <= 140 /\ 0 <= snd st <= INT_MAX) steps ->
  flat_map step_run (map (built d) steps) = cycle_events d steps.
Proof.
  unfold cycle_events; induction 1 as [|st steps [Hid Hdur] _ IH]; cbn [map flat_map].
  - reflexivity.
  - now rewrite IH, step_run_built.
Qed.

(** The handler's [executeSequence] on validated numbers. *)
Lemma executeSequence_events h reps delay steps :
  List.length (sequenceSteps h) = 256%nat ->
  1 <= reps <= 1000 -> 0 <= delay <= INT_MAX ->
  (1 <= List.length steps <= 256)%nat ->
  Forall (fun st => 1 <= fst st <= 140 /\ 0 <= snd st <= INT_MAX) steps ->
  exists h',
    executeSequence h reps delay (Z.of_nat (List.length steps))
                    (map fst steps) (map snd steps)
    = Some (h', sendResponse ("Executing sequence..." +++ nl)
                  ++ blocking_events (arrayDriver h) reps delay steps
                  ++ sendResponse ("Sequence complete" +++ nl)).
Proof.
  intros Harr Hreps Hdelay Hlen Hsteps.
  unfold executeSequence. rewrite Nat2Z.id.
  destruct (build_steps_prefix (arrayDriver h) (map fst steps) (map snd steps)
                               (sequenceSteps h)) as [arr' [Hb [Hl Hpre]]].
  { rewrite Forall_forall in *; intros id Hin.
    apply in_map_iff in Hin; destruct Hin as [st [<- Hin]]. now apply Hsteps. }
  { now rewrite !length_map. }
  { rewrite length_map; lia. }
  rewrite length_map in Hb, Hpre. rewrite combine_map_fst_snd in Hpre.
  rewrite Hb.
  assert (Hu16 : u16 (Z.of_nat (List.length steps)) = Z.of_nat (List.length steps))
    by (unfold u16; apply Z.mod_small; lia).
  assert (Hur : u32 reps = reps) by (unfold u32; apply Z.mod_small; lia).
  assert (Hud : u32 delay = delay)
    by (unfold u32; apply Z.mod_small; unfold INT_MAX in Hdelay; lia).
  cbn [ArrayDriver.executeSequence deref with_sequence sequenceSteps currentSequence
       arrayDriver ArrayDriver.steps ArrayDriver.cycleCount numSteps cycleCount
       cycleDelay_ms].
  rewrite Hu16, Hur, Hud. unfold deref.
  cbn [with_sequence sequenceSteps currentSequence numSteps cycleCount cycleDelay_ms].
  set (s := {| ArrayDriver.steps := Some arr';
               ArrayDriver.numSteps := Z.of_nat (List.length steps);
               ArrayDriver.cycleCount := reps;
               ArrayDriver.cycleDelay_ms := delay |}).
  destruct (run_cycles_events s (map (built (arrayDriver h)) steps)
                              (skipn (List.length steps) arr'))
    with (k := Z.to_nat (reps - 1)) (cycle := 0) (d := arrayDriver h)
    as [d' Hd'].
  { now rewrite length_map. }
  { cbn; lia. }
  { lia. }
  { cbn; lia. }
  rewrite <- Hpre in Hd'.
  replace (Z.to_nat reps) with (S (Z.to_nat (reps - 1))) by lia.
  rewrite Hd'.
  eexists. unfold blocking_events. rewrite flat_map_built by assumption.
  reflexivity.
Qed.

(** C5. A valid START line (repetitions in [1,1000], delay not negative,
    1 to 256 steps, as many steps as announced, each with an electrode in
    [1,140] and a duration that is not negative, END after the last step)
    runs the sequence to its end before it answers: exactly [reps] cycles; in
    each cycle every step, in the order of the line, writes its electrode and
    then waits its duration; the inter-cycle delay is waited between two
    cycles and not after the last; the last reply is OK. *)
Theorem start_valid_runs_blocking h reps delay count body tail :
  List.length (sequenceSteps h) = 256%nat ->
  field reps -> field delay -> field count -> Forall step_fields body ->
  1 <= atoi reps <= 1000 -> 0 <= atoi delay -> 1 <= atoi count <= 256 ->
  Z.of_nat (List.length body) = atoi count -> Forall good_step body ->
  starts_with "END" tail = true ->
  exists h',
    parseElectrodeCommand overlapped h (start_line reps delay count body tail)
    = Some (h', [Transmit ("Executing sequence..." +++ nl)]
                  ++ blocking_events (arrayDriver h) (atoi reps) (atoi delay)
                                     (map step_values body)
                  ++ [Transmit ("Sequence complete" +++ nl); Transmit ("OK" +++ nl)]).
Proof.
  intros Harr Hreps Hdelay Hcount Hfields Hr Hd Hc Hlen Hgood Hend.
  unfold start_line. rewrite parse_header by assumption.
  destruct (Z.ltb_spec (atoi reps) 1); [lia|].
  destruct (Z.gtb_spec (atoi reps) 1000); [lia|].
  destruct (Z.ltb_spec (atoi delay) 0); [lia|].
  unfold MAX_STEPS.
  destruct (Z.ltb_spec (atoi count) 1); [lia|].
  destruct (Z.gtb_spec (atoi count) 256); [lia|].
  cbn [orb].
  replace (Z.to_nat (atoi count)) with (List.length body) by lia.
  assert (Hp : parse_steps overlapped (atoi count) (List.length body) 0
                           (steps_text body tail) [] []
               = Parsed ([] ++ map (fun st => atoi (fst st)) body)
                        ([] ++ map (fun st => atoi (snd st)) body)).
  { apply parse_steps_accepts; auto;
      first [lia | intros ->; cbn in Hlen; lia]. }
  rewrite Hp. cbn [app].
  destruct (executeSequence_events h (atoi reps) (atoi delay) (map step_values body))
    as [h' Hh']; auto.
  - pose proof (atoi_range delay); lia.
  - rewrite length_map; lia.
  - rewrite Forall_forall in *; intros st Hin.
    apply in_map_iff in Hin; destruct Hin as [st0 [<- Hin]].
    destruct (Hgood st0 Hin) as [? ?]. unfold step_values; cbn [fst snd].
    pose proof (atoi_range (snd st0)); lia.
  - rewrite length_map, !map_map in Hh'. cbn [step_values fst snd] in Hh'.
    rewrite Hlen in Hh'. rewrite Hh'.
    exists h'. unfold sendResponse, sendOK. now rewrite <- !app_assoc.
Qed.

(** Every entry of the step array after the loop is the entry as it was or
    a step with state [true], and the entries of a loop that succeeded are
    all of the second kind. *)
Lemma build_steps_frame d ids durs :
  forall k i arr ok arr',
    build_steps d ids durs k i arr = Some (ok, arr') ->
    (forall j s, nth_error arr' j = Some s ->
                 nth_error arr j = Some s \/ ArrayDriver.state s = true)
    /\ (ok = true ->
        forall j s, (i <= j < i + k)%nat -> nth_error arr' j = Some s ->
                    ArrayDriver.state s = true).
Proof.
  induction k as [|k IH]; intros i arr ok arr' H; cbn [build_steps] in H.
  - inversion H; subst. split; [auto | intros _ j s Hj; lia].
  - destruct (nth_error ids i) as [id|]; [|discriminate].
    destruct (nth_error durs i) as [dur|]; [|discriminate].
    destruct (nth_error arr i) as [old|] eqn:Eold; [|discriminate].
    destruct (ArrayDriver.getRowColFromElectrode d (u8 id) 0 0) as [[b row] col].
    destruct b.
    + apply IH in H. destruct H as [Hframe Hbuilt].
      assert (Hi : (i < List.length arr)%nat)
        by (apply nth_error_Some; congruence).
      assert (Hframe' : forall j s, nth_error arr' j = Some s ->
                nth_error arr j = Some s \/ ArrayDriver.state s = true).
      { intros j s Hs. destruct (Hframe j s Hs) as [Hu | ?]; auto.
        rewrite nth_error_upd in Hu.
        destruct ((i =? j)%nat && (i <? List.length arr)%nat); auto.
        inversion Hu; subst; auto. }
      split; auto.
      intros Hok j s Hj Hs.
      destruct (Nat.eq_dec j i) as [->|Hne]; [|apply (Hbuilt Hok j); auto; lia].
      destruct (Hframe i s Hs) as [Hu | ?]; auto.
      rewrite nth_error_upd, Nat.eqb_refl in Hu.
      replace (i <? List.length arr)%nat with true in Hu
        by (symmetry; apply Nat.ltb_lt; lia).
      inversion Hu; subst; auto.
    + inversion H; subst. split; [auto | discriminate].
Qed.

Lemma run_steps_energizes arr :
  forall k i d d' tr,
    ArrayDriver.run_steps arr k i d = Some (d', tr) ->
    (forall j s, (i <= j < i + k)%nat -> nth_error arr j = Some s ->
                 ArrayDriver.state s = true) ->
    Forall energizes tr.
Proof.
  induction k as [|k IH]; intros i d d' tr H Hall; cbn [ArrayDriver.run_steps] in H.
  - inversion H; constructor.
  - destruct (nth_error arr i) as [s|] eqn:Es; [|discriminate].
    pose proof (setElectrode_events d (ArrayDriver.row s) (ArrayDriver.col s)
                                    (ArrayDriver.state s)) as Hev.
    destruct (ArrayDriver.setElectrode d (ArrayDriver.row s) (ArrayDriver.col s)
                                       (ArrayDriver.state s)) as [d1 tr1].
    cbn [snd] in Hev.
    destruct (ArrayDriver.run_steps arr k (S i) d1) as [[d2 tr2]|] eqn:E2;
      [|discriminate].
    inversion H; subst. apply Forall_app; split.
    + rewrite (Hall i s) by (auto; lia).
      destruct ((ArrayDriver.row s >=? 10) || (ArrayDriver.col s >=? 14));
        repeat constructor.
    + constructor; [exact I|]. eapply IH; eauto. intros j s0 Hj; apply Hall; lia.
Qed.

Lemma run_cycles_energizes s arr :
  (forall j s0, (j < Z.to_nat (ArrayDriver.numSteps s))%nat ->
                nth_error arr j = Some s0 -> ArrayDriver.state s0 = true) ->
  forall n cycle d d' tr,
    ArrayDriver.run_cycles s arr n cycle d = Some (d', tr) -> Forall energizes tr.
Proof.
  intros Hall; induction n as [|n IH]; intros cycle d d' tr H;
    cbn [ArrayDriver.run_cycles] in H.
  - inversion H; constructor.
  - destruct (ArrayDriver.run_steps arr (Z.to_nat (ArrayDriver.numSteps s)) 0 d)
      as [[d1 tr1]|] eqn:E1; [|discriminate].
    destruct (ArrayDriver.run_cycles s arr n (cycle + 1) d1) as [[d2 tr2]|] eqn:E2;
      [|discriminate].
    inversion H; subst. apply Forall_app; split.
    + eapply run_steps_energizes; eauto. intros j s0 Hj; apply Hall; lia.
    + apply Forall_app; split; [|eapply IH; eauto].
      destruct (cycle <? u32 (ArrayDriver.cycleCount s - 1)); repeat constructor.
Qed.

(** With electrodes in [1,140] no resolution fails. *)
Lemma build_steps_validated d ids durs :
  Forall (fun id => 1 <= id <= 140) ids ->
  forall k i arr ok arr',
    build_steps d ids durs k i arr = Some (ok, arr') -> ok = true.
Proof.
  intros Hids; induction k as [|k IH]; intros i arr ok arr' H; cbn [build_steps] in H.
  - now inversion H.
  - destruct (nth_error ids i) as [id|] eqn:Eid; [|discriminate].
    destruct (nth_error durs i) as [dur|]; [|discriminate].
    destruct (nth_error arr i) as [old|]; [|discriminate].
    assert (Hid : 1 <= id <= 140).
    { rewrite Forall_forall in Hids; eapply Hids, nth_error_In; eauto. }
    unfold ArrayDriver.getRowColFromElectrode, ArrayDriver.NUM_ELECTRODES in H.
    replace (u8 id) with id in H by (unfold u8; symmetry; apply Z.mod_small; lia).
    destruct (Z.ltb_spec id 1); [lia|]. destruct (Z.gtb_spec id 140); [lia|].
    cbn [orb] in H. eapply IH; eauto.
Qed.

(** The handler's [executeSequence], called with the numbers its caller has
    checked. *)
Lemma executeSequence_switches_on h reps delay n ids durs h' tr :
  0 <= n <= 256 ->
  Forall (fun id => 1 <= id <= 140) ids ->
  executeSequence h reps delay n ids durs = Some (h', tr) ->
  Forall energizes tr
  /\ (forall j s, nth_error (sequenceSteps h') j = Some s ->
                  nth_error (sequenceSteps h) j = Some s \/ ArrayDriver.state s = true)
  /\ steps (currentSequence h') = SequenceSteps
  /\ forall j s, (j < Z.to_nat (numSteps (currentSequence h')))%nat ->
                 nth_error (sequenceSteps h') j = Some s ->
                 ArrayDriver.state s = true.
Proof.
  intros Hn Hids H. unfold executeSequence in H.
  destruct (build_steps (arrayDriver h) ids durs (Z.to_nat n) 0 (sequenceSteps h))
    as [[ok arr]|] eqn:Eb; [|discriminate].
  destruct (build_steps_frame _ _ _ _ _ _ _ _ Eb) as [Hframe Hbuilt].
  pose proof (build_steps_validated _ _ _ Hids _ _ _ _ _ Eb) as ->.
  assert (Hu16 : u16 n = n) by (unfold u16; apply Z.mod_small; lia).
  match type of H with
  | match ArrayDriver.executeSequence ?d ?s with _ => _ end = _ =>
    destruct (ArrayDriver.executeSequence d s) as [[d1 tr1]|] eqn:Ex;
      [|discriminate]
  end.
  inversion H; subst; clear H.
  cbn [ArrayDriver.executeSequence deref with_sequence sequenceSteps currentSequence
       ArrayDriver.steps] in Ex.
  assert (Hall : forall j s, (j < Z.to_nat n)%nat -> nth_error arr j = Some s ->
                             ArrayDriver.state s = true).
  { intros j s Hj; apply (Hbuilt eq_refl j s); lia. }
  split; [|split; [|split]].
  - constructor; [exact I|].
    apply Forall_app; split; [|repeat constructor].
    eapply run_cycles_energizes; [|exact Ex].
    unfold deref.
    cbn [ArrayDriver.numSteps numSteps with_sequence currentSequence].
    now rewrite Hu16.
  - exact Hframe.
  - reflexivity.
  - cbn [with_driver with_sequence currentSequence sequenceSteps steps numSteps].
    now rewrite Hu16.
Qed.

(** C9. Whatever the line, a START command switches electrodes on and never
    off: every line write it causes drives the row high and the column low;
    every entry of the step array afterwards is the entry as it was or a step
    whose state is [true]; and either the line was turned down with a single
    reply and the handler is as before, or the sequence given to the driver
    points to the handler's steps, all of them with state [true]. *)
Theorem start_only_switches_on h cmd h' tr :
  parseElectrodeCommand overlapped h cmd = Some (h', tr) ->
  Forall energizes tr
  /\ (forall j s, nth_error (sequenceSteps h') j = Some s ->
                  nth_error (sequenceSteps h) j = Some s \/ ArrayDriver.state s = true)
  /\ ((exists reply, tr = [Transmit reply] /\ h' = h)
      \/ (steps (currentSequence h') = SequenceSteps
          /\ forall j s, (j < Z.to_nat (numSteps (currentSequence h')))%nat ->
                         nth_error (sequenceSteps h') j = Some s ->
                         ArrayDriver.state s = true)).
Proof.
  intros H. unfold parseElectrodeCommand in H.
  assert (Hrej : forall reply, Some (h, [Transmit reply]) = Some (h', tr) ->
            Forall energizes tr
            /\ (forall j s, nth_error (sequenceSteps h') j = Some s ->
                  nth_error (sequenceSteps h) j = Some s \/ ArrayDriver.state s = true)
            /\ ((exists reply, tr = [Transmit reply] /\ h' = h)
                \/ (steps (currentSequence h') = SequenceSteps
                    /\ forall j s, (j < Z.to_nat (numSteps (currentSequence h')))%nat ->
                         nth_error (sequenceSteps h') j = Some s ->
                         ArrayDriver.state s = true))).
  { intros reply E; inversion E; subst. split; [repeat constructor|].
    split; [auto | left; eauto]. }
  destruct (negb (starts_with "START|" cmd)); [now apply (Hrej _ H)|].
  cbv zeta in H.
  destruct ((atoi (drop 6 cmd) <? 1) || (atoi (drop 6 cmd) >? 1000));
    [now apply (Hrej _ H)|].
  destruct (strchr (drop 6 cmd) "|") as [p1|]; [|now apply (Hrej _ H)].
  destruct (atoi (ArrayDriver.tail_string p1) <? 0); [now apply (Hrej _ H)|].
  destruct (strchr (ArrayDriver.tail_string p1) "|") as [p2|]; [|now apply (Hrej _ H)].
  destruct (Z.ltb_spec (atoi (ArrayDriver.tail_string p2)) 1); [now apply (Hrej _ H)|].
  unfold MAX_STEPS in H.
  destruct (Z.gtb_spec (atoi (ArrayDriver.tail_string p2)) 256); [now apply (Hrej _ H)|].
  cbn [orb] in H.
  destruct (strchr (ArrayDriver.tail_string p2) "|") as [p3|]; [|now apply (Hrej _ H)].
  pose proof (parse_steps_outcome_gen overlapped (fun _ => True)
                (fun _ => I) (fun _ => I)
                (Z.to_nat (atoi (ArrayDriver.tail_string p2)))
                (atoi (ArrayDriver.tail_string p2)) 0
                (ArrayDriver.tail_string p3) [] []) as Hout.
  destruct (parse_steps overlapped (atoi (ArrayDriver.tail_string p2))
                        (Z.to_nat (atoi (ArrayDriver.tail_string p2))) 0
                        (ArrayDriver.tail_string p3) [] [])
    as [reply | ids durs |].
  - destruct Hout as [txt [-> _]]. now apply (Hrej _ H).
  - destruct Hout as [nids [ndurs [Ei [Ed [_ [_ [Hi _]]]]]]].
    cbn [app] in Ei, Ed; subst ids durs.
    destruct (executeSequence h _ _ _ nids ndurs) as [[h1 tr1]|] eqn:Ex; [|discriminate].
    inversion H; subst; clear H.
    apply executeSequence_switches_on in Ex; [|lia|exact Hi].
    destruct Ex as [Hen [Hframe Hseq]].
    split; [|split]; auto.
    apply Forall_app; split; [auto | repeat constructor].
  - now apply (Hrej _ H).
Qed.

(** On every line [parseElectrodeCommand] returns: a handler whose step
    array has its 256 entries is never made to index past an array. *)
Lemma parseElectrodeCommand_returns h cmd :
  List.length (sequenceSteps h) = 256%nat ->
  exists h' tr, parseElectrodeCommand overlapped h cmd = Some (h', tr).
Proof.
  intros Harr. unfold parseElectrodeCommand.
  destruct (negb (starts_with "START|" cmd)); [do 2 eexists; reflexivity|].
  cbv zeta.
  destruct (Z.ltb_spec (atoi (drop 6 cmd)) 1); [do 2 eexists; reflexivity|].
  destruct (Z.gtb_spec (atoi (drop 6 cmd)) 1000); [do 2 eexists; reflexivity|].
  cbn [orb].
  destruct (strchr (drop 6 cmd) "|") as [p1|]; [|do 2 eexists; reflexivity].
  destruct (Z.ltb_spec (atoi (ArrayDriver.tail_string p1)) 0); [do 2 eexists; reflexivity|].
  destruct (strchr (ArrayDriver.tail_string p1) "|") as [p2|]; [|do 2 eexists; reflexivity].
  unfold MAX_STEPS.
  destruct (Z.ltb_spec (atoi (ArrayDriver.tail_string p2)) 1); [do 2 eexists; reflexivity|].
  destruct (Z.gtb_spec (atoi (ArrayDriver.tail_string p2)) 256); [do 2 eexists; reflexivity|].
  cbn [orb].
  destruct (strchr (ArrayDriver.tail_string p2) "|") as [p3|]; [|do 2 eexists; reflexivity].
  pose proof (parse_steps_outcome_gen overlapped (fun _ => True)
                (fun _ => I) (fun _ => I)
                (Z.to_nat (atoi (ArrayDriver.tail_string p2)))
                (atoi (ArrayDriver.tail_string p2)) 0
                (ArrayDriver.tail_string p3) [] []) as Hout.
  destruct (parse_steps overlapped (atoi (ArrayDriver.tail_string p2))
                        (Z.to_nat (atoi (ArrayDriver.tail_string p2))) 0
                        (ArrayDriver.tail_string p3) [] [])
    as [reply | ids durs |];
    [do 2 eexists; reflexivity | | do 2 eexists; reflexivity].
  destruct Hout as [nids [ndurs [Ei [Ed [Hl [Hn [Hi Hd]]]]]]].
  cbn [app] in Ei, Ed; subst ids durs.
  assert (Hf : map fst (combine nids ndurs) = nids /\ map snd (combine nids ndurs) = ndurs).
  { clear - Hl. revert ndurs Hl.
    induction nids as [|a nids IH]; intros [|b ndurs] Hl; try discriminate; auto.
    cbn [List.length] in Hl.
    destruct (IH ndurs) as [E1 E2]; [lia|]. cbn [combine map fst snd].
    now rewrite E1, E2. }
  destruct Hf as [Ef Es].
  destruct (executeSequence_events h (atoi (drop 6 cmd))
              (atoi (ArrayDriver.tail_string p1)) (combine nids ndurs))
    as [h1 Hh1].
  - exact Harr.
  - lia.
  - pose proof (atoi_range (ArrayDriver.tail_string p1)); lia.
  - rewrite length_combine, Hl, Nat.min_id. lia.
  - apply Forall_forall; intros [id dur] Hin. cbn [fst snd].
    rewrite Forall_forall in Hi, Hd.
    split; [apply Hi; eapply in_combine_l; eauto | apply Hd; eapply in_combine_r; eauto].
  - rewrite Ef, Es, length_combine, Hl, Nat.min_id in Hh1.
    replace (atoi (ArrayDriver.tail_string p2)) with (Z.of_nat (List.length nids)) by lia.
    rewrite Hh1. do 2 eexists; reflexivity.
Qed.

End StartRunning.

(** ** Examples of START *)

Section StartExamples.

Import CStr UartCommandHandler Wire.

(** C2 fails on the code.  The step loop has a test for a step without
    its comma, but looks for the comma with [strchr] from the step to the end
    of the line: a step without a comma takes the comma of a later field, and
    what lies between is never read.  START|1|0|2|5,10|7|0,20|END has a
    step with no comma and a step for electrode 0, START|1|0|1|5|999,10|END
    a step with no comma and one for electrode 999: both are accepted,
    electrodes are written and the handler answers OK.  The END marker is
    compared on its three letters, so ENDLESS ends a list too. *)
Theorem start_step_without_comma_is_run (overlapped : string -> string) :
  match parseCommand overlapped Demo.handler "START|1|0|2|5,10|7|0,20|END" with
  | Some (h', tr) =>
    tr = [Transmit ("Executing sequence..." +++ nl)]
           ++ ArrayDriver.setRowColAtomic 0 4 true ++ [Delay 10]
           ++ ArrayDriver.setRowColAtomic 0 6 true ++ [Delay 20]
           ++ [Transmit ("Sequence complete" +++ nl); Transmit ("OK" +++ nl)]
    /\ ArrayDriver.getElectrodeState (arrayDriver h') 0 4 = true
    /\ ArrayDriver.getElectrodeState (arrayDriver h') 0 6 = true
  | None => False
  end
  /\ match parseCommand overlapped Demo.handler "START|1|0|1|5|999,10|END" with
     | Some (h', tr) =>
       tr = [Transmit ("Executing sequence..." +++ nl)]
              ++ ArrayDriver.setRowColAtomic 0 4 true ++ [Delay 10]
              ++ [Transmit ("Sequence complete" +++ nl); Transmit ("OK" +++ nl)]
       /\ ArrayDriver.getElectrodeState (arrayDriver h') 0 4 = true
     | None => False
     end
  /\ match parseCommand overlapped Demo.handler "START|1|0|1|5,10|ENDLESS" with
     | Some (h', tr) =>
       tr = [Transmit ("Executing sequence..." +++ nl)]
              ++ ArrayDriver.setRowColAtomic 0 4 true ++ [Delay 10]
              ++ [Transmit ("Sequence complete" +++ nl); Transmit ("OK" +++ nl)]
     | None => False
     end.
Proof. vm_compute. repeat split. Qed.

Lemma start_valid_runs_blocking_witness :
  exists h',
    parseElectrodeCommand Demo.overlapped Demo.handler "START|3|50|2|1,10|2,20|END"
    = Some (h',
            [Transmit ("Executing sequence..." +++ nl);
             IrqDisable; RowLine 0 true; ColLine 0 false; IrqEnable; Delay 10;
             IrqDisable; RowLine 0 true; ColLine 1 false; IrqEnable; Delay 20;
             Delay 50;
             IrqDisable; RowLine 0 true; ColLine 0 false; IrqEnable; Delay 10;
             IrqDisable; RowLine 0 true; ColLine 1 false; IrqEnable; Delay 20;
             Delay 50;
             IrqDisable; RowLine 0 true; ColLine 0 false; IrqEnable; Delay 10;
             IrqDisable; RowLine 0 true; ColLine 1 false; IrqEnable; Delay 20;
             Transmit ("Sequence complete" +++ nl);
             Transmit ("OK" +++ nl)]).
Proof.
  apply (start_valid_runs_blocking Demo.overlapped Demo.handler
           "3" "50" "2" [("1", "10"); ("2", "20")] "END");
    try reflexivity; try (repeat constructor; fail);
    try (vm_compute; intuition discriminate).
  repeat constructor; vm_compute; discriminate.
Defined.

Lemma start_only_switches_on_witness :
  Forall energizes (snd Demo.after_start)
  /\ (forall j s, nth_error (sequenceSteps (fst Demo.after_start)) j = Some s ->
                  nth_error (sequenceSteps Demo.handler) j = Some s
                  \/ ArrayDriver.state s = true)
  /\ ((exists reply, snd Demo.after_start = [Transmit reply]
                     /\ fst Demo.after_start = Demo.handler)
      \/ (steps (currentSequence (fst Demo.after_start)) = SequenceSteps
          /\ forall j s,
               (j < Z.to_nat (numSteps (currentSequence (fst Demo.after_start))))%nat ->
               nth_error (sequenceSteps (fst Demo.after_start)) j = Some s ->
               ArrayDriver.state s = true)).
Proof.
  apply (start_only_switches_on Demo.overlapped Demo.handler "START|2|5|1|15,10|END").
  vm_compute. reflexivity.
Defined.

(** How the step loop reads what the format does not provide for.  The
    comma of a step is looked for with [strchr] from the electrode number on,
    so text between the number and the comma is passed over, a [|] included;
    and the marker is compared on its three letters, so text after END is
    not read. *)
(** A line that stops short of its END is rejected. *)
Example truncated_line_is_rejected :
  parseElectrodeCommand Demo.overlapped Demo.handler "START|1|0|2|5,10|"
  = Some (Demo.handler,
          [Transmit (Demo.overlapped "Invalid electrode ID at step 1 (1-140)")])
  /\ parseElectrodeCommand Demo.overlapped Demo.handler "START|1|0|2|5,10"
     = Some (Demo.handler, [Transmit ("ERROR: Missing delimiter" +++ nl)]).
Proof. vm_compute. split; reflexivity. Qed.

Example text_after_END_is_not_read :
  parseElectrodeCommand Demo.overlapped Demo.handler "START|1|0|1|5,10|END7,20|END"
  = parseElectrodeCommand Demo.overlapped Demo.handler "START|1|0|1|5,10|END".
Proof. vm_compute. reflexivity. Qed.

End StartExamples.

(** ** GET *)

Section GetState.

Import CStr UartCommandHandler.

Variable overlapped : string -> string.

(** C10. When the electrode field of a GET line reads as a number in
    [1,140], the resolution succeeds, so the reply is the state text of that
    electrode followed by OK, and the handler is as before; the branch that
    reports a failed resolution is not taken. *)
Theorem get_in_range_replies_state (h : t) (rest : string) :
  1 <= atoi rest <= 140 ->
  let electrode := atoi rest in
  let e := nth (Z.to_nat (electrode - 1)) (ArrayDriver.electrodeMap (arrayDriver h))
               {| ArrayDriver.map_row := 0; ArrayDriver.map_col := 0 |} in
  let row := ArrayDriver.map_row e in
  let col := ArrayDriver.map_col e in
  ArrayDriver.getRowColFromElectrode (arrayDriver h) (u8 electrode) 0 0 = (true, row, col)
  /\ parseCommand overlapped h ("GET|" +++ rest)
     = Some (h, [Transmit (format ("Electrode " +++ dec electrode
                                     +++ " (Row " +++ dec row
                                     +++ ", Col " +++ dec col +++ "): "
                                     +++ level_name (ArrayDriver.getElectrodeState
                                                       (arrayDriver h) row col)
                                     +++ nl));
                 Transmit ("OK" +++ nl)]).
Proof.
  intros Hr electrode e row col.
  assert (Hu8 : u8 electrode = electrode) by (unfold u8; apply Z.mod_small; lia).
  assert (Hres : ArrayDriver.getRowColFromElectrode (arrayDriver h) (u8 electrode) 0 0
                 = (true, row, col)).
  { unfold ArrayDriver.getRowColFromElectrode, ArrayDriver.NUM_ELECTRODES.
    rewrite Hu8.
    destruct (Z.ltb_spec electrode 1); [lia|].
    destruct (Z.gtb_spec electrode 140); [lia|]. reflexivity. }
  split; [exact Hres|].
  change (parseCommand overlapped h ("GET|" +++ rest))
    with (Some (parseGetStateCommand h ("GET|" +++ rest))).
  unfold parseGetStateCommand.
  change (drop 4 ("GET|" +++ rest)) with rest.
  fold electrode.
  destruct (Z.ltb_spec electrode 1); [lia|].
  destruct (Z.gtb_spec electrode 140); [lia|].
  cbn [orb]. rewrite Hres. reflexivity.
Qed.

End GetState.

Lemma get_in_range_replies_state_witness :
  UartCommandHandler.parseCommand Demo.overlapped Demo.handler "GET|15"
  = Some (Demo.handler,
          [Transmit ("Electrode 15 (Row 1, Col 0): LOW" +++ CStr.nl);
           Transmit ("OK" +++ CStr.nl)]).
Proof.
  apply (proj2 (get_in_range_replies_state Demo.overlapped Demo.handler "15"
                  ltac:(vm_compute; intuition discriminate))).
Defined.

(** ** The electrode map *)

Section ElectrodeMap.

Import ArrayDriver.

Lemma fold_left_length {A B : Type} (F : list A -> B -> list A) (l : list B) :
  (forall m x, List.length (F m x) = List.length m) ->
  forall m, List.length (fold_left F l m) = List.length m.
Proof.
  intros HF; induction l as [|x l IH]; intros m; simpl; auto.
  now rewrite IH, HF.
Qed.

Lemma electrode_entry_length openBrace m electrode :
  List.length (electrode_entry openBrace m electrode) = List.length m.
Proof.
  unfold electrode_entry.
  repeat match goal with
         | |- context [match ?x with Some _ => _ | None => _ end] => destruct x
         | |- context [if ?c then _ else _] => destruct c
         end; auto using upd_length.
Qed.

Lemma chain_entry_length pr pc m electrode :
  List.length (chain_entry pr pc m electrode) = List.length m.
Proof.
  unfold chain_entry.
  match goal with |- context [if ?c then _ else _] => destruct c end;
    auto using upd_length.
Qed.

(** Reading the files leaves the table with its 140 entries. *)
Lemma load_mappings_length fs d :
  List.length (electrodeMap (snd (load_mappings fs d))) = List.length (electrodeMap d).
Proof.
  unfold load_mappings, loadElectrodeMap, loadPinMap, parseElectrodeMapJSON,
    parsePinMapJSON, readFile.
  repeat match goal with
         | |- context [match ?x with Some _ => _ | None => _ end] => destruct x
         end; cbn [snd fst electrodeMap with_maps];
    rewrite ?fold_left_length; auto using electrode_entry_length, chain_entry_length;
    rewrite ?fold_left_length; auto using electrode_entry_length, chain_entry_length.
Qed.

Lemma fold_upd_nth {A : Type} (f : nat -> A) (l : list nat) :
  forall (m : list A) (k : nat) (dflt : A),
    nth k (fold_left (fun m i => upd m i (f i)) l m) dflt =
    if existsb (Nat.eqb k) l && (k <? List.length m)%nat then f k else nth k m dflt.
Proof.
  induction l as [|a l IH]; intros m k dflt; simpl; auto.
  rewrite IH, upd_length, nth_upd.
  rewrite (Nat.eqb_sym k a).
  destruct (Nat.eqb_spec a k) as [->|]; simpl.
  - destruct (k <? List.length m)%nat; simpl;
      [now destruct (existsb (Nat.eqb k) l) | now rewrite andb_false_r].
  - reflexivity.
Qed.

(** The fallback loop of the constructor gives every entry its default. *)
Lemma default_mapping_nth m i dflt :
  List.length m = 140%nat -> (i < 140)%nat ->
  nth i (default_mapping m) dflt = default_entry i.
Proof.
  intros Hlen Hi. unfold default_mapping. rewrite fold_upd_nth, Hlen.
  replace (i <? 140)%nat with true by (symmetry; apply Nat.ltb_lt; lia).
  assert (E : existsb (Nat.eqb i) (seq 0 140) = true).
  { apply existsb_exists; exists i; split; [apply in_seq; lia | apply Nat.eqb_refl]. }
  now rewrite E.
Qed.

Lemma electrodeMap_length fs mem :
  List.length (electrodeMap (ArrayDriver fs mem)) = 140%nat.
Proof.
  unfold ArrayDriver.
  pose proof (load_mappings_length fs (fresh mem)) as Hl.
  destruct (load_mappings fs (fresh mem)) as [success d]. cbn [snd] in Hl.
  assert (Hf : List.length (electrodeMap (fresh mem)) = 140%nat) by reflexivity.
  destruct success; cbn [negb electrodeMap with_maps]; [lia|].
  unfold default_mapping. rewrite fold_left_length; [lia|].
  intros; apply upd_length.
Qed.

(** A file that cannot be opened makes the constructor's [success] false. *)
Lemma load_mappings_absent fs d :
  fs ELECTRODE_MAP_PATH = None \/ fs PIN_MAP_PATH = None ->
  fst (load_mappings fs d) = false.
Proof.
  unfold load_mappings, loadElectrodeMap, loadPinMap, readFile.
  intros [H | H]; rewrite H.
  - now destruct (fs PIN_MAP_PATH) as [j|]; [destruct (parsePinMapJSON d j)|].
  - destruct (fs ELECTRODE_MAP_PATH) as [j|];
      [destruct (parseElectrodeMapJSON d j) as [ok d1]|]; cbn [fst];
      now rewrite ?andb_false_r.
Qed.

(** C1, as the code has it.  For an electrode number in [1,140],
    [getRowColFromElectrode] succeeds and yields the entry of the table; when
    a mapping file could not be loaded (it cannot be opened, or more generally
    the constructor's [success] is false), that entry is the default
    row = (n-1)/14, col = (n-1) mod 14, inside the matrix.  For a number
    outside [1,140] it returns [false] and leaves [row] and [col] as they
    were. *)
Theorem resolve_electrode (fs : FileSystem) (mem : Storage) (n row col : Z) :
  0 <= n < 256 ->
  (1 <= n <= 140 ->
   exists e,
     nth_error (electrodeMap (ArrayDriver fs mem)) (Z.to_nat (n - 1)) = Some e
     /\ getRowColFromElectrode (ArrayDriver fs mem) n row col
        = (true, map_row e, map_col e)
     /\ (fs ELECTRODE_MAP_PATH = None \/ fs PIN_MAP_PATH = None
         \/ fst (load_mappings fs (fresh mem)) = false ->
         map_row e = (n - 1) / 14 /\ map_col e = (n - 1) mod 14
         /\ 0 <= map_row e < 10 /\ 0 <= map_col e < 14))
  /\ (n < 1 \/ n > 140 ->
      getRowColFromElectrode (ArrayDriver fs mem) n row col = (false, row, col)).
Proof.
  intros Hn; split.
  - intros Hin.
    pose proof (electrodeMap_length fs mem) as Hlen.
    destruct (nth_error (electrodeMap (ArrayDriver fs mem)) (Z.to_nat (n - 1)))
      as [e|] eqn:Ee; [|apply nth_error_None in Ee; lia].
    exists e; split; [reflexivity|].
    assert (Ed : nth (Z.to_nat (n - 1)) (electrodeMap (ArrayDriver fs mem))
                     {| map_row := 0; map_col := 0 |} = e)
      by (now apply nth_error_nth).
    split.
    + unfold getRowColFromElectrode, NUM_ELECTRODES.
      destruct (Z.ltb_spec n 1); [lia|]. destruct (Z.gtb_spec n 140); [lia|].
      cbn [orb]. now rewrite Ed.
    + intros Hfail.
      assert (Hs : fst (load_mappings fs (fresh mem)) = false).
      { destruct Hfail as [H | [H | H]]; auto using load_mappings_absent. }
      revert Ed. unfold ArrayDriver.
      pose proof (load_mappings_length fs (fresh mem)) as Hl.
      destruct (load_mappings fs (fresh mem)) as [success d]. cbn [fst snd] in *.
      subst success. cbn [negb electrodeMap with_maps].
      rewrite default_mapping_nth by (try lia; rewrite Hl; reflexivity).
      intros <-. unfold default_entry, NUM_COLS; cbn [map_row map_col].
      rewrite Z2Nat.id by lia.
      assert (0 <= (n - 1) / 14 < 10)
        by (split; [apply Z.div_pos | apply Z.div_lt_upper_bound]; lia).
      assert (0 <= (n - 1) mod 14 < 14) by (apply Z.mod_pos_bound; lia).
      unfold u8. rewrite !Z.mod_small by lia. lia.
  - intros Hout. unfold getRowColFromElectrode, NUM_ELECTRODES.
    destruct (Z.ltb_spec n 1); [reflexivity|].
    destruct (Z.gtb_spec n 140); [reflexivity | lia].
Qed.

Lemma resolve_electrode_witness :
  (exists e,
     nth_error (electrodeMap (ArrayDriver Demo.no_files Demo.stale)) 14 = Some e
     /\ getRowColFromElectrode (ArrayDriver Demo.no_files Demo.stale) 15 7 7
        = (true, map_row e, map_col e)
     /\ map_row e = 1 /\ map_col e = 0)
  /\ getRowColFromElectrode (ArrayDriver Demo.no_files Demo.stale) 141 7 7 = (false, 7, 7).
Proof.
  destruct (resolve_electrode Demo.no_files Demo.stale 15 7 7 ltac:(lia)) as [Hin _].
  destruct (resolve_electrode Demo.no_files Demo.stale 141 7 7 ltac:(lia)) as [_ Hout].
  split; [|apply Hout; lia].
  destruct (Hin ltac:(lia)) as [e [He [Hr Hd]]].
  exists e; repeat split; auto; apply Hd; left; reflexivity.
Defined.

(** C1 as it was stated fails.  Both files are present and are read; the
    electrode map has no entry for electrode 15.  The entry of 15 is not the
    default (row 1, column 0): it is what the storage held before the
    constructor ran, chained through the pin map when that is a valid pin --
    (0,0) from zeroed storage, and (255,255), outside the matrix, from storage
    that held 0xFF. *)
Lemma resolve_electrode_not_default :
  fst (load_mappings Demo.partial_files (fresh Demo.zeroed)) = true
  /\ getRowColFromElectrode (ArrayDriver Demo.partial_files Demo.zeroed) 15 0 0
     = (true, 0, 0)
  /\ ((15 - 1) / 14 = 1 /\ (15 - 1) mod 14 = 0)
  /\ getRowColFromElectrode (ArrayDriver Demo.partial_files Demo.stale) 15 0 0
     = (true, 255, 255).
Proof. vm_compute. repeat split. Qed.

(** The entries the electrode map does list are not honoured either: electrode
    1 is mapped to pin 3, which the pin map places at (3,5), and resolves to
    (0,0).  [parseElectrodeMapJSON] passes the key with its closing quote to
    [findJSONValue], which then looks for a text no JSON file contains. *)
Lemma listed_electrode_not_chained :
  getRowColFromElectrode (ArrayDriver Demo.partial_files Demo.zeroed) 1 0 0
  = (true, 0, 0).
Proof. vm_compute. reflexivity. Qed.

End ElectrodeMap.

(** ** Line assembly *)

Section LineAssembly.

Import CStr UartCommandHandler.

(** A byte that arrives when the buffer is full is dropped with the error,
    and the index goes back to zero: the bytes that follow start a new line. *)
Lemma processByte_overflow h byte :
  cmdBufferIndex h >= 2047 ->
  processByte h byte
  = (with_buffer h (cmdBuffer h) 0 (cmdComplete h),
     [Transmit ("ERROR: Buffer overflow" +++ nl)]).
Proof.
  intros Hi. unfold processByte, UART_CMD_BUFFER_SIZE.
  destruct (Z.geb_spec (cmdBufferIndex h) (2048 - 1)); [reflexivity | lia].
Qed.

(** C3 fails on the code.  A line of 2048 letters followed by "ALL|1": the
    error is reported at the 2048th byte, and the rest of the same line is
    then taken for a command and dispatched; every electrode is driven high
    and the handler answers OK.  It is so whether the main loop polls after
    every byte or once the whole line has arrived. *)
Lemma overlong_line_tail_is_dispatched :
  match run Demo.overlapped Demo.handler (receive Demo.overlong_line) with
  | Some (h', tr) =>
    tr = [Transmit ("ERROR: Buffer overflow" +++ nl)]
           ++ snd (ArrayDriver.setAllElectrodesHigh Demo.driver)
           ++ [Transmit ("All electrodes set to HIGH" +++ nl); Transmit ("OK" +++ nl)]
    /\ ArrayDriver.getPattern (arrayDriver h') = repeat (repeat true 14) 10
  | None => False
  end
  /\ run Demo.overlapped Demo.handler (map Rx (bytes_of Demo.overlong_line) ++ [Poll])
     = run Demo.overlapped Demo.handler (receive Demo.overlong_line).
Proof. vm_compute. repeat split. Qed.

End LineAssembly.

(** * Further properties of the code *)

(** ** Loops of electrode writes *)

Section Writes.

Import ArrayDriver.

Lemma each_acc {A : Type} (body : t -> A -> t * list event) (l : list A) :
  forall d tr,
    fold_left (fun acc x => let '(d1, tr1) := body (fst acc) x in (d1, snd acc ++ tr1))
              l (d, tr)
    = (fst (each body l d), tr ++ snd (each body l d)).
Proof.
  unfold each; induction l as [|x l IH]; intros d tr; cbn [fold_left fst snd].
  - now rewrite app_nil_r.
  - destruct (body d x) as [d1 tr1]. cbn [app].
    rewrite (IH d1 (tr ++ tr1)), (IH d1 tr1). cbn [fst snd].
    now rewrite app_assoc.
Qed.

Lemma each_nil {A : Type} (body : t -> A -> t * list event) d :
  each body [] d = (d, []).
Proof. reflexivity. Qed.

Lemma each_cons {A : Type} (body : t -> A -> t * list event) x l d :
  each body (x :: l) d
  = (fst (each body l (fst (body d x))),
     snd (body d x) ++ snd (each body l (fst (body d x)))).
Proof.
  unfold each at 1; cbn [fold_left fst snd].
  destruct (body d x) as [d1 tr1]. cbn [app fst snd]. apply each_acc.
Qed.

Lemma with_electrodeState_same d : with_electrodeState d (electrodeState d) = d.
Proof. now destruct d. Qed.

(** A loop of [setElectrode] on cells inside the matrix: the state array is
    the array with those cells assigned, nothing else of the driver changes,
    and each call issues its atomic write. *)
Lemma each_setElectrode {A : Type} (fr fc : A -> nat) (fv : A -> bool) (l : list A) :
  Forall (fun x => (fr x < 10)%nat /\ (fc x < 14)%nat) l ->
  forall d,
    each (fun d x => setElectrode d (Z.of_nat (fr x)) (Z.of_nat (fc x)) (fv x)) l d
    = (with_electrodeState d
         (fold_left (fun st x => set_cell st (fr x) (fc x) (fv x)) l (electrodeState d)),
       flat_map (fun x => setRowColAtomic (Z.of_nat (fr x)) (Z.of_nat (fc x)) (fv x)) l).
Proof.
  induction 1 as [|x l [Hr Hc] _ IH]; intros d.
  - rewrite each_nil. cbn [fold_left flat_map]. now rewrite with_electrodeState_same.
  - rewrite each_cons.
    assert (E : setElectrode d (Z.of_nat (fr x)) (Z.of_nat (fc x)) (fv x)
                = (with_electrodeState d
                     (set_cell (electrodeState d) (fr x) (fc x) (fv x)),
                   setRowColAtomic (Z.of_nat (fr x)) (Z.of_nat (fc x)) (fv x))).
    { unfold setElectrode, NUM_ROWS, NUM_COLS.
      destruct (Z.geb_spec (Z.of_nat (fr x)) 10); [lia|].
      destruct (Z.geb_spec (Z.of_nat (fc x)) 14); [lia|].
      cbn [orb]. now rewrite !Nat2Z.id. }
    rewrite E. cbn [fst snd]. rewrite IH. cbn [fst snd flat_map fold_left].
    reflexivity.
Qed.

(** Assigning a list of cells, each with the value [f] gives to it. *)
Lemma set_cells {A : Type} (fr fc : A -> nat) (f : nat -> nat -> bool) (l : list A) :
  Forall (fun x => (fr x < 10)%nat /\ (fc x < 14)%nat) l ->
  forall st,
    wf_state st ->
    let st' := fold_left (fun st x => set_cell st (fr x) (fc x) (f (fr x) (fc x))) l st in
    wf_state st'
    /\ forall r c, cell st' r c =
                   if existsb (fun x => (fr x =? r)%nat && (fc x =? c)%nat) l
                   then f r c else cell st r c.
Proof.
  induction 1 as [|x l [Hr Hc] _ IH]; intros st Hwf; cbn [fold_left existsb].
  - split; auto.
  - destruct (IH (set_cell st (fr x) (fc x) (f (fr x) (fc x)))
                 (wf_state_set_cell _ _ _ _ Hwf)) as [Hwf' Hcell].
    split; auto. intros r c. rewrite Hcell, cell_set_cell.
    rewrite (wf_state_row st (fr x) Hwf Hr).
    destruct Hwf as [Hlen _]. rewrite Hlen.
    replace (fr x <? 10)%nat with true by (symmetry; apply Nat.ltb_lt; lia).
    replace (fc x <? 14)%nat with true by (symmetry; apply Nat.ltb_lt; lia).
    rewrite !andb_true_r.
    destruct (existsb (fun x0 => (fr x0 =? r)%nat && (fc x0 =? c)%nat) l);
      [now rewrite orb_true_r|].
    rewrite orb_false_r.
    destruct (Nat.eqb_spec (fr x) r) as [->|]; cbn [andb]; auto.
    destruct (Nat.eqb_spec (fc x) c) as [->|]; auto.
Qed.

Lemma getElectrodeState_cell d r c :
  0 <= r -> 0 <= c ->
  getElectrodeState d r c =
  (Z.to_nat r <? 10)%nat && (Z.to_nat c <? 14)%nat
  && cell (electrodeState d) (Z.to_nat r) (Z.to_nat c).
Proof.
  intros Hr Hc. unfold getElectrodeState, NUM_ROWS, NUM_COLS.
  destruct (Z.geb_spec r 10), (Z.geb_spec c 14),
           (Nat.ltb_spec (Z.to_nat r) 10), (Nat.ltb_spec (Z.to_nat c) 14);
    cbn [orb andb]; auto; lia.
Qed.

End Writes.

(** ** The matrix actuator, cell by cell *)

Section ActuatorCells.

Import ArrayDriver.

Lemma bool_eq_iff (a b : bool) : (a = true <-> b = true) -> a = b.
Proof.
  destruct a, b; intros [H1 H2]; auto.
  symmetry; now apply H1.
Qed.

Lemma existsb_cols (b : bool) (c n : nat) :
  existsb (fun x => b && (x =? c)%nat) (seq 0 n) = b && (c <? n)%nat.
Proof.
  apply bool_eq_iff; rewrite existsb_exists, andb_true_iff, Nat.ltb_lt; split.
  - intros [x [Hx Hb]]. apply andb_true_iff in Hb; destruct Hb as [Hb He].
    apply Nat.eqb_eq in He; subst. apply in_seq in Hx. split; auto; lia.
  - intros [Hb Hc]. exists c; split; [apply in_seq; lia|].
    now rewrite Hb, Nat.eqb_refl.
Qed.

Lemma existsb_rows (b : bool) (r n : nat) :
  existsb (fun x => (x =? r)%nat && b) (seq 0 n) = (r <? n)%nat && b.
Proof.
  apply bool_eq_iff; rewrite existsb_exists, andb_true_iff, Nat.ltb_lt; split.
  - intros [x [Hx Hb]]. apply andb_true_iff in Hb; destruct Hb as [He Hb].
    apply Nat.eqb_eq in He; subst. apply in_seq in Hx. split; auto; lia.
  - intros [Hr Hb]. exists r; split; [apply in_seq; lia|].
    now rewrite Hb, Nat.eqb_refl.
Qed.

Lemma map_nth_seq {A : Type} (l : list A) (dflt : A) :
  map (fun i => nth i l dflt) (seq 0 (List.length l)) = l.
Proof.
  induction l as [|a l IH]; [reflexivity|].
  cbn [List.length seq map nth]. f_equal.
  rewrite <- seq_shift, map_map. exact IH.
Qed.

(** A state array of the declared dimensions is the table of its cells. *)
Lemma wf_state_cells st :
  wf_state st -> map (fun r => map (fun c => cell st r c) cols) rows = st.
Proof.
  intros Hwf. pose proof Hwf as [Hlen Hrows].
  transitivity (map (fun r => nth r st []) (seq 0 (List.length st)));
    [|apply map_nth_seq].
  rewrite Hlen. apply map_ext_in; intros r Hr; apply in_seq in Hr.
  transitivity (map (fun c => nth c (nth r st []) false)
                    (seq 0 (List.length (nth r st []))));
    [|apply map_nth_seq].
  rewrite (wf_state_row st r Hwf) by lia. reflexivity.
Qed.

Lemma wf_with_electrodeState d st :
  wf d -> wf_state st -> wf (with_electrodeState d st).
Proof. intros [_ Hm] Hst; split; auto. Qed.

(** X1. [setElectrode] on a cell of the matrix issues one atomic write, row
    line at the level of the state and column line at the opposite level,
    and changes that one cell of the state array: every other cell reads as
    before, and the array keeps its dimensions. *)
Theorem setElectrode_changes_one_cell (d : t) (row col : Z) (s : bool) :
  wf d -> 0 <= row < 10 -> 0 <= col < 14 ->
  wf (fst (setElectrode d row col s))
  /\ snd (setElectrode d row col s)
     = [IrqDisable; RowLine (Z.to_nat row) s; ColLine (Z.to_nat col) (negb s); IrqEnable]
  /\ forall r c, 0 <= r -> 0 <= c ->
       getElectrodeState (fst (setElectrode d row col s)) r c
       = if (r =? row) && (c =? col) then s else getElectrodeState d r c.
Proof.
  intros Hwf Hrow Hcol.
  assert (E : setElectrode d row col s
              = (with_electrodeState d
                   (set_cell (electrodeState d) (Z.to_nat row) (Z.to_nat col) s),
                 setRowColAtomic row col s)).
  { unfold setElectrode, NUM_ROWS, NUM_COLS.
    destruct (Z.geb_spec row 10); [lia|]. destruct (Z.geb_spec col 14); [lia|].
    reflexivity. }
  rewrite E; cbn [fst snd]. destruct Hwf as [Hst Hm].
  split; [|split].
  - split; auto. now apply wf_state_set_cell.
  - reflexivity.
  - intros r c Hr Hc. rewrite !getElectrodeState_cell by assumption.
    cbn [electrodeState with_electrodeState]. rewrite cell_set_cell.
    rewrite (wf_state_row _ (Z.to_nat row) Hst) by lia.
    destruct Hst as [Hlen _]. rewrite Hlen.
    destruct (Z.eqb_spec r row), (Z.eqb_spec c col),
             (Nat.eqb_spec (Z.to_nat row) (Z.to_nat r)),
             (Nat.eqb_spec (Z.to_nat col) (Z.to_nat c)),
             (Nat.ltb_spec (Z.to_nat row) 10), (Nat.ltb_spec (Z.to_nat col) 14),
             (Nat.ltb_spec (Z.to_nat r) 10), (Nat.ltb_spec (Z.to_nat c) 14);
      cbn [andb]; try lia; auto.
Qed.

Lemma setElectrode_changes_one_cell_witness :
  getElectrodeState (fst (setElectrode Demo.driver 3 5 true)) 3 5 = true
  /\ getElectrodeState (fst (setElectrode Demo.driver 3 5 true)) 3 6
     = getElectrodeState Demo.driver 3 6.
Proof.
  destruct (setElectrode_changes_one_cell Demo.driver 3 5 true wf_demo_driver
              ltac:(lia) ltac:(lia)) as [_ [_ H]].
  split; [apply (H 3 5); lia | apply (H 3 6); lia].
Defined.

(** X2. [setRowElectrodes] on a row of the matrix writes the 14 electrodes
    of the row in column order and leaves the row at the state asked for,
    the other rows as they were; on a row number from 10 on it does
    nothing. *)
Theorem setRowElectrodes_sets_the_row (d : t) (row : Z) (s : bool) :
  wf d -> 0 <= row < 256 ->
  (row < 10 ->
   wf (fst (setRowElectrodes d row s))
   /\ snd (setRowElectrodes d row s)
      = flat_map (fun c => setRowColAtomic row (Z.of_nat c) s) cols
   /\ forall r c, 0 <= r -> 0 <= c ->
        getElectrodeState (fst (setRowElectrodes d row s)) r c
        = if (r =? row) && (c <? 14) then s else getElectrodeState d r c)
  /\ (10 <= row -> setRowElectrodes d row s = (d, [])).
Proof.
  intros Hwf Hrow; split.
  - intros Hlt. unfold setRowElectrodes, NUM_ROWS.
    destruct (Z.geb_spec row 10); [lia|].
    remember (Z.to_nat row) as r0 eqn:Er0.
    assert (Erow : row = Z.of_nat r0) by lia. clear Er0. subst row.
    assert (Hin : Forall (fun c : nat => (r0 < 10)%nat /\ (c < 14)%nat) cols)
      by (apply Forall_forall; intros c Hc; apply in_seq in Hc; lia).
    rewrite (each_setElectrode (fun _ => r0) (fun c => c) (fun _ => s)) by exact Hin.
    cbn [fst snd].
    destruct Hwf as [Hst Hm].
    destruct (set_cells (fun _ : nat => r0) (fun c => c) (fun _ _ => s) cols
                Hin (electrodeState d) Hst) as [Hst' Hcell].
    split; [now apply wf_with_electrodeState|]. split; [reflexivity|].
    intros r c Hr Hc. rewrite !getElectrodeState_cell by assumption.
    cbn [electrodeState with_electrodeState]. rewrite Hcell.
    unfold cols. rewrite existsb_cols.
    destruct (Z.eqb_spec r (Z.of_nat r0)), (Z.ltb_spec c 14),
             (Nat.eqb_spec r0 (Z.to_nat r)),
             (Nat.ltb_spec (Z.to_nat r) 10), (Nat.ltb_spec (Z.to_nat c) 14);
      cbn [andb]; try lia; auto.
  - intros Hge. unfold setRowElectrodes, NUM_ROWS.
    destruct (Z.geb_spec row 10); [reflexivity | lia].
Qed.

Lemma setRowElectrodes_sets_the_row_witness :
  getElectrodeState (fst (setRowElectrodes Demo.driver 2 true)) 2 13 = true
  /\ getElectrodeState (fst (setRowElectrodes Demo.driver 2 true)) 3 13
     = getElectrodeState Demo.driver 3 13
  /\ setRowElectrodes Demo.driver 10 true = (Demo.driver, []).
Proof.
  destruct (setRowElectrodes_sets_the_row Demo.driver 2 true wf_demo_driver
              ltac:(lia)) as [Hin _].
  destruct (setRowElectrodes_sets_the_row Demo.driver 10 true wf_demo_driver
              ltac:(lia)) as [_ Hout].
  destruct (Hin ltac:(lia)) as [_ [_ H]].
  split; [apply (H 2 13); lia | split; [apply (H 3 13); lia | apply Hout; lia]].
Defined.

(** X3. [setColElectrodes] on a column of the matrix writes the 10
    electrodes of the column in row order and leaves the column at the state
    asked for, the other columns as they were; on a column number from 14 on
    it does nothing. *)
Theorem setColElectrodes_sets_the_column (d : t) (col : Z) (s : bool) :
  wf d -> 0 <= col < 256 ->
  (col < 14 ->
   wf (fst (setColElectrodes d col s))
   /\ snd (setColElectrodes d col s)
      = flat_map (fun r => setRowColAtomic (Z.of_nat r) col s) rows
   /\ forall r c, 0 <= r -> 0 <= c ->
        getElectrodeState (fst (setColElectrodes d col s)) r c
        = if (r <? 10) && (c =? col) then s else getElectrodeState d r c)
  /\ (14 <= col -> setColElectrodes d col s = (d, [])).
Proof.
  intros Hwf Hcol; split.
  - intros Hlt. unfold setColElectrodes, NUM_COLS.
    destruct (Z.geb_spec col 14); [lia|].
    remember (Z.to_nat col) as c0 eqn:Ec0.
    assert (Ecol : col = Z.of_nat c0) by lia. clear Ec0. subst col.
    assert (Hin : Forall (fun r : nat => (r < 10)%nat /\ (c0 < 14)%nat) rows)
      by (apply Forall_forall; intros r Hr; apply in_seq in Hr; lia).
    rewrite (each_setElectrode (fun r => r) (fun _ => c0) (fun _ => s)) by exact Hin.
    cbn [fst snd].
    destruct Hwf as [Hst Hm].
    destruct (set_cells (fun r : nat => r) (fun _ => c0) (fun _ _ => s) rows
                Hin (electrodeState d) Hst) as [Hst' Hcell].
    split; [now apply wf_with_electrodeState|]. split; [reflexivity|].
    intros r c Hr Hc. rewrite !getElectrodeState_cell by assumption.
    cbn [electrodeState with_electrodeState]. rewrite Hcell.
    unfold rows. rewrite existsb_rows.
    destruct (Z.ltb_spec r 10), (Z.eqb_spec c (Z.of_nat c0)),
             (Nat.eqb_spec c0 (Z.to_nat c)),
             (Nat.ltb_spec (Z.to_nat r) 10), (Nat.ltb_spec (Z.to_nat c) 14);
      cbn [andb]; try lia; auto.
  - intros Hge. unfold setColElectrodes, NUM_COLS.
    destruct (Z.geb_spec col 14); [reflexivity | lia].
Qed.

Lemma setColElectrodes_sets_the_column_witness :
  getElectrodeState (fst (setColElectrodes Demo.driver 13 true)) 9 13 = true
  /\ getElectrodeState (fst (setColElectrodes Demo.driver 13 true)) 9 12
     = getElectrodeState Demo.driver 9 12
  /\ setColElectrodes Demo.driver 14 true = (Demo.driver, []).
Proof.
  destruct (setColElectrodes_sets_the_column Demo.driver 13 true wf_demo_driver
              ltac:(lia)) as [Hin _].
  destruct (setColElectrodes_sets_the_column Demo.driver 14 true wf_demo_driver
              ltac:(lia)) as [_ Hout].
  destruct (Hin ltac:(lia)) as [_ [_ H]].
  split; [apply (H 9 13); lia | split; [apply (H 9 12); lia | apply Hout; lia]].
Defined.

(** X4. [setPattern] followed by [getPattern] gives back the pattern, for
    every 10 x 14 pattern; [setPattern] writes all 140 electrodes one by one,
    row by row. *)
Theorem setPattern_then_getPattern (d : t) (pattern : list (list bool)) :
  wf d -> wf_state pattern ->
  getPattern (fst (setPattern d pattern)) = pattern
  /\ snd (setPattern d pattern)
     = flat_map (fun rc => setRowColAtomic (Z.of_nat (fst rc)) (Z.of_nat (snd rc))
                                           (cell pattern (fst rc) (snd rc)))
                (list_prod rows cols).
Proof.
  intros [Hst Hm] Hp. unfold setPattern.
  assert (Hin : Forall (fun x : nat * nat => (fst x < 10)%nat /\ (snd x < 14)%nat)
                       (list_prod rows cols)).
  { apply Forall_forall; intros [r c] H. apply in_prod_iff in H.
    destruct H as [Hr Hc]. apply in_seq in Hr, Hc. cbn [fst snd]; lia. }
  rewrite (each_setElectrode fst snd (fun rc => cell pattern (fst rc) (snd rc)))
    by exact Hin.
  cbn [fst snd]. split; [|reflexivity].
  destruct (set_cells (@fst nat nat) (@snd nat nat) (cell pattern) (list_prod rows cols)
                      Hin (electrodeState d) Hst) as [_ Hcell].
  unfold getPattern. cbn [electrodeState with_electrodeState].
  transitivity (map (fun r => map (fun c => cell pattern r c) cols) rows);
    [|exact (wf_state_cells pattern Hp)].
  apply map_ext_in; intros r Hr. apply map_ext_in; intros c Hc.
  rewrite Hcell.
  assert (E : existsb (fun x : nat * nat => (fst x =? r)%nat && (snd x =? c)%nat)
                      (list_prod rows cols) = true).
  { apply existsb_exists; exists (r, c); split;
      [now apply in_prod | cbn [fst snd]; now rewrite !Nat.eqb_refl]. }
  now rewrite E.
Qed.

Lemma setPattern_then_getPattern_witness :
  getPattern (fst (setPattern Demo.driver (repeat (repeat true 14) 10)))
  = repeat (repeat true 14) 10.
Proof.
  assert (Hp : wf_state (repeat (repeat true 14) 10))
    by (split; [reflexivity | repeat constructor]).
  apply (proj1 (setPattern_then_getPattern Demo.driver (repeat (repeat true 14) 10)
                  wf_demo_driver Hp)).
Defined.

End ActuatorCells.

(** ** The electrode tests *)

Section Pulses.

Import ArrayDriver Extra.

Lemma table_u8_entry d n :
  table_u8 d ->
  let e := nth (Z.to_nat (n - 1)) (electrodeMap d) {| map_row := 0; map_col := 0 |} in
  0 <= map_row e < 256 /\ 0 <= map_col e < 256.
Proof.
  intros Hu e. unfold table_u8 in Hu. rewrite Forall_forall in Hu.
  destruct (Nat.ltb_spec (Z.to_nat (n - 1)) (List.length (electrodeMap d))).
  - apply Hu, nth_In; auto.
  - unfold e; rewrite nth_overflow by auto. cbn; lia.
Qed.

Lemma setElectrode_in d row col s :
  0 <= row < 10 -> 0 <= col < 14 ->
  setElectrode d row col s
  = (with_electrodeState d
       (set_cell (electrodeState d) (Z.to_nat row) (Z.to_nat col) s),
     setRowColAtomic row col s).
Proof.
  intros Hr Hc. unfold setElectrode, NUM_ROWS, NUM_COLS.
  destruct (Z.geb_spec row 10); [lia|]. destruct (Z.geb_spec col 14); [lia|].
  reflexivity.
Qed.

Lemma setElectrode_out d row col s :
  10 <= row \/ 14 <= col -> setElectrode d row col s = (d, []).
Proof.
  intros H. unfold setElectrode, NUM_ROWS, NUM_COLS.
  destruct (Z.geb_spec row 10); [reflexivity|].
  destruct (Z.geb_spec col 14); [reflexivity | lia].
Qed.

Lemma setElectrodeByNumber_eq d n s :
  setElectrodeByNumber d n s
  = if (n <? 1) || (n >? 140) then (d, [])
    else let e := nth (Z.to_nat (n - 1)) (electrodeMap d)
                      {| map_row := 0; map_col := 0 |} in
         setElectrode d (map_row e) (map_col e) s.
Proof.
  unfold setElectrodeByNumber, getRowColFromElectrode, NUM_ELECTRODES.
  now destruct ((n <? 1) || (n >? 140)).
Qed.

(** One pulse: the cell addressed ends low, every other cell is as before. *)
Lemma pulse_effect d dur n :
  wf d -> table_u8 d ->
  wf (fst (pulse dur d n))
  /\ electrodeMap (fst (pulse dur d n)) = electrodeMap d
  /\ snd (pulse dur d n) = pulse_events d dur n
  /\ forall r c, 0 <= r -> 0 <= c ->
       getElectrodeState (fst (pulse dur d n)) r c
       = if addresses d n r c then false else getElectrodeState d r c.
Proof.
  intros Hwf Hu.
  pose proof (table_u8_entry d n Hu) as He. cbv zeta in He.
  unfold pulse, setElectrodeHighByNumber, setElectrodeLowByNumber,
    addresses, pulse_events, getRowColFromElectrode, NUM_ELECTRODES.
  rewrite setElectrodeByNumber_eq.
  destruct ((n <? 1) || (n >? 140)) eqn:En.
  - rewrite setElectrodeByNumber_eq, En. cbn [fst snd app].
    split; [exact Hwf | repeat split; auto].
  - cbv zeta.
    set (e := nth (Z.to_nat (n - 1)) (electrodeMap d) {| map_row := 0; map_col := 0 |})
      in *.
    destruct He as [Hr Hc].
    destruct (Z.ltb_spec (map_row e) 10) as [Hr10|Hr10];
      [destruct (Z.ltb_spec (map_col e) 14) as [Hc14|Hc14]|]; cbn [andb].
    + rewrite setElectrode_in by lia.
      rewrite setElectrodeByNumber_eq, En. cbv zeta.
      cbn [electrodeMap with_electrodeState]. fold e.
      rewrite setElectrode_in by lia. cbn [fst snd].
      destruct Hwf as [Hst Hm].
      assert (Hst1 : wf_state (set_cell (electrodeState d) (Z.to_nat (map_row e))
                                        (Z.to_nat (map_col e)) true))
        by now apply wf_state_set_cell.
      split; [|split; [|split]].
      * split; cbn [electrodeState electrodeMap with_electrodeState]; auto.
        now apply wf_state_set_cell.
      * reflexivity.
      * reflexivity.
      * intros r c Hr0 Hc0. rewrite !getElectrodeState_cell by assumption.
        cbn [electrodeState with_electrodeState].
        rewrite !cell_set_cell, !set_cell_length, !set_cell_row_length.
        rewrite (wf_state_row _ (Z.to_nat (map_row e)) Hst) by lia.
        destruct Hst as [Hlen _]. rewrite Hlen.
        destruct (Z.eqb_spec (map_row e) r), (Z.eqb_spec (map_col e) c),
                 (Nat.eqb_spec (Z.to_nat (map_row e)) (Z.to_nat r)),
                 (Nat.eqb_spec (Z.to_nat (map_col e)) (Z.to_nat c)),
                 (Nat.ltb_spec (Z.to_nat (map_row e)) 10),
                 (Nat.ltb_spec (Z.to_nat (map_col e)) 14),
                 (Nat.ltb_spec (Z.to_nat r) 10), (Nat.ltb_spec (Z.to_nat c) 14);
          cbn [andb]; try lia; auto.
    + rewrite setElectrode_out by lia.
      rewrite setElectrodeByNumber_eq, En. cbv zeta. fold e.
      rewrite setElectrode_out by lia. cbn [fst snd app].
      split; [exact Hwf | repeat split; auto].
    + rewrite setElectrode_out by lia.
      rewrite setElectrodeByNumber_eq, En. cbv zeta. fold e.
      rewrite setElectrode_out by lia. cbn [fst snd app].
      split; [exact Hwf | repeat split; auto].
Qed.

Lemma addresses_same_table d d' n r c :
  electrodeMap d' = electrodeMap d -> addresses d' n r c = addresses d n r c.
Proof. intros E; unfold addresses, getRowColFromElectrode; now rewrite E. Qed.

Lemma pulse_events_same_table d d' dur n :
  electrodeMap d' = electrodeMap d -> pulse_events d' dur n = pulse_events d dur n.
Proof. intros E; unfold pulse_events, getRowColFromElectrode; now rewrite E. Qed.

Lemma table_u8_same_table d d' :
  electrodeMap d' = electrodeMap d -> table_u8 d -> table_u8 d'.
Proof. unfold table_u8; now intros ->. Qed.

(** A loop of pulses: every cell that a number of the list addresses ends
    low, every other cell is as before, the table is unchanged. *)
Lemma pulses_effect (duration_ms : Z) (electrodeNumbers : list Z) : forall d : t,
  wf d -> table_u8 d ->
  wf (fst (each (pulse duration_ms) electrodeNumbers d))
  /\ electrodeMap (fst (each (pulse duration_ms) electrodeNumbers d)) = electrodeMap d
  /\ snd (each (pulse duration_ms) electrodeNumbers d)
     = flat_map (pulse_events d duration_ms) electrodeNumbers
  /\ forall r c, 0 <= r -> 0 <= c ->
       getElectrodeState (fst (each (pulse duration_ms) electrodeNumbers d)) r c
       = if existsb (fun n => addresses d n r c) electrodeNumbers
         then false else getElectrodeState d r c.
Proof.
  induction electrodeNumbers as [|n l IH]; intros d Hwf Hu.
  - rewrite each_nil. cbn [fst snd flat_map existsb].
    split; [exact Hwf | repeat split; auto].
  - rewrite each_cons. cbn [fst snd flat_map existsb].
    destruct (pulse_effect d duration_ms n Hwf Hu) as [Hwf1 [Hm1 [Hev1 Hc1]]].
    destruct (IH (fst (pulse duration_ms d n)) Hwf1
                 (table_u8_same_table _ _ Hm1 Hu)) as [Hwf2 [Hm2 [Hev2 Hc2]]].
    split; [exact Hwf2|]. split; [congruence|]. split.
    + rewrite Hev1, Hev2. f_equal.
      apply flat_map_ext; intros a. now apply pulse_events_same_table.
    + intros r c Hr Hc. rewrite Hc2, Hc1 by assumption.
      replace (existsb (fun n0 => addresses (fst (pulse duration_ms d n)) n0 r c) l)
        with (existsb (fun n0 => addresses d n0 r c) l).
      * destruct (existsb (fun n0 => addresses d n0 r c) l);
          [now rewrite orb_true_r | now rewrite orb_false_r].
      * clear - Hm1. induction l as [|a l IHl]; cbn [existsb]; auto.
        now rewrite IHl, (addresses_same_table _ _ a r c Hm1).
Qed.

(** X5. [runElectrodeSequenceTest] pulses the electrodes of its list in
    order: on, wait, off; a number that resolves to no cell of the matrix
    costs only the wait.  Afterwards every cell that a number of the list
    addresses is low, every other cell is as before, and the electrode table
    is unchanged. *)
Theorem runElectrodeSequenceTest_leaves_low (d : t) (electrodeNumbers : list Z)
        (duration_ms : Z) :
  wf d -> table_u8 d ->
  wf (fst (runElectrodeSequenceTest d electrodeNumbers duration_ms))
  /\ electrodeMap (fst (runElectrodeSequenceTest d electrodeNumbers duration_ms))
     = electrodeMap d
  /\ snd (runElectrodeSequenceTest d electrodeNumbers duration_ms)
     = flat_map (pulse_events d duration_ms) electrodeNumbers
  /\ forall r c, 0 <= r -> 0 <= c ->
       getElectrodeState (fst (runElectrodeSequenceTest d electrodeNumbers duration_ms)) r c
       = if existsb (fun n => addresses d n r c) electrodeNumbers
         then false else getElectrodeState d r c.
Proof. unfold runElectrodeSequenceTest. apply pulses_effect. Qed.

End Pulses.

(** ** What the constructor establishes *)

Section Constructor.

Import ArrayDriver Extra.

Lemma u8_range z : 0 <= u8 z < 256.
Proof. unfold u8; apply Z.mod_pos_bound; lia. Qed.

Lemma Forall_upd {A : Type} (P : A -> Prop) (l : list A) (i : nat) (x : A) :
  Forall P l -> P x -> Forall P (upd l i x).
Proof.
  intros Hl Hx; revert i; induction Hl as [|a l Ha Hl IH]; intros [|i]; simpl;
    constructor; auto.
Qed.

(** A loop keeps what each of its iterations keeps. *)
Lemma fold_left_inv {S B : Type} (Inv : S -> Prop) (F : S -> B -> S) (l : list B) :
  (forall s x, In x l -> Inv s -> Inv (F s x)) ->
  forall s, Inv s -> Inv (fold_left F l s).
Proof.
  induction l as [|x l IH]; intros HF s Hs; cbn [fold_left]; auto.
  apply IH; [intros s' y Hy; apply HF; now right | apply HF; [now left | auto]].
Qed.

Lemma in_matrix_chainable e : in_matrix e -> chainable e.
Proof. unfold in_matrix, chainable; lia. Qed.

Lemma electrode_entry_chainable openBrace m electrode :
  Forall chainable m -> Forall chainable (electrode_entry openBrace m electrode).
Proof.
  intros Hm. unfold electrode_entry.
  destruct (CStr.strstr openBrace _) as [keyPos|]; auto.
  destruct (findJSONValue keyPos _) as [valuePos|]; auto.
  destruct (Z.gtb_spec (parseJSONInt (Some valuePos)) 0); cbn [andb]; auto.
  unfold NUM_ELECTRODES, NUM_COLS.
  destruct (Z.leb_spec (parseJSONInt (Some valuePos)) 140); auto.
  apply Forall_upd; auto.
  set (p := parseJSONInt (Some valuePos)) in *.
  assert (0 <= (p - 1) / 14 < 10)
    by (split; [apply Z.div_pos | apply Z.div_lt_upper_bound]; lia).
  assert (0 <= (p - 1) mod 14 < 14) by (apply Z.mod_pos_bound; lia).
  unfold chainable, u8; cbn [map_row map_col].
  rewrite !Z.mod_small by lia.
  pose proof (Z.div_mod (p - 1) 14 ltac:(lia)). lia.
Qed.

Lemma zero_all_zero l k :
  List.length l = 140%nat -> nth k (zero_all l) 0 = 0.
Proof.
  intros Hl. unfold zero_all. rewrite fold_upd_nth, Hl.
  destruct (Nat.ltb_spec k 140).
  - assert (E : existsb (Nat.eqb k) (seq 0 140) = true).
    { apply existsb_exists; exists k; split; [apply in_seq; lia | apply Nat.eqb_refl]. }
    now rewrite E.
  - rewrite andb_false_r. apply nth_overflow; lia.
Qed.

Lemma zero_all_length l : List.length (zero_all l) = List.length l.
Proof. unfold zero_all; apply fold_left_length; intros; apply upd_length. Qed.

Lemma Forall_nth_default {A : Type} (P : A -> Prop) (l : list A) (dflt : A) :
  (forall k, (k < List.length l)%nat -> P (nth k l dflt)) -> Forall P l.
Proof.
  intros H. apply Forall_forall; intros x Hx.
  destruct (In_nth l x dflt Hx) as [k [Hk <-]]. now apply H.
Qed.

(** The two pin tables after the loops of [parsePinMapJSON]: rows below 10,
    columns below 14. *)
Lemma pin_tables_in_matrix openBrace pr pc :
  List.length pr = 140%nat -> List.length pc = 140%nat ->
  let tabs := fold_left (pin_entry openBrace) (list_prod rows cols)
                        (zero_all pr, zero_all pc) in
  Forall (fun x => 0 <= x < 10) (fst tabs) /\ Forall (fun x => 0 <= x < 14) (snd tabs).
Proof.
  intros Hr Hc.
  apply (fold_left_inv
           (fun tabs : list Z * list Z =>
              Forall (fun x => 0 <= x < 10) (fst tabs)
              /\ Forall (fun x => 0 <= x < 14) (snd tabs))).
  - intros [a b] [row col] Hin [Ha Hb]. apply in_prod_iff in Hin.
    destruct Hin as [Hrow Hcol]. apply in_seq in Hrow, Hcol.
    unfold pin_entry.
    destruct (CStr.strstr openBrace _) as [keyPos|]; [|now split].
    destruct (CStr.strchr keyPos ":") as [colon|]; [|now split].
    destruct ((parseJSONInt (Some (tail_string colon)) >? 0)
              && (parseJSONInt (Some (tail_string colon)) <=? NUM_ELECTRODES));
      [|now split].
    cbn [fst snd] in *. split; apply Forall_upd; auto; lia.
  - cbn [fst snd]; split; apply (Forall_nth_default _ _ 0); intros k _;
      rewrite zero_all_zero by assumption; lia.
Qed.

Lemma nth_in_range (l : list Z) (k : nat) (hi : Z) :
  0 < hi -> Forall (fun x => 0 <= x < hi) l -> 0 <= nth k l 0 < hi.
Proof.
  intros Hhi Hl. destruct (Nat.ltb_spec k (List.length l)).
  - rewrite Forall_forall in Hl; apply Hl, nth_In; auto.
  - rewrite nth_overflow by auto; lia.
Qed.

(** One iteration of the chaining loop, on a table of chainable entries:
    the entry of the electrode becomes a cell of the matrix and the others
    are as they were. *)
Lemma chain_entry_step pr pc m electrode :
  Forall (fun x => 0 <= x < 10) pr -> Forall (fun x => 0 <= x < 14) pc ->
  Forall chainable m ->
  Forall chainable (chain_entry pr pc m electrode)
  /\ forall k, (k < List.length m)%nat ->
       (k = Z.to_nat (electrode - 1) \/ in_matrix (nth k m {| map_row := 0; map_col := 0 |})) ->
       in_matrix (nth k (chain_entry pr pc m electrode) {| map_row := 0; map_col := 0 |}).
Proof.
  intros Hpr Hpc Hm. unfold chain_entry, NUM_COLS, NUM_ELECTRODES.
  set (idx := Z.to_nat (electrode - 1)).
  set (e := nth idx m {| map_row := 0; map_col := 0 |}).
  assert (He : chainable e).
  { unfold e. destruct (Nat.ltb_spec idx (List.length m)).
    - rewrite Forall_forall in Hm; apply Hm, nth_In; auto.
    - rewrite nth_overflow by auto. unfold chainable; cbn; lia. }
  destruct He as [H1 [H2 H3]].
  assert (Hu : u16 (map_row e * 14 + map_col e + 1) = map_row e * 14 + map_col e + 1)
    by (unfold u16; apply Z.mod_small; lia).
  rewrite Hu.
  destruct (Z.gtb_spec (map_row e * 14 + map_col e + 1) 0); [|lia].
  destruct (Z.leb_spec (map_row e * 14 + map_col e + 1) 140); [|lia].
  cbn [andb].
  set (new := {| map_row := nth (Z.to_nat (map_row e * 14 + map_col e + 1 - 1)) pr 0;
                 map_col := nth (Z.to_nat (map_row e * 14 + map_col e + 1 - 1)) pc 0 |}).
  assert (Hnew : in_matrix new).
  { unfold in_matrix, new; cbn [map_row map_col].
    split; apply nth_in_range; auto; lia. }
  split.
  - apply Forall_upd; auto. now apply in_matrix_chainable.
  - intros k Hk Hor. rewrite nth_upd.
    destruct (Nat.eqb_spec idx k) as [->|Hne]; cbn [andb].
    + replace (k <? List.length m)%nat with true by (symmetry; apply Nat.ltb_lt; lia).
      exact Hnew.
    + destruct Hor as [->|Hin]; [congruence | exact Hin].
Qed.

Lemma chain_loop pr pc :
  Forall (fun x => 0 <= x < 10) pr -> Forall (fun x => 0 <= x < 14) pc ->
  forall l m,
    Forall chainable m ->
    Forall chainable (fold_left (chain_entry pr pc) l m)
    /\ forall k, (k < List.length m)%nat ->
         (In (Z.of_nat k + 1) l
          \/ in_matrix (nth k m {| map_row := 0; map_col := 0 |})) ->
         in_matrix (nth k (fold_left (chain_entry pr pc) l m)
                        {| map_row := 0; map_col := 0 |}).
Proof.
  intros Hpr Hpc; induction l as [|e l IH]; intros m Hm; cbn [fold_left].
  - split; auto. intros k _ [[]|H]; exact H.
  - destruct (chain_entry_step pr pc m e Hpr Hpc Hm) as [Hm1 Hstep].
    destruct (IH _ Hm1) as [Hm2 Hrest].
    split; auto. intros k Hk Hor.
    apply Hrest; [now rewrite chain_entry_length|].
    destruct Hor as [[He|Hin]|Hin]; auto.
    right. apply Hstep; auto. left. lia.
Qed.

Lemma electrode_entry_u8 openBrace m electrode :
  Forall (fun e => 0 <= map_row e < 256 /\ 0 <= map_col e < 256) m ->
  Forall (fun e => 0 <= map_row e < 256 /\ 0 <= map_col e < 256)
         (electrode_entry openBrace m electrode).
Proof.
  intros Hm. unfold electrode_entry.
  destruct (CStr.strstr openBrace _) as [keyPos|]; auto.
  destruct (findJSONValue keyPos _) as [valuePos|]; auto.
  destruct ((parseJSONInt (Some valuePos) >? 0)
            && (parseJSONInt (Some valuePos) <=? NUM_ELECTRODES)); auto.
  apply Forall_upd; auto. cbn [map_row map_col]. split; apply u8_range.
Qed.

Lemma chain_entry_u8 pr pc m electrode :
  Forall (fun x => 0 <= x < 10) pr -> Forall (fun x => 0 <= x < 14) pc ->
  Forall (fun e => 0 <= map_row e < 256 /\ 0 <= map_col e < 256) m ->
  Forall (fun e => 0 <= map_row e < 256 /\ 0 <= map_col e < 256)
         (chain_entry pr pc m electrode).
Proof.
  intros Hpr Hpc Hm. unfold chain_entry.
  match goal with |- context [if ?c then _ else _] => destruct c end; auto.
  apply Forall_upd; auto. cbn [map_row map_col].
  match goal with
  | |- 0 <= nth ?k pr 0 < 256 /\ 0 <= nth ?k pc 0 < 256 =>
    pose proof (nth_in_range pr k 10 ltac:(lia) Hpr);
    pose proof (nth_in_range pc k 14 ltac:(lia) Hpc)
  end. lia.
Qed.

(** What the two loads keep and what they leave in the table. *)
Lemma load_mappings_effect fs d :
  List.length (electrodeMap d) = 140%nat ->
  List.length (pcieToRow d) = 140%nat -> List.length (pcieToCol d) = 140%nat ->
  forall ok d2,
    load_mappings fs d = (ok, d2) ->
    electrodeState d2 = electrodeState d
    /\ sequenceRunning d2 = sequenceRunning d
    /\ (table_u8 d -> table_u8 d2)
    /\ (ok = true -> Forall chainable (electrodeMap d) ->
        forall k, (k < List.length (electrodeMap d))%nat ->
                  in_matrix (nth k (electrodeMap d2) {| map_row := 0; map_col := 0 |})).
Proof.
  intros Hlm Hpr Hpc ok d2.
  unfold load_mappings, loadElectrodeMap, loadPinMap, readFile.
  assert (Hfail : forall d1 : t,
             electrodeState d1 = electrodeState d ->
             sequenceRunning d1 = sequenceRunning d ->
             (table_u8 d -> table_u8 d1) ->
             forall b, (true && b && false, d1) = (ok, d2) ->
             electrodeState d2 = electrodeState d
             /\ sequenceRunning d2 = sequenceRunning d
             /\ (table_u8 d -> table_u8 d2)
             /\ (ok = true -> Forall chainable (electrodeMap d) ->
                 forall k, (k < List.length (electrodeMap d))%nat ->
                   in_matrix (nth k (electrodeMap d2)
                                  {| map_row := 0; map_col := 0 |}))).
  { intros d1 H1 H2 H3 b E. rewrite andb_false_r in E. injection E as <- <-.
    split; [auto|]. split; [auto|]. split; [auto|].
    intros Hx; discriminate Hx. }
  (* the first load *)
  assert (Hfirst : exists ok1 d1,
             match fs ELECTRODE_MAP_PATH with
             | Some jsonData => parseElectrodeMapJSON d jsonData
             | None => (false, d)
             end = (ok1, d1)
             /\ electrodeState d1 = electrodeState d
             /\ sequenceRunning d1 = sequenceRunning d
             /\ pcieToRow d1 = pcieToRow d /\ pcieToCol d1 = pcieToCol d
             /\ List.length (electrodeMap d1) = List.length (electrodeMap d)
             /\ (table_u8 d -> table_u8 d1)
             /\ (Forall chainable (electrodeMap d) -> Forall chainable (electrodeMap d1))).
  { destruct (fs ELECTRODE_MAP_PATH) as [json|];
      [|exists false, d; repeat split; auto].
    unfold parseElectrodeMapJSON.
    destruct (CStr.strstr json _) as [ms|]; [|exists false, d; repeat split; auto].
    destruct (CStr.strchr ms "{") as [ob|]; [|exists false, d; repeat split; auto].
    eexists; eexists; split; [reflexivity|].
    cbn [electrodeState sequenceRunning pcieToRow pcieToCol electrodeMap with_maps].
    repeat split; auto.
    - apply fold_left_length; intros; apply electrode_entry_length.
    - unfold table_u8; cbn [electrodeMap with_maps]. intros Hu.
      apply (fold_left_inv _ _ _ (fun s x _ H => electrode_entry_u8 ob s x H) _ Hu).
    - intros Hc.
      apply (fold_left_inv _ _ _ (fun s x _ H => electrode_entry_chainable ob s x H) _ Hc). }
  destruct Hfirst as [ok1 [d1 [E1 [Hs1 [Hq1 [Hr1 [Hc1 [Hl1 [Hu1 Hch1]]]]]]]]].
  rewrite E1.
  destruct (fs PIN_MAP_PATH) as [json|];
    [|intros E; exact (Hfail d1 Hs1 Hq1 Hu1 ok1 E)].
  unfold parsePinMapJSON.
  destruct (CStr.strstr json _) as [es|];
    [|intros E; exact (Hfail d1 Hs1 Hq1 Hu1 ok1 E)].
  destruct (CStr.strchr es "{") as [ob|];
    [|intros E; exact (Hfail d1 Hs1 Hq1 Hu1 ok1 E)].
  cbv beta iota zeta. intros E.
  apply pair_equal_spec in E. destruct E as [<- <-].
  destruct (pin_tables_in_matrix ob (pcieToRow d1) (pcieToCol d1)) as [Hpr' Hpc'];
    [congruence | congruence |].
  cbv zeta in Hpr', Hpc'.
  set (tabs := fold_left (pin_entry ob) (list_prod rows cols)
                         (zero_all (pcieToRow d1), zero_all (pcieToCol d1))) in *.
  cbn [electrodeState sequenceRunning electrodeMap with_maps].
  split; [auto|]. split; [auto|]. split.
  - intros Hu. specialize (Hu1 Hu). unfold table_u8 in *.
    cbn [electrodeMap with_maps].
    apply (fold_left_inv _ _ _
             (fun s x _ H => chain_entry_u8 (fst tabs) (snd tabs) s x Hpr' Hpc' H) _ Hu1).
  - intros Hok Hc k Hk.
    destruct (chain_loop (fst tabs) (snd tabs) Hpr' Hpc' electrodes (electrodeMap d1)
                         (Hch1 Hc)) as [_ Hin].
    apply Hin; [lia|]. left.
    unfold electrodes. apply in_map_iff. exists (S k). split; [lia|].
    apply in_seq. lia.
Qed.

Lemma fresh_lengths mem :
  List.length (electrodeMap (fresh mem)) = 140%nat
  /\ List.length (pcieToRow (fresh mem)) = 140%nat
  /\ List.length (pcieToCol (fresh mem)) = 140%nat.
Proof. cbn [fresh electrodeMap pcieToRow pcieToCol]. now rewrite !length_map, length_seq. Qed.

Lemma fresh_table_u8 mem : table_u8 (fresh mem).
Proof.
  unfold table_u8; cbn [fresh electrodeMap]. apply Forall_forall; intros e He.
  apply in_map_iff in He. destruct He as [i [<- _]]. cbn [map_row map_col].
  split; apply u8_range.
Qed.

Lemma default_entry_in_matrix i : (i < 140)%nat -> in_matrix (default_entry i).
Proof.
  intros Hi. unfold in_matrix, default_entry, NUM_COLS; cbn [map_row map_col].
  assert (0 <= Z.of_nat i / 14 < 10)
    by (split; [apply Z.div_pos | apply Z.div_lt_upper_bound]; lia).
  assert (0 <= Z.of_nat i mod 14 < 14) by (apply Z.mod_pos_bound; lia).
  unfold u8. rewrite !Z.mod_small by lia. lia.
Qed.

Lemma default_mapping_u8 m :
  Forall (fun e => 0 <= map_row e < 256 /\ 0 <= map_col e < 256) m ->
  Forall (fun e => 0 <= map_row e < 256 /\ 0 <= map_col e < 256) (default_mapping m).
Proof.
  intros Hm. unfold default_mapping.
  apply (fold_left_inv
           (Forall (fun e => 0 <= map_row e < 256 /\ 0 <= map_col e < 256))); auto.
  intros s i _ Hs. apply Forall_upd; auto. cbn [default_entry map_row map_col].
  split; apply u8_range.
Qed.

(** The object the constructor returns, in terms of the object the two
    loads were given. *)
Lemma ArrayDriver_cases fs mem :
  exists ok d,
    load_mappings fs (fresh mem) = (ok, d)
    /\ ArrayDriver fs mem
       = if ok then d
         else with_maps d (default_mapping (electrodeMap d)) (pcieToRow d) (pcieToCol d).
Proof.
  unfold ArrayDriver. destruct (load_mappings fs (fresh mem)) as [ok d].
  exists ok, d. split; [reflexivity|]. now destruct ok.
Qed.

Lemma ArrayDriver_state fs mem :
  electrodeState (ArrayDriver fs mem) = repeat (repeat false 14) 10
  /\ sequenceRunning (ArrayDriver fs mem) = false.
Proof.
  destruct (ArrayDriver_cases fs mem) as [ok [d [E ->]]].
  destruct (fresh_lengths mem) as [Hm [Hr Hc]].
  destruct (load_mappings_effect fs (fresh mem) Hm Hr Hc ok d E) as [Hs [Hq _]].
  destruct ok; cbn [electrodeState sequenceRunning with_maps]; rewrite Hs, Hq;
    split; reflexivity.
Qed.

Lemma ArrayDriver_wf fs mem : wf (ArrayDriver fs mem).
Proof.
  split; [|apply electrodeMap_length].
  destruct (ArrayDriver_state fs mem) as [-> _].
  split; [reflexivity|]. apply Forall_forall; intros r Hr.
  apply repeat_spec in Hr; subst r. reflexivity.
Qed.

Lemma ArrayDriver_table_u8 fs mem : table_u8 (ArrayDriver fs mem).
Proof.
  destruct (ArrayDriver_cases fs mem) as [ok [d [E ->]]].
  destruct (fresh_lengths mem) as [Hm [Hr Hc]].
  destruct (load_mappings_effect fs (fresh mem) Hm Hr Hc ok d E) as [_ [_ [Hu _]]].
  specialize (Hu (fresh_table_u8 mem)).
  destruct ok; [exact Hu|].
  unfold table_u8; cbn [electrodeMap with_maps]. now apply default_mapping_u8.
Qed.

Lemma ArrayDriver_in_matrix fs mem k :
  Forall chainable (electrodeMap (fresh mem)) -> (k < 140)%nat ->
  in_matrix (nth k (electrodeMap (ArrayDriver fs mem)) {| map_row := 0; map_col := 0 |}).
Proof.
  intros Hch Hk.
  destruct (ArrayDriver_cases fs mem) as [ok [d [E ->]]].
  destruct (fresh_lengths mem) as [Hm [Hr Hc]].
  destruct (load_mappings_effect fs (fresh mem) Hm Hr Hc ok d E) as [_ [_ [_ Hin]]].
  destruct ok.
  - apply Hin; auto; rewrite Hm; exact Hk.
  - cbn [electrodeMap with_maps].
    pose proof (load_mappings_length fs (fresh mem)) as Hl.
    rewrite E in Hl. cbn [snd] in Hl.
    rewrite default_mapping_nth by congruence.
    now apply default_entry_in_matrix.
Qed.

(** X6. Whatever the mapping files hold and whatever the memory held, the
    constructor returns a driver with its 10x14 state array and its table of
    140 entries, each entry a pair of [uint8_t] values, every electrode
    recorded low and no sequence running: neither load touches the state
    array or the engine. *)
Theorem constructor_establishes (fs : FileSystem) (mem : Storage) :
  wf (ArrayDriver fs mem)
  /\ table_u8 (ArrayDriver fs mem)
  /\ getPattern (ArrayDriver fs mem) = repeat (repeat false 14) 10
  /\ isSequenceRunning (ArrayDriver fs mem) = false.
Proof.
  split; [apply ArrayDriver_wf|]. split; [apply ArrayDriver_table_u8|].
  destruct (ArrayDriver_state fs mem) as [Hs Hq].
  unfold getPattern, isSequenceRunning. rewrite Hs, Hq. split; reflexivity.
Qed.

(** X7. When the memory of the object held entries that stand for pins 1 to
    140 before the constructor ran (zeroed storage does: every entry is pin
    1), every electrode number from 1 to 140 resolves to a cell of the
    matrix, whatever the two files contain: either a load fails and the
    table is the default one, or the chaining loop of [parsePinMapJSON]
    rewrites all 140 entries from pin tables that hold rows below 10 and
    columns below 14. *)
Theorem constructor_resolves_in_matrix (fs : FileSystem) (mem : Storage)
        (n row col : Z) :
  Forall chainable (electrodeMap (fresh mem)) ->
  1 <= n <= 140 ->
  exists r c,
    getRowColFromElectrode (ArrayDriver fs mem) n row col = (true, r, c)
    /\ 0 <= r < 10 /\ 0 <= c < 14.
Proof.
  intros Hch Hn.
  pose proof (ArrayDriver_in_matrix fs mem (Z.to_nat (n - 1)) Hch ltac:(lia)) as Hin.
  unfold getRowColFromElectrode, NUM_ELECTRODES.
  destruct (Z.ltb_spec n 1); [lia|]. destruct (Z.gtb_spec n 140); [lia|].
  cbn [orb]. do 2 eexists. split; [reflexivity|]. exact Hin.
Qed.

Lemma constructor_resolves_in_matrix_witness :
  exists r c,
    getRowColFromElectrode (ArrayDriver Demo.partial_files Demo.zeroed) 15 0 0
    = (true, r, c)
    /\ 0 <= r < 10 /\ 0 <= c < 14.
Proof.
  apply (constructor_resolves_in_matrix Demo.partial_files Demo.zeroed 15 0 0); [|lia].
  apply Forall_forall; intros e He. cbn [fresh electrodeMap] in He.
  apply in_map_iff in He. destruct He as [i [<- _]].
  unfold chainable; cbn. lia.
Defined.

Lemma runElectrodeSequenceTest_leaves_low_witness :
  snd (runElectrodeSequenceTest Demo.driver [15; 0; 16] 100)
  = flat_map (pulse_events Demo.driver 100) [15; 0; 16]
  /\ getElectrodeState (fst (runElectrodeSequenceTest Demo.driver [15; 0; 16] 100)) 1 0
     = false.
Proof.
  destruct (runElectrodeSequenceTest_leaves_low
              Demo.driver [15; 0; 16] 100
              (ArrayDriver_wf Demo.no_files Demo.zeroed)
              (ArrayDriver_table_u8 Demo.no_files Demo.zeroed)) as [_ [_ [Hev Hc]]].
  split; [exact Hev|]. rewrite Hc by lia. reflexivity.
Defined.

End Constructor.

(** ** The electrode map file *)

Section ElectrodeMapFile.

Import ArrayDriver Extra.

Lemma has_qq_eq a b r :
  has_qq (String a (String b r))
  = ((a =? "034")%char && (b =? "034")%char) || has_qq (String b r).
Proof. reflexivity. Qed.

Lemma has_qq_prefix lit : forall s,
  CStr.starts_with lit s = true -> has_qq lit = true -> has_qq s = true.
Proof.
  induction lit as [|a lit IH]; intros s Hs Hq; [discriminate|].
  destruct s as [|b s]; [discriminate|].
  cbn [CStr.starts_with] in Hs. apply andb_true_iff in Hs. destruct Hs as [Hab Hs].
  apply Ascii.eqb_eq in Hab; subst b.
  destruct lit as [|a' lit]; [discriminate|].
  destruct s as [|b' s]; [discriminate|].
  pose proof Hs as Hs'.
  cbn [CStr.starts_with] in Hs'. apply andb_true_iff in Hs'. destruct Hs' as [Hab' _].
  apply Ascii.eqb_eq in Hab'; subst b'.
  rewrite has_qq_eq in Hq |- *. apply orb_true_iff in Hq. apply orb_true_iff.
  destruct Hq as [Hq | Hq]; [now left | right; now apply IH].
Qed.

Lemma has_qq_tail c s : has_qq s = true -> has_qq (String c s) = true.
Proof.
  intros H. destruct s as [|b s]; [discriminate|].
  rewrite has_qq_eq. apply orb_true_iff. now right.
Qed.

Lemma has_qq_strstr needle : forall s r,
  CStr.strstr s needle = Some r -> has_qq needle = true -> has_qq s = true.
Proof.
  induction s as [|c s IH]; intros r Hs Hq; cbn [CStr.strstr] in Hs.
  - destruct (CStr.starts_with needle "") eqn:E; [|discriminate].
    now apply (has_qq_prefix needle).
  - destruct (CStr.starts_with needle (String c s)) eqn:E.
    + now apply (has_qq_prefix needle).
    + apply has_qq_tail. now apply (IH r).
Qed.

Lemma has_qq_suffix_strstr needle : forall s r,
  CStr.strstr s needle = Some r -> has_qq r = true -> has_qq s = true.
Proof.
  induction s as [|c s IH]; intros r Hs Hq; cbn [CStr.strstr] in Hs.
  - destruct (CStr.starts_with needle ""); [|discriminate].
    now inversion Hs; subst.
  - destruct (CStr.starts_with needle (String c s)).
    + now inversion Hs; subst.
    + apply has_qq_tail. now apply (IH r).
Qed.

Lemma has_qq_suffix_strchr c : forall s r,
  CStr.strchr s c = Some r -> has_qq r = true -> has_qq s = true.
Proof.
  induction s as [|a s IH]; intros r Hs Hq; cbn [CStr.strchr] in Hs; [discriminate|].
  destruct (a =? c)%char.
  - now inversion Hs; subst.
  - apply has_qq_tail. now apply (IH r).
Qed.

(** The text [findJSONValue] looks for, for each of the 140 keys the loop of
    [parseElectrodeMapJSON] passes: the key is passed from its second
    character on, closing quote included, and [findJSONValue] puts it between
    quotes again. *)
Lemma search_text_has_qq :
  forallb (fun electrode =>
             has_qq (snprintf 64
                       (CStr.dquote
                          +++ tail_string
                                (snprintf 16 (CStr.dquote +++ CStr.dec electrode
                                                +++ CStr.dquote))
                          +++ CStr.dquote)))
          electrodes = true.
Proof. vm_compute. reflexivity. Qed.

Lemma electrode_entry_unread openBrace m electrode :
  has_qq openBrace = false -> In electrode electrodes ->
  electrode_entry openBrace m electrode = m.
Proof.
  intros Hq Hin. unfold electrode_entry. cbv zeta.
  destruct (CStr.strstr openBrace _) as [keyPos|] eqn:Ek; [|reflexivity].
  unfold findJSONValue. cbv zeta.
  destruct (CStr.strstr keyPos _) as [vp|] eqn:Ev; [|reflexivity].
  exfalso.
  pose proof search_text_has_qq as Hs. rewrite forallb_forall in Hs.
  specialize (Hs electrode Hin).
  apply (has_qq_strstr _ _ _ Ev) in Hs.
  apply (has_qq_suffix_strstr _ _ _ Ek) in Hs. congruence.
Qed.

Lemma with_maps_same d : with_maps d (electrodeMap d) (pcieToRow d) (pcieToCol d) = d.
Proof. now destruct d. Qed.

Lemma fold_left_unchanged {S B : Type} (F : S -> B -> S) (l : list B) (s : S) :
  (forall x, In x l -> F s x = s) -> fold_left F l s = s.
Proof.
  induction l as [|x l IH]; intros H; cbn [fold_left]; auto.
  rewrite (H x) by now left. apply IH. intros y Hy. apply H. now right.
Qed.

(** The loop of [parseElectrodeMapJSON] on such a text changes nothing. *)
Lemma parseElectrodeMapJSON_unread d json :
  has_qq json = false ->
  parseElectrodeMapJSON d json = (fst (parseElectrodeMapJSON d json), d).
Proof.
  intros Hq. unfold parseElectrodeMapJSON.
  destruct (CStr.strstr json _) as [ms|] eqn:Em; [|reflexivity].
  destruct (CStr.strchr ms "{") as [ob|] eqn:Eo; [|reflexivity].
  cbn [fst].
  assert (Hob : has_qq ob = false).
  { destruct (has_qq ob) eqn:E; [|reflexivity].
    apply (has_qq_suffix_strchr _ _ _ Eo) in E.
    apply (has_qq_suffix_strstr _ _ _ Em) in E. congruence. }
  rewrite fold_left_unchanged; [now rewrite with_maps_same|].
  intros e He. now apply electrode_entry_unread.
Qed.

(** X8. [parseElectrodeMapJSON] stores no entry of a text that nowhere holds
    two double quotes in a row, and no JSON object of numbers does: it
    leaves the driver as it was, whatever the file lists.  The key is handed
    to [findJSONValue] with its closing quote, and [findJSONValue] adds the
    quotes a second time. *)
Theorem parseElectrodeMapJSON_stores_nothing (d : t) (jsonData : string) :
  has_qq jsonData = false ->
  snd (parseElectrodeMapJSON d jsonData) = d.
Proof. intros Hq. now rewrite parseElectrodeMapJSON_unread. Qed.

Lemma parseElectrodeMapJSON_stores_nothing_witness :
  snd (parseElectrodeMapJSON Demo.driver
         ("{" +++ CStr.dquote +++ "mapping" +++ CStr.dquote +++ ": {"
              +++ CStr.dquote +++ "1" +++ CStr.dquote +++ ": 3, "
              +++ CStr.dquote +++ "2" +++ CStr.dquote +++ ": 1}}"))
  = Demo.driver.
Proof.
  apply parseElectrodeMapJSON_stores_nothing. reflexivity.
Defined.

End ElectrodeMapFile.

Section LineRoundTrip.

Import CStr UartCommandHandler Extra.

Variable overlapped : string -> string.

Ltac split_cases :=
  repeat match goal with
         | |- context [match ?x with _ => _ end] => destruct x
         end.

Lemma executeSequence_buffer h b i c reps delay n ids durs :
  executeSequence (with_buffer h b i c) reps delay n ids durs
  = match executeSequence h reps delay n ids durs with
    | None => None
    | Some (h1, tr) => Some (with_buffer h1 b i c, tr)
    end.
Proof.
  unfold executeSequence, deref.
  cbn [arrayDriver sequenceSteps currentSequence with_buffer with_sequence].
  destruct (build_steps _ _ _ _ _ _) as [[[|] arr]|]; try reflexivity.
  match goal with
  | |- context [ArrayDriver.executeSequence ?d ?s] =>
    destruct (ArrayDriver.executeSequence d s) as [[d1 tr1]|]
  end; reflexivity.
Qed.

Lemma parseElectrodeCommand_buffer h b i c cmd :
  parseElectrodeCommand overlapped (with_buffer h b i c) cmd
  = match parseElectrodeCommand overlapped h cmd with
    | None => None
    | Some (h1, tr) => Some (with_buffer h1 b i c, tr)
    end.
Proof.
  unfold parseElectrodeCommand. cbv zeta.
  destruct (negb (starts_with "START|" cmd)); [reflexivity|].
  destruct ((atoi (drop 6 cmd) <? 1) || (atoi (drop 6 cmd) >? 1000)); [reflexivity|].
  destruct (strchr (drop 6 cmd) "|") as [p1|]; [|reflexivity].
  destruct (atoi (ArrayDriver.tail_string p1) <? 0); [reflexivity|].
  destruct (strchr (ArrayDriver.tail_string p1) "|") as [p2|]; [|reflexivity].
  destruct ((atoi (ArrayDriver.tail_string p2) <? 1)
            || (atoi (ArrayDriver.tail_string p2) >? MAX_STEPS)); [reflexivity|].
  destruct (strchr (ArrayDriver.tail_string p2) "|") as [p3|]; [|reflexivity].
  destruct (parse_steps _ _ _ _ _ _ _) as [reply | ids durs |]; try reflexivity.
  rewrite executeSequence_buffer.
  now destruct (executeSequence h _ _ _ ids durs) as [[h1 tr]|].
Qed.

Lemma parseCommand_buffer h b i c line :
  parseCommand overlapped (with_buffer h b i c) line
  = match parseCommand overlapped h line with
    | None => None
    | Some (h1, tr) => Some (with_buffer h1 b i c, tr)
    end.
Proof.
  unfold parseCommand. cbv zeta.
  destruct (skip_blanks line) as [|a cmd]; [reflexivity|].
  destruct (starts_with "START|" _); [apply parseElectrodeCommand_buffer|].
  unfold parseSingleElectrodeCommand, parseAllElectrodesCommand, parseRowCommand,
    parseColCommand, parseTestCommand, parseStatusCommand, parseStopCommand,
    parseGetStateCommand, parseReloadMappingCommand.
  cbv zeta. cbn [arrayDriver with_buffer].
  split_cases; reflexivity.
Qed.

Lemma run_app h a : forall b0,
  run overlapped h (a ++ b0)
  = match run overlapped h a with
    | None => None
    | Some (h1, tr1) =>
      match run overlapped h1 b0 with
      | None => None
      | Some (h2, tr2) => Some (h2, tr1 ++ tr2)
      end
    end.
Proof.
  revert h; induction a as [|x a IH]; intros h b0; cbn [run app].
  - now destruct (run overlapped h b0) as [[h2 tr2]|].
  - destruct (match x with
              | Rx byte => Some (processByte h byte)
              | Poll => processCommands overlapped h
              end) as [[h1 tr1]|]; [|reflexivity].
    rewrite IH. destruct (run overlapped h1 a) as [[h2 tr2]|]; [|reflexivity].
    destruct (run overlapped h2 b0) as [[h3 tr3]|]; [|reflexivity].
    now rewrite app_assoc.
Qed.

Lemma upd_app {A : Type} (p : list A) (x y : A) (rest : list A) :
  upd (p ++ x :: rest) (List.length p) y = p ++ y :: rest.
Proof. induction p as [|a p IH]; cbn [app List.length upd]; [reflexivity | now rewrite IH]. Qed.

Lemma with_buffer_same h : with_buffer h (cmdBuffer h) (cmdBufferIndex h) (cmdComplete h) = h.
Proof. now destruct h. Qed.

Lemma line_char_spec c :
  line_char c = true ->
  (c =? "010")%char = false /\ (c =? "013")%char = false /\ (c =? NUL)%char = false.
Proof.
  unfold line_char. intros H. apply negb_true_iff in H.
  apply orb_false_iff in H. destruct H as [H H3].
  apply orb_false_iff in H. destruct H as [H1 H2]. auto.
Qed.

(** The bytes of a line are stored one after the other from the write
    index on. *)
Lemma rx_bytes l : forall h p rest,
  cmdBuffer h = p ++ rest ->
  cmdBufferIndex h = Z.of_nat (List.length p) ->
  (List.length p + String.length l <= 2047)%nat ->
  (String.length l <= List.length rest)%nat ->
  plain l = true ->
  run overlapped h (rx l)
  = Some (with_buffer h ((p ++ bytes_of l) ++ skipn (String.length l) rest)
                      (Z.of_nat (List.length p + String.length l)) (cmdComplete h),
          []).
Proof.
  induction l as [|c l IH]; intros h p rest Hb Hi Hlen Hrest Hp.
  - cbn [rx bytes_of map run String.length skipn].
    rewrite app_nil_r, Nat.add_0_r, <- Hb, <- Hi, with_buffer_same. reflexivity.
  - cbn [plain] in Hp. apply andb_true_iff in Hp. destruct Hp as [Hc Hp].
    destruct (line_char_spec c Hc) as [H1 [H2 _]].
    cbn [String.length] in Hlen, Hrest.
    destruct rest as [|x rest]; [cbn [List.length] in Hrest; lia|].
    cbn [List.length] in Hrest.
    unfold rx; cbn [bytes_of map run]. fold (rx l).
    unfold processByte, UART_CMD_BUFFER_SIZE.
    destruct (Z.geb_spec (cmdBufferIndex h) (2048 - 1)); [lia|].
    rewrite H1, H2. cbn [orb].
    rewrite Hb, Hi, Nat2Z.id, upd_app.
    assert (Hu : u16 (Z.of_nat (List.length p) + 1) = Z.of_nat (List.length (p ++ [c]))).
    { rewrite length_app. cbn [List.length]. unfold u16. rewrite Z.mod_small; lia. }
    rewrite Hu.
    rewrite (IH _ (p ++ [c]) rest).
    + cbn [app]. unfold with_buffer; cbn [arrayDriver cmdComplete sequenceSteps currentSequence].
      rewrite <- !app_assoc. cbn [app String.length skipn].
      rewrite length_app. cbn [List.length].
      replace (List.length p + 1 + String.length l)%nat
        with (List.length p + S (String.length l))%nat by lia.
      reflexivity.
    + cbn [cmdBuffer with_buffer]. now rewrite <- app_assoc.
    + reflexivity.
    + rewrite length_app; cbn [List.length]; lia.
    + lia.
    + exact Hp.
Qed.

Lemma cstring_bytes l rest :
  plain l = true -> cstring (bytes_of l ++ NUL :: rest) = Some l.
Proof.
  induction l as [|c l IH]; intros Hp; cbn [bytes_of app cstring].
  - reflexivity.
  - cbn [plain] in Hp. apply andb_true_iff in Hp. destruct Hp as [Hc Hp].
    destruct (line_char_spec c Hc) as [_ [_ H3]]. rewrite H3. now rewrite IH.
Qed.

Lemma skipn_nonempty {A : Type} (n : nat) (l : list A) :
  (n < List.length l)%nat -> exists x r, skipn n l = x :: r.
Proof.
  revert l; induction n as [|n IH]; intros [|a l] H; cbn [List.length] in H; try lia.
  - now exists a, l.
  - cbn [skipn]. apply IH. lia.
Qed.

Lemma length_bytes_of l : List.length (bytes_of l) = String.length l.
Proof. induction l as [|c l IH]; cbn [bytes_of List.length String.length]; auto. Qed.

Lemma bytes_of_append a b : bytes_of (a +++ b) = bytes_of a ++ bytes_of b.
Proof. induction a as [|c a IH]; cbn [String.append bytes_of app]; [auto | now rewrite IH]. Qed.

Lemma plain_append a b : plain a = true -> plain b = true -> plain (a +++ b) = true.
Proof.
  induction a as [|c a IH]; intros Ha Hb; cbn [String.append plain] in *; auto.
  apply andb_true_iff in Ha. destruct Ha as [Hc Ha]. rewrite Hc. cbn [andb]. auto.
Qed.

(** A line end that follows the bytes of a line puts the NUL after them and
    marks the command complete. *)
Lemma rx_line l e h p rest :
  cmdBuffer h = p ++ rest ->
  cmdBufferIndex h = Z.of_nat (List.length p) ->
  (1 <= List.length p + String.length l <= 2046)%nat ->
  (String.length l < List.length rest)%nat ->
  plain l = true -> line_end e = true ->
  exists tail,
    run overlapped h (rx l ++ [Rx e])
    = Some (with_buffer h ((p ++ bytes_of l) ++ NUL :: tail)
                        (Z.of_nat (List.length p + String.length l)) true, [])
    /\ (List.length tail + String.length l + 1 = List.length rest)%nat.
Proof.
  intros Hb Hi Hlen Hrest Hp He.
  destruct (skipn_nonempty (String.length l) rest Hrest) as [x [tail Hs]].
  exists tail. split.
  - rewrite run_app, (rx_bytes l h p rest Hb Hi) by (auto; lia).
    rewrite Hs. cbn [run].
    unfold processByte, UART_CMD_BUFFER_SIZE. cbn [cmdBufferIndex cmdBuffer with_buffer].
    destruct (Z.geb_spec (Z.of_nat (List.length p + String.length l)) (2048 - 1)); [lia|].
    unfold line_end in He. rewrite He.
    destruct (Z.gtb_spec (Z.of_nat (List.length p + String.length l)) 0); [|lia].
    rewrite Nat2Z.id.
    rewrite <- (upd_app (p ++ bytes_of l) x NUL tail), length_app, length_bytes_of.
    reflexivity.
  - assert (Hl : List.length (skipn (String.length l) rest)
                 = (List.length rest - String.length l)%nat) by apply length_skipn.
    rewrite Hs in Hl. cbn [List.length] in Hl. lia.
Qed.

(** What a poll does with a complete line in the buffer. *)
Lemma poll_dispatches h buf index l :
  cstring buf = Some l ->
  run overlapped (with_buffer h buf index true) [Poll]
  = match parseCommand overlapped h l with
    | None => None
    | Some (h1, tr) => Some (with_buffer h1 empty_buffer 0 false, tr)
    end.
Proof.
  intros Hc. cbn [run]. unfold processCommands.
  cbn [cmdComplete cmdBuffer with_buffer negb]. rewrite Hc, parseCommand_buffer.
  destruct (parseCommand overlapped h l) as [[h1 tr]|]; [|reflexivity].
  now rewrite app_nil_r.
Qed.

(** X9. A line of 1 to 2046 characters, none of them a line end or a NUL,
    received from an empty line on and followed by a line end and a poll, is
    dispatched as it was sent: the result is that of [parseCommand] on the
    line, whatever the buffer held from earlier traffic, and the buffer is
    cleared afterwards. *)
Theorem line_is_dispatched_intact (h : t) (l : string) (e : ascii) :
  List.length (cmdBuffer h) = 2048%nat -> cmdBufferIndex h = 0 ->
  plain l = true -> line_end e = true ->
  (1 <= String.length l <= 2046)%nat ->
  run overlapped h (rx l ++ [Rx e; Poll])
  = match parseCommand overlapped h l with
    | None => None
    | Some (h1, tr) => Some (with_buffer h1 empty_buffer 0 false, tr)
    end.
Proof.
  intros Hb Hi Hp He Hlen.
  destruct (rx_line l e h [] (cmdBuffer h)) as [tail [Hrun _]];
    auto; cbn [List.length]; try lia.
  change (rx l ++ [Rx e; Poll]) with (rx l ++ [Rx e] ++ [Poll]).
  rewrite app_assoc, run_app, Hrun. cbn [app].
  rewrite (poll_dispatches h _ _ l) by (now apply cstring_bytes).
  now destruct (parseCommand overlapped h l) as [[h1 tr]|].
Qed.

(** X10. A line end that is not followed by a poll is lost: the bytes of
    the next line overwrite the NUL, and the two lines are dispatched as
    one command, the first line immediately followed by the second. *)
Theorem unpolled_lines_are_joined (h : t) (l1 l2 : string) (e1 e2 : ascii) :
  List.length (cmdBuffer h) = 2048%nat -> cmdBufferIndex h = 0 ->
  plain l1 = true -> plain l2 = true ->
  line_end e1 = true -> line_end e2 = true ->
  (1 <= String.length l1)%nat -> (String.length l1 + String.length l2 <= 2046)%nat ->
  run overlapped h (rx l1 ++ [Rx e1] ++ rx l2 ++ [Rx e2; Poll])
  = match parseCommand overlapped h (l1 +++ l2) with
    | None => None
    | Some (h1, tr) => Some (with_buffer h1 empty_buffer 0 false, tr)
    end.
Proof.
  intros Hb Hi Hp1 Hp2 He1 He2 Hl1 Hlen.
  destruct (rx_line l1 e1 h [] (cmdBuffer h)) as [tail [Hrun1 Ht]];
    auto; cbn [List.length]; try lia.
  cbn [app List.length Nat.add] in Hrun1.
  rewrite app_assoc, run_app, Hrun1.
  destruct (rx_line l2 e2
              (with_buffer h (bytes_of l1 ++ NUL :: tail) (Z.of_nat (String.length l1)) true)
              (bytes_of l1) (NUL :: tail)) as [tail2 [Hrun2 _]];
    auto; rewrite ?length_bytes_of; cbn [List.length]; try reflexivity; try lia.
  change (rx l2 ++ [Rx e2; Poll]) with (rx l2 ++ [Rx e2] ++ [Poll]).
  rewrite app_assoc, run_app, Hrun2. cbn [app].
  unfold with_buffer at 1. cbn [arrayDriver sequenceSteps currentSequence with_buffer].
  fold (with_buffer h ((bytes_of l1 ++ bytes_of l2) ++ NUL :: tail2)
                    (Z.of_nat (List.length (bytes_of l1) + String.length l2)) true).
  rewrite (poll_dispatches h _ _ (l1 +++ l2)).
  - now destruct (parseCommand overlapped h (l1 +++ l2)) as [[h1 tr]|].
  - rewrite <- bytes_of_append. apply cstring_bytes. now apply plain_append.
Qed.

(** X11. A line of 2047 characters is not dispatched although the buffer
    has room for it and its NUL: the index test of [processByte] comes before
    the test for the line end, so the line end itself is answered with the
    overflow error, the index goes back to zero and nothing is marked
    complete. *)
Theorem line_of_2047_is_dropped (h : t) (l : string) (e : ascii) :
  List.length (cmdBuffer h) = 2048%nat -> cmdBufferIndex h = 0 ->
  cmdComplete h = false ->
  plain l = true -> String.length l = 2047%nat ->
  exists buf,
    run overlapped h (rx l ++ [Rx e; Poll])
    = Some (with_buffer h buf 0 false, sendError "Buffer overflow").
Proof.
  intros Hb Hi Hc Hp Hlen.
  eexists. rewrite run_app.
  rewrite (rx_bytes l h [] (cmdBuffer h)); auto; cbn [List.length]; try lia.
  cbn [run]. rewrite processByte_overflow by (cbn [cmdBufferIndex with_buffer]; lia).
  unfold processCommands. cbn [cmdComplete cmdBuffer with_buffer].
  rewrite Hc. cbn [negb app]. unfold with_buffer at 1.
  cbn [arrayDriver sequenceSteps currentSequence with_buffer].
  reflexivity.
Qed.

End LineRoundTrip.

Section LineExamples.

Import CStr UartCommandHandler Extra.

Lemma line_is_dispatched_intact_witness :
  run Demo.overlapped Demo.handler (rx "STATUS" ++ [Rx "010"%char; Poll])
  = match parseCommand Demo.overlapped Demo.handler "STATUS" with
    | None => None
    | Some (h1, tr) => Some (with_buffer h1 empty_buffer 0 false, tr)
    end.
Proof.
  apply line_is_dispatched_intact;
    [reflexivity | reflexivity | reflexivity | reflexivity | cbn; lia].
Defined.

Lemma unpolled_lines_are_joined_witness :
  run Demo.overlapped Demo.handler
      (rx "ALL|" ++ [Rx "010"%char] ++ rx "1" ++ [Rx "010"%char; Poll])
  = match parseCommand Demo.overlapped Demo.handler ("ALL|" +++ "1") with
    | None => None
    | Some (h1, tr) => Some (with_buffer h1 empty_buffer 0 false, tr)
    end.
Proof.
  apply unpolled_lines_are_joined;
    [reflexivity | reflexivity | reflexivity | reflexivity | reflexivity | reflexivity
     | cbn; lia | cbn; lia].
Defined.

Lemma line_of_2047_is_dropped_witness :
  exists buf,
    run Demo.overlapped Demo.handler
        (rx (String.concat "" (repeat "A" 2047)) ++ [Rx "010"%char; Poll])
    = Some (with_buffer Demo.handler buf 0 false, sendError "Buffer overflow").
Proof.
  apply line_of_2047_is_dropped;
    [reflexivity | reflexivity | reflexivity | vm_compute; reflexivity
     | vm_compute; reflexivity].
Defined.

End LineExamples.

(** ** What the handler never does *)

Section Kept.

Import ArrayDriver Extra.

Lemma kept_refl d : kept d d.
Proof. unfold kept; auto. Qed.

Lemma kept_trans d1 d2 d3 : kept d1 d2 -> kept d2 d3 -> kept d1 d3.
Proof.
  unfold kept; intros [H1 [H2 H3]] [H4 [H5 H6]].
  split; [auto|]. split; [congruence | auto].
Qed.

Lemma setElectrode_kept d r c s : kept d (fst (setElectrode d r c s)).
Proof.
  unfold setElectrode.
  destruct ((r >=? NUM_ROWS) || (c >=? NUM_COLS)); cbn [fst]; [apply kept_refl|].
  unfold kept; cbn [electrodeState electrodeMap sequenceRunning with_electrodeState].
  split; [apply wf_state_set_cell|]. split; auto.
Qed.

Lemma each_kept {A : Type} (body : t -> A -> t * list event) (l : list A) :
  (forall d x, kept d (fst (body d x))) -> forall d, kept d (fst (each body l d)).
Proof.
  intros Hb; induction l as [|x l IH]; intros d.
  - rewrite each_nil. apply kept_refl.
  - rewrite each_cons. cbn [fst]. eapply kept_trans; [apply Hb | apply IH].
Qed.

Lemma setElectrodeByNumber_kept d n s : kept d (fst (setElectrodeByNumber d n s)).
Proof.
  unfold setElectrodeByNumber.
  destruct (getRowColFromElectrode d n 0 0) as [[[|] r] c];
    [apply setElectrode_kept | apply kept_refl].
Qed.

Lemma fill_kept d v : kept d (with_electrodeState d (fill_state (electrodeState d) v)).
Proof.
  unfold kept; cbn [electrodeState electrodeMap sequenceRunning with_electrodeState].
  split; [intros H; now apply fill_state_cell|]. split; auto.
Qed.

Lemma setRowElectrodes_kept d r s : kept d (fst (setRowElectrodes d r s)).
Proof.
  unfold setRowElectrodes. destruct (r >=? NUM_ROWS); [apply kept_refl|].
  apply each_kept. intros; apply setElectrode_kept.
Qed.

Lemma setColElectrodes_kept d c s : kept d (fst (setColElectrodes d c s)).
Proof.
  unfold setColElectrodes. destruct (c >=? NUM_COLS); [apply kept_refl|].
  apply each_kept. intros; apply setElectrode_kept.
Qed.

Lemma pulse_kept dur d n : kept d (fst (pulse dur d n)).
Proof.
  unfold pulse, setElectrodeHighByNumber, setElectrodeLowByNumber.
  pose proof (setElectrodeByNumber_kept d n true) as H1.
  destruct (setElectrodeByNumber d n true) as [d1 tr1]. cbn [fst] in H1.
  pose proof (setElectrodeByNumber_kept d1 n false) as H2.
  destruct (setElectrodeByNumber d1 n false) as [d2 tr2]. cbn [fst] in *.
  eapply kept_trans; eauto.
Qed.

Lemma runElectrodeTest_kept d : kept d (fst (runElectrodeTest d)).
Proof. unfold runElectrodeTest. apply each_kept. intros; apply pulse_kept. Qed.

Lemma run_steps_kept arr n : forall step d d' tr,
  run_steps arr n step d = Some (d', tr) -> kept d d'.
Proof.
  induction n as [|n IH]; intros step d d' tr H; cbn [run_steps] in H.
  - inversion H; subst. apply kept_refl.
  - destruct (nth_error arr step) as [st|]; [|discriminate].
    pose proof (setElectrode_kept d (row st) (col st) (state st)) as H1.
    destruct (setElectrode d (row st) (col st) (state st)) as [d1 tr1].
    cbn [fst] in H1.
    destruct (run_steps arr n (S step) d1) as [[d2 tr2]|] eqn:E; [|discriminate].
    inversion H; subst. eapply kept_trans; [exact H1 | eapply IH; eauto].
Qed.

Lemma run_cycles_kept s arr n : forall cycle d d' tr,
  run_cycles s arr n cycle d = Some (d', tr) -> kept d d'.
Proof.
  induction n as [|n IH]; intros cycle d d' tr H; cbn [run_cycles] in H.
  - inversion H; subst. apply kept_refl.
  - destruct (run_steps arr (Z.to_nat (numSteps s)) 0 d) as [[d1 tr1]|] eqn:E1;
      [|discriminate].
    destruct (run_cycles s arr n (cycle + 1) d1) as [[d2 tr2]|] eqn:E2; [|discriminate].
    inversion H; subst.
    eapply kept_trans; [eapply run_steps_kept; eauto | eapply IH; eauto].
Qed.

Lemma executeSequence_kept d sequence d' tr :
  executeSequence d sequence = Some (d', tr) -> kept d d'.
Proof.
  unfold executeSequence. intros H.
  destruct sequence as [s|]; [|inversion H; subst; apply kept_refl].
  destruct (steps s) as [arr|]; [|inversion H; subst; apply kept_refl].
  eapply run_cycles_kept; eauto.
Qed.

Lemma stopSequence_kept d : kept d (stopSequence d).
Proof.
  unfold kept, stopSequence; cbn [electrodeState electrodeMap sequenceRunning]. auto.
Qed.

End Kept.

Section Handled.

Import CStr UartCommandHandler Extra.

Variable overlapped : string -> string.

Lemma handled_refl h : handled h h.
Proof. unfold handled. do 4 (split; [reflexivity|]). apply kept_refl. Qed.

Lemma handled_with_driver h d :
  kept (arrayDriver h) d -> handled h (with_driver h d).
Proof.
  intros H. unfold handled.
  cbn [cmdBuffer cmdBufferIndex cmdComplete sequenceSteps arrayDriver with_driver].
  do 4 (split; [reflexivity|]). exact H.
Qed.

Lemma build_steps_length d ids durs : forall k i arr ok arr',
  build_steps d ids durs k i arr = Some (ok, arr') -> List.length arr' = List.length arr.
Proof.
  induction k as [|k IH]; intros i arr ok arr' H; cbn [build_steps] in H.
  - now inversion H.
  - destruct (nth_error ids i); [|discriminate].
    destruct (nth_error durs i); [|discriminate].
    destruct (nth_error arr i); [|discriminate].
    destruct (ArrayDriver.getRowColFromElectrode d _ 0 0) as [[[|] r] c].
    + apply IH in H. now rewrite upd_length in H.
    + now inversion H.
Qed.

Lemma executeSequence_handled h reps delay n ids durs h' tr :
  executeSequence h reps delay n ids durs = Some (h', tr) -> handled h h'.
Proof.
  unfold executeSequence. intros H.
  destruct (build_steps _ _ _ _ _ _) as [[ok arr]|] eqn:Eb; [|discriminate].
  apply build_steps_length in Eb.
  destruct ok.
  - match type of H with
    | match ArrayDriver.executeSequence ?d ?s with _ => _ end = _ =>
      destruct (ArrayDriver.executeSequence d s) as [[d1 tr1]|] eqn:Ex; [|discriminate]
    end.
    apply executeSequence_kept in Ex. inversion H; subst.
    unfold handled.
    cbn [cmdBuffer cmdBufferIndex cmdComplete sequenceSteps arrayDriver
         with_driver with_sequence] in *.
    do 3 (split; [reflexivity|]). split; assumption.
  - inversion H; subst. unfold handled.
    cbn [cmdBuffer cmdBufferIndex cmdComplete sequenceSteps arrayDriver with_sequence].
    do 3 (split; [reflexivity|]). split; [assumption | apply kept_refl].
Qed.

Lemma parseElectrodeCommand_handled h cmd h' tr :
  parseElectrodeCommand overlapped h cmd = Some (h', tr) -> handled h h'.
Proof.
  unfold parseElectrodeCommand. cbv zeta. intros H.
  assert (Hsame : forall reply, Some (h, reply) = Some (h', tr) -> handled h h').
  { intros reply E. inversion E; subst. apply handled_refl. }
  destruct (negb (starts_with "START|" cmd)); [now apply (Hsame _ H)|].
  destruct ((atoi (drop 6 cmd) <? 1) || (atoi (drop 6 cmd) >? 1000));
    [now apply (Hsame _ H)|].
  destruct (strchr (drop 6 cmd) "|") as [p1|]; [|now apply (Hsame _ H)].
  destruct (atoi (ArrayDriver.tail_string p1) <? 0); [now apply (Hsame _ H)|].
  destruct (strchr (ArrayDriver.tail_string p1) "|") as [p2|]; [|now apply (Hsame _ H)].
  destruct ((atoi (ArrayDriver.tail_string p2) <? 1)
            || (atoi (ArrayDriver.tail_string p2) >? MAX_STEPS));
    [now apply (Hsame _ H)|].
  destruct (strchr (ArrayDriver.tail_string p2) "|") as [p3|]; [|now apply (Hsame _ H)].
  destruct (parse_steps _ _ _ _ _ _ _) as [reply | ids durs |];
    [now apply (Hsame _ H) | | now apply (Hsame _ H)].
  destruct (executeSequence h _ _ _ ids durs) as [[h1 tr1]|] eqn:Ex; [|discriminate].
  inversion H; subst. eapply executeSequence_handled; eauto.
Qed.

Lemma parseSingleElectrodeCommand_handled h cmd :
  handled h (fst (parseSingleElectrodeCommand h cmd)).
Proof.
  unfold parseSingleElectrodeCommand. cbv zeta.
  destruct (_ || _); [apply handled_refl|].
  destruct (strchr _ _) as [pipe|]; [|apply handled_refl].
  destruct (_ && _); [apply handled_refl|].
  match goal with
  | |- context [ArrayDriver.setElectrodeByNumber ?d ?n ?s] =>
    pose proof (setElectrodeByNumber_kept d n s) as Hk;
      destruct (ArrayDriver.setElectrodeByNumber d n s) as [d1 tr1]
  end.
  now apply handled_with_driver.
Qed.

Lemma parseAllElectrodesCommand_handled h cmd :
  handled h (fst (parseAllElectrodesCommand h cmd)).
Proof.
  unfold parseAllElectrodesCommand, ArrayDriver.setAllElectrodesHigh,
    ArrayDriver.setAllElectrodesLow. cbv zeta.
  destruct (_ && _); [apply handled_refl|].
  destruct (_ =? 1); cbn [fst]; apply handled_with_driver, fill_kept.
Qed.

Lemma parseRowCommand_handled h cmd : handled h (fst (parseRowCommand h cmd)).
Proof.
  unfold parseRowCommand. cbv zeta.
  destruct (_ || _); [apply handled_refl|].
  destruct (strchr _ _) as [pipe|]; [|apply handled_refl].
  destruct (_ && _); [apply handled_refl|].
  match goal with
  | |- context [ArrayDriver.setRowElectrodes ?d ?n ?s] =>
    pose proof (setRowElectrodes_kept d n s) as Hk;
      destruct (ArrayDriver.setRowElectrodes d n s) as [d1 tr1]
  end.
  now apply handled_with_driver.
Qed.

Lemma parseColCommand_handled h cmd : handled h (fst (parseColCommand h cmd)).
Proof.
  unfold parseColCommand. cbv zeta.
  destruct (_ || _); [apply handled_refl|].
  destruct (strchr _ _) as [pipe|]; [|apply handled_refl].
  destruct (_ && _); [apply handled_refl|].
  match goal with
  | |- context [ArrayDriver.setColElectrodes ?d ?n ?s] =>
    pose proof (setColElectrodes_kept d n s) as Hk;
      destruct (ArrayDriver.setColElectrodes d n s) as [d1 tr1]
  end.
  now apply handled_with_driver.
Qed.

Lemma parseTestCommand_handled h cmd : handled h (fst (parseTestCommand h cmd)).
Proof.
  unfold parseTestCommand.
  pose proof (runElectrodeTest_kept (arrayDriver h)) as Hk.
  destruct (ArrayDriver.runElectrodeTest (arrayDriver h)) as [d1 tr1].
  now apply handled_with_driver.
Qed.

Lemma parseStopCommand_handled h cmd : handled h (fst (parseStopCommand h cmd)).
Proof.
  unfold parseStopCommand.
  destruct (ArrayDriver.isSequenceRunning _); [|apply handled_refl].
  apply handled_with_driver, stopSequence_kept.
Qed.

Lemma parseGetStateCommand_handled h cmd :
  handled h (fst (parseGetStateCommand h cmd)).
Proof.
  unfold parseGetStateCommand. cbv zeta.
  destruct (_ || _); [apply handled_refl|].
  destruct (ArrayDriver.getRowColFromElectrode _ _ 0 0) as [[[|] r] c];
    apply handled_refl.
Qed.

(** Every line is answered: the dispatcher returns, and with a handler that
    differs from the one it was given only in the state array, in the step
    array and in the sequence. *)
Lemma parseCommand_handled h line :
  List.length (sequenceSteps h) = 256%nat ->
  exists h1 tr, parseCommand overlapped h line = Some (h1, tr) /\ handled h h1.
Proof.
  intros Hlen. unfold parseCommand. cbv zeta.
  assert (Hpair : forall r : t * list event,
            handled h (fst r) -> exists h1 tr, Some r = Some (h1, tr) /\ handled h h1).
  { intros [h1 tr] Hr. exists h1, tr. auto. }
  destruct (skip_blanks line) as [|a cmd];
    [apply (Hpair (h, [])), handled_refl|].
  destruct (starts_with "START|" _).
  { destruct (parseElectrodeCommand_returns overlapped h (String a cmd) Hlen)
      as [h1 [tr E]].
    exists h1, tr. split; [exact E|]. eapply parseElectrodeCommand_handled; eauto. }
  destruct (starts_with "SET|" _); [apply Hpair, parseSingleElectrodeCommand_handled|].
  destruct (starts_with "ALL|" _); [apply Hpair, parseAllElectrodesCommand_handled|].
  destruct (starts_with "ROW|" _); [apply Hpair, parseRowCommand_handled|].
  destruct (starts_with "COL|" _); [apply Hpair, parseColCommand_handled|].
  destruct (starts_with "TEST" _); [apply Hpair, parseTestCommand_handled|].
  destruct (starts_with "STATUS" _); [apply Hpair, handled_refl|].
  destruct (starts_with "STOP" _); [apply Hpair, parseStopCommand_handled|].
  destruct (starts_with "GET|" _); [apply Hpair, parseGetStateCommand_handled|].
  destruct (starts_with "RELOAD" _); [apply Hpair, handled_refl|].
  destruct (starts_with "HELP" _); [apply (Hpair (h, help_text)), handled_refl|].
  apply (Hpair (h, sendError _)), handled_refl.
Qed.

(** A buffer that holds a NUL holds a C string. *)
Lemma cstring_terminated buf : forall k,
  nth_error buf k = Some NUL -> exists l, cstring buf = Some l.
Proof.
  induction buf as [|c buf IH]; intros [|k] H; cbn [nth_error] in H; try discriminate.
  - inversion H; subst. cbn [cstring]. rewrite Ascii.eqb_refl. eauto.
  - cbn [cstring]. destruct (c =? NUL)%char; [eauto|].
    destruct (IH k H) as [l ->]. eauto.
Qed.

(** [processByte] stores a byte below the last cell of the buffer only, so
    the NUL of the last cell stays. *)
Lemma processByte_ready h byte :
  ready h ->
  ready (fst (processByte h byte))
  /\ arrayDriver (fst (processByte h byte)) = arrayDriver h.
Proof.
  intros [Hb [Hn [Hi [Hs Hw]]]]. unfold processByte, UART_CMD_BUFFER_SIZE, ready.
  assert (Hupd : forall x, cmdBufferIndex h < 2047 ->
            nth_error (upd (cmdBuffer h) (Z.to_nat (cmdBufferIndex h)) x) 2047
            = Some NUL).
  { intros x Hlt. rewrite nth_error_upd.
    destruct (Nat.eqb_spec (Z.to_nat (cmdBufferIndex h)) 2047) as [E|_]; [lia|].
    exact Hn. }
  destruct (Z.geb_spec (cmdBufferIndex h) (2048 - 1)).
  { cbn [fst cmdBuffer cmdBufferIndex sequenceSteps arrayDriver with_buffer].
    split; [|reflexivity]. split; [assumption|]. split; [assumption|].
    split; [lia|]. split; assumption. }
  destruct ((byte =? "010")%char || (byte =? "013")%char).
  - destruct (cmdBufferIndex h >? 0);
      cbn [fst cmdBuffer cmdBufferIndex sequenceSteps arrayDriver with_buffer];
      rewrite ?upd_length;
      (split; [|reflexivity]); (split; [assumption|]);
      (split; [first [assumption | apply Hupd; lia]|]); (split; [lia|]);
      split; assumption.
  - cbn [fst cmdBuffer cmdBufferIndex sequenceSteps arrayDriver with_buffer].
    rewrite upd_length. unfold u16. rewrite Z.mod_small by lia.
    split; [|reflexivity]. split; [assumption|]. split; [apply Hupd; lia|].
    split; [lia|]. split; assumption.
Qed.

(** X12. On a handler whose command buffer ends in a NUL, as [init()]
    leaves it: whatever bytes arrive and whenever the main loop polls, the
    handler returns from every call, no array is indexed past its end and
    the buffer is read as a C string that ends inside it.  The command
    buffer keeps its 2048 cells, the last one a NUL, with the write index
    at most 2047; the step array keeps its 256 entries and the state array
    its dimensions; the electrode table is never written; and no sequence is
    ever set running, since the handler calls the blocking [executeSequence]
    only. *)
Theorem run_returns_and_keeps (ins : list input) : forall h : t,
  ready h ->
  exists h' tr,
    run overlapped h ins = Some (h', tr)
    /\ ready h'
    /\ ArrayDriver.electrodeMap (arrayDriver h') = ArrayDriver.electrodeMap (arrayDriver h)
    /\ (ArrayDriver.isSequenceRunning (arrayDriver h) = false ->
        ArrayDriver.isSequenceRunning (arrayDriver h') = false).
Proof.
  induction ins as [|i ins IH]; intros h Hr; cbn [run].
  - exists h, []. split; [reflexivity|]. split; [exact Hr|]. split; [reflexivity | auto].
  - assert (Hstep : exists h1 tr1,
               match i with
               | Rx byte => Some (processByte h byte)
               | Poll => processCommands overlapped h
               end = Some (h1, tr1)
               /\ ready h1
               /\ ArrayDriver.electrodeMap (arrayDriver h1)
                  = ArrayDriver.electrodeMap (arrayDriver h)
               /\ (ArrayDriver.sequenceRunning (arrayDriver h) = false ->
                   ArrayDriver.sequenceRunning (arrayDriver h1) = false)).
    { destruct i as [byte|].
      - destruct (processByte_ready h byte Hr) as [Hr1 Hd].
        destruct (processByte h byte) as [h1 tr1]. cbn [fst] in *.
        exists h1, tr1. rewrite Hd.
        split; [reflexivity|]. split; [exact Hr1|]. split; [reflexivity | auto].
      - unfold processCommands. destruct (cmdComplete h); cbn [negb].
        + destruct Hr as [Hb [Hn [Hi [Hs [Hw1 Hw2]]]]].
          destruct (cstring_terminated _ _ Hn) as [line ->].
          destruct (parseCommand_handled h line Hs)
            as [h1 [tr1 [E [_ [_ [_ [Hs1 [Hk1 [Hk2 Hk3]]]]]]]]].
          rewrite E. do 2 eexists. split; [reflexivity|].
          unfold ready.
          cbn [cmdBuffer cmdBufferIndex sequenceSteps arrayDriver with_buffer].
          split; [|split; auto].
          split; [reflexivity|]. split; [reflexivity|]. split; [lia|].
          split; [congruence|]. split; [auto | congruence].
        + exists h, [].
          split; [reflexivity|]. split; [exact Hr|]. split; [reflexivity | auto]. }
    destruct Hstep as [h1 [tr1 [E1 [Hr1 [Hm1 Hq1]]]]]. rewrite E1.
    destruct (IH h1 Hr1) as [h2 [tr2 [E2 [Hr2 [Hm2 Hq2]]]]]. rewrite E2.
    do 2 eexists. split; [reflexivity|]. split; [exact Hr2|].
    split; [congruence|]. unfold ArrayDriver.isSequenceRunning in *. auto.
Qed.

End Handled.

Section HandledExamples.

Import CStr UartCommandHandler Extra.

Lemma ready_demo_handler : ready Demo.handler.
Proof.
  unfold ready. split; [reflexivity|]. split; [reflexivity|]. split; [cbn; lia|].
  split; [reflexivity|]. apply ArrayDriver_wf.
Qed.

Lemma run_returns_and_keeps_witness :
  exists h' tr,
    run Demo.overlapped Demo.handler (receive ("ROW|3|1" +++ nl +++ "STOP" +++ nl))
    = Some (h', tr)
    /\ ready h'
    /\ ArrayDriver.electrodeMap (arrayDriver h')
       = ArrayDriver.electrodeMap (arrayDriver Demo.handler)
    /\ (ArrayDriver.isSequenceRunning (arrayDriver Demo.handler) = false ->
        ArrayDriver.isSequenceRunning (arrayDriver h') = false).
Proof.
  apply run_returns_and_keeps. exact ready_demo_handler.
Defined.

(** The NUL of the last cell is needed.  On the handler as the constructor
    leaves it, with a buffer that holds none: a line end, then a byte that
    overwrites the NUL the line end wrote, then a poll, and [parseCommand]
    is given an array with no NUL in it. *)
Example unterminated_buffer_is_read_past :
  run Demo.overlapped Demo.constructed [Rx "A"%char; Rx "010"%char; Rx "B"%char; Poll]
  = None.
Proof. vm_compute. reflexivity. Qed.

End HandledExamples.

(** ** A driver of static storage whose files are read *)

Section StaticDriver.

Import ArrayDriver Extra.

(** When both loads succeed and the electrode map stored nothing, the table
    is the one the object had, passed through the chaining loop. *)
Lemma load_mappings_chained fs d json :
  fs ELECTRODE_MAP_PATH = Some json -> has_qq json = false ->
  fst (load_mappings fs d) = true ->
  electrodeMap (snd (load_mappings fs d))
  = fold_left (chain_entry (pcieToRow (snd (load_mappings fs d)))
                           (pcieToCol (snd (load_mappings fs d))))
              electrodes (electrodeMap d).
Proof.
  intros Hfs Hq. unfold load_mappings, loadElectrodeMap, loadPinMap, readFile.
  rewrite Hfs, (parseElectrodeMapJSON_unread d json Hq).
  destruct (fs PIN_MAP_PATH) as [json2|];
    [|cbn [fst]; rewrite andb_false_r; discriminate].
  unfold parsePinMapJSON.
  destruct (CStr.strstr json2 _) as [es|];
    [|cbn [fst]; rewrite andb_false_r; discriminate].
  destruct (CStr.strchr es "{") as [ob|];
    [|cbn [fst]; rewrite andb_false_r; discriminate].
  cbv beta iota zeta. intros _. cbn [snd electrodeMap pcieToRow pcieToCol with_maps].
  reflexivity.
Qed.

Lemma NoDup_electrodes : NoDup electrodes.
Proof.
  unfold electrodes. generalize (seq_NoDup 140 1). generalize (seq 1 140).
  induction 1 as [|a l Hnotin Hnd IH]; cbn [map]; constructor; auto.
  rewrite in_map_iff. intros [b [Hb Hin]]. apply Nat2Z.inj in Hb. now subst.
Qed.

Lemma electrodes_spec e : In e electrodes <-> 1 <= e <= 140.
Proof.
  unfold electrodes. rewrite in_map_iff. split.
  - intros [k [<- Hk]]. apply in_seq in Hk. lia.
  - intros He. exists (Z.to_nat e). split; [lia | apply in_seq; lia].
Qed.

(** The chaining loop on entries that all stand for pin 1: each electrode of
    the list gets the cell of pin 1. *)
Lemma chain_from_zero pr pc : forall l m,
  NoDup l -> (forall e, In e l -> 1 <= e) ->
  (forall e, In e l ->
             nth (Z.to_nat (e - 1)) m {| map_row := 0; map_col := 0 |}
             = {| map_row := 0; map_col := 0 |}) ->
  forall k, (k < List.length m)%nat ->
    In (Z.of_nat k + 1) l
    \/ nth k m {| map_row := 0; map_col := 0 |}
       = {| map_row := nth 0 pr 0; map_col := nth 0 pc 0 |} ->
    nth k (fold_left (chain_entry pr pc) l m) {| map_row := 0; map_col := 0 |}
    = {| map_row := nth 0 pr 0; map_col := nth 0 pc 0 |}.
Proof.
  induction l as [|e l IH]; intros m Hnd Hpos Hzero k Hk Hor; cbn [fold_left].
  - destruct Hor as [[]|H]; exact H.
  - inversion Hnd as [|? ? Hnotin Hnd']; subst.
    assert (He : chain_entry pr pc m e
                 = upd m (Z.to_nat (e - 1))
                       {| map_row := nth 0 pr 0; map_col := nth 0 pc 0 |}).
    { unfold chain_entry. cbv zeta. rewrite (Hzero e) by now left. reflexivity. }
    rewrite He. apply IH; auto.
    + intros e' Hin. apply Hpos. now right.
    + intros e' Hin. rewrite nth_upd_other.
      * apply Hzero. now right.
      * assert (1 <= e) by (apply Hpos; now left).
        assert (1 <= e') by (apply Hpos; now right).
        intros Heq. assert (e = e') by lia. subst. contradiction.
    + now rewrite upd_length.
    + rewrite nth_upd.
      destruct (Nat.eqb_spec (Z.to_nat (e - 1)) k) as [Heq|Hne]; cbn [andb].
      * destruct (Nat.ltb_spec (Z.to_nat (e - 1)) (List.length m)); [now right | lia].
      * destruct Hor as [[Hek|Hin]|Hn]; [|now left | now right].
        exfalso. apply Hne. lia.
Qed.

Lemma fresh_zero mem k :
  (forall i, u8 (raw_map_row mem i) = 0 /\ u8 (raw_map_col mem i) = 0) ->
  nth k (electrodeMap (fresh mem)) {| map_row := 0; map_col := 0 |}
  = {| map_row := 0; map_col := 0 |}.
Proof.
  intros Hz. cbn [fresh electrodeMap].
  generalize (seq 0 140). intros l. revert k.
  induction l as [|i l IH]; intros [|k]; cbn [map nth]; auto.
  destruct (Hz i) as [-> ->]. reflexivity.
Qed.

(** X13. A driver whose table was all zero before the constructor ran (an
    object of static storage), with both files read and an electrode map that
    nowhere holds two double quotes in a row, addresses one single cell: each
    of the 140 electrode numbers resolves to row [pcieToRow[0]] and column
    [pcieToCol[0]], the cell the pin tables built from the pin map hold for
    pin 1.  Nothing of the electrode map was stored, so every entry still
    stands for pin 1 when the pin map is applied. *)
Theorem static_driver_addresses_one_cell (fs : FileSystem) (mem : Storage)
        (json : string) :
  (forall i, u8 (raw_map_row mem i) = 0 /\ u8 (raw_map_col mem i) = 0) ->
  fs ELECTRODE_MAP_PATH = Some json -> has_qq json = false ->
  fst (load_mappings fs (fresh mem)) = true ->
  forall n, 1 <= n <= 140 ->
    getRowColFromElectrode (ArrayDriver fs mem) n 0 0
    = (true, nth 0 (pcieToRow (ArrayDriver fs mem)) 0,
             nth 0 (pcieToCol (ArrayDriver fs mem)) 0).
Proof.
  intros Hz Hfs Hq Hok n Hn.
  pose proof (load_mappings_chained fs (fresh mem) json Hfs Hq Hok) as Hm.
  destruct (ArrayDriver_cases fs mem) as [ok [d [E ->]]].
  rewrite E in Hok, Hm. cbn [fst snd] in Hok, Hm. subst ok.
  unfold getRowColFromElectrode, NUM_ELECTRODES.
  destruct (Z.ltb_spec n 1); [lia|]. destruct (Z.gtb_spec n 140); [lia|].
  cbn [orb]. rewrite Hm.
  rewrite (chain_from_zero (pcieToRow d) (pcieToCol d) electrodes
                           (electrodeMap (fresh mem))).
  - reflexivity.
  - apply NoDup_electrodes.
  - intros e He. apply electrodes_spec in He. lia.
  - intros e _. now apply fresh_zero.
  - destruct (fresh_lengths mem) as [-> _]. lia.
  - left. apply electrodes_spec. lia.
Qed.

Lemma static_driver_addresses_one_cell_witness :
  getRowColFromElectrode (ArrayDriver Demo.pin1_files Demo.zeroed) 15 0 0 = (true, 2, 7)
  /\ getRowColFromElectrode (ArrayDriver Demo.pin1_files Demo.zeroed) 140 0 0
     = (true, 2, 7).
Proof.
  assert (H : forall n, 1 <= n <= 140 ->
            getRowColFromElectrode (ArrayDriver Demo.pin1_files Demo.zeroed) n 0 0
            = (true, 2, 7)).
  { intros n Hn.
    rewrite (static_driver_addresses_one_cell
               Demo.pin1_files Demo.zeroed
               ("{" +++ CStr.dquote +++ "mapping" +++ CStr.dquote +++ ": {"
                    +++ CStr.dquote +++ "1" +++ CStr.dquote +++ ": 3, "
                    +++ CStr.dquote +++ "2" +++ CStr.dquote +++ ": 1}}"));
      [| intros i; split; reflexivity | reflexivity | reflexivity
       | vm_compute; reflexivity | exact Hn].
    vm_compute. reflexivity. }
  split; apply H; lia.
Defined.

End StaticDriver.

(** ** SET, then GET *)

Section SetGet.

Import CStr UartCommandHandler Wire Extra.

Variable overlapped : string -> string.

Lemma setElectrode_read d row col s :
  ArrayDriver.wf d -> 0 <= row < 10 -> 0 <= col < 14 ->
  ArrayDriver.getElectrodeState (fst (ArrayDriver.setElectrode d row col s)) row col = s.
Proof.
  intros [Hst _] Hr Hc. rewrite setElectrode_in by assumption. cbn [fst].
  rewrite getElectrodeState_cell by lia.
  cbn [ArrayDriver.electrodeState ArrayDriver.with_electrodeState].
  rewrite cell_set_cell, (wf_state_row _ (Z.to_nat row) Hst) by lia.
  destruct Hst as [Hlen _]. rewrite Hlen, !Nat.eqb_refl.
  destruct (Nat.ltb_spec (Z.to_nat row) 10), (Nat.ltb_spec (Z.to_nat col) 14);
    cbn [andb]; auto; lia.
Qed.

(** X14. SET|id|level with an electrode number in [1,140] and a level read
    as 0 or 1 always answers "Electrode n set to ..." and OK; the write is
    made only when the table entry of the electrode is a cell of the matrix.
    A GET of the same electrode afterwards reports the level asked for in
    that case, and LOW in the other: the reply to SET does not tell whether
    anything was set. *)
Theorem set_then_get (h : t) (id lvl : string) :
  ArrayDriver.wf (arrayDriver h) -> table_u8 (arrayDriver h) ->
  field id -> 1 <= atoi id <= 140 -> atoi lvl = 0 \/ atoi lvl = 1 ->
  let n := atoi id in
  let e := nth (Z.to_nat (n - 1)) (ArrayDriver.electrodeMap (arrayDriver h))
               {| ArrayDriver.map_row := 0; ArrayDriver.map_col := 0 |} in
  let row := ArrayDriver.map_row e in
  let col := ArrayDriver.map_col e in
  let inside := (row <? 10) && (col <? 14) in
  let high := atoi lvl =? 1 in
  exists d1,
    parseCommand overlapped h ("SET|" +++ id +++ "|" +++ lvl)
    = Some (with_driver h d1,
            (if inside then ArrayDriver.setRowColAtomic row col high else [])
              ++ [Transmit (format ("Electrode " +++ dec n +++ " set to "
                                      +++ level_name high +++ nl));
                  Transmit ("OK" +++ nl)])
    /\ parseCommand overlapped (with_driver h d1) ("GET|" +++ id)
       = Some (with_driver h d1,
               [Transmit (format ("Electrode " +++ dec n
                                    +++ " (Row " +++ dec row
                                    +++ ", Col " +++ dec col +++ "): "
                                    +++ level_name (inside && high) +++ nl));
                Transmit ("OK" +++ nl)]).
Proof.
  intros Hwf Hu Hid Hn Hlvl n e row col inside high.
  assert (Hu8 : u8 n = n) by (unfold u8; apply Z.mod_small; lia).
  pose proof (table_u8_entry (arrayDriver h) n Hu) as He. cbv zeta in He.
  fold e in He. fold row col in He. destruct He as [Hrow Hcol].
  assert (Hlevel : negb (atoi lvl =? 0) = high).
  { unfold high. destruct Hlvl as [-> | ->]; reflexivity. }
  assert (Hvalid : negb (atoi lvl =? 0) && negb (atoi lvl =? 1) = false).
  { destruct Hlvl as [-> | ->]; reflexivity. }
  exists (fst (ArrayDriver.setElectrodeByNumber (arrayDriver h) n high)).
  assert (Hset : ArrayDriver.setElectrodeByNumber (arrayDriver h) n high
                 = ArrayDriver.setElectrode (arrayDriver h) row col high).
  { rewrite setElectrodeByNumber_eq.
    destruct (Z.ltb_spec n 1); [lia|]. destruct (Z.gtb_spec n 140); [lia|].
    reflexivity. }
  split.
  - change (parseCommand overlapped h ("SET|" +++ id +++ "|" +++ lvl))
      with (Some (parseSingleElectrodeCommand h ("SET|" +++ id +++ "|" +++ lvl))).
    unfold parseSingleElectrodeCommand.
    change (drop 4 ("SET|" +++ id +++ "|" +++ lvl)) with (id +++ "|" +++ lvl).
    cbv zeta. rewrite atoi_pipe. fold n.
    destruct (Z.ltb_spec n 1); [lia|]. destruct (Z.gtb_spec n 140); [lia|].
    cbn [orb]. change (id +++ "|" +++ lvl) with (id +++ String "|" lvl).
    rewrite (strchr_skip id "|" lvl Hid).
    cbn [ArrayDriver.tail_string]. rewrite Hvalid, Hlevel, Hu8. fold high.
    rewrite Hset. f_equal.
    unfold inside.
    destruct (Z.ltb_spec row 10); [destruct (Z.ltb_spec col 14)|]; cbn [andb].
    + rewrite setElectrode_in by lia. reflexivity.
    + rewrite setElectrode_out by lia. reflexivity.
    + rewrite setElectrode_out by lia. reflexivity.
  - rewrite Hset.
    change (parseCommand overlapped
              (with_driver h (fst (ArrayDriver.setElectrode (arrayDriver h) row col high)))
              ("GET|" +++ id))
      with (Some (parseGetStateCommand
                    (with_driver h (fst (ArrayDriver.setElectrode (arrayDriver h)
                                                                  row col high)))
                    ("GET|" +++ id))).
    unfold parseGetStateCommand.
    change (drop 4 ("GET|" +++ id)) with id. cbv zeta. fold n.
    destruct (Z.ltb_spec n 1); [lia|]. destruct (Z.gtb_spec n 140); [lia|].
    cbn [orb arrayDriver with_driver].
    assert (Hmap : ArrayDriver.electrodeMap
                     (fst (ArrayDriver.setElectrode (arrayDriver h) row col high))
                   = ArrayDriver.electrodeMap (arrayDriver h)).
    { apply (setElectrode_kept (arrayDriver h) row col high). }
    unfold ArrayDriver.getRowColFromElectrode, ArrayDriver.NUM_ELECTRODES.
    rewrite Hu8, Hmap.
    destruct (Z.ltb_spec n 1); [lia|]. destruct (Z.gtb_spec n 140); [lia|].
    cbn [orb]. fold e. fold row col.
    assert (Hread : ArrayDriver.getElectrodeState
                      (fst (ArrayDriver.setElectrode (arrayDriver h) row col high))
                      row col
                    = inside && high).
    { unfold inside.
      destruct (Z.ltb_spec row 10); [destruct (Z.ltb_spec col 14)|]; cbn [andb].
      - apply setElectrode_read; auto; lia.
      - rewrite setElectrode_out by lia. cbn [fst].
        unfold ArrayDriver.getElectrodeState, ArrayDriver.NUM_ROWS, ArrayDriver.NUM_COLS.
        destruct (Z.geb_spec col 14); [|lia]. now rewrite orb_true_r.
      - rewrite setElectrode_out by lia. cbn [fst].
        unfold ArrayDriver.getElectrodeState, ArrayDriver.NUM_ROWS, ArrayDriver.NUM_COLS.
        destruct (Z.geb_spec row 10); [|lia]. reflexivity. }
    rewrite Hread. reflexivity.
Qed.

End SetGet.

Section SetGetExample.

Import CStr UartCommandHandler Wire Extra.

Lemma set_then_get_witness :
  exists d1,
    parseCommand Demo.overlapped Demo.handler "SET|15|1"
    = Some (with_driver Demo.handler d1,
            ArrayDriver.setRowColAtomic 1 0 true
              ++ [Transmit ("Electrode 15 set to HIGH" +++ nl); Transmit ("OK" +++ nl)])
    /\ parseCommand Demo.overlapped (with_driver Demo.handler d1) "GET|15"
       = Some (with_driver Demo.handler d1,
               [Transmit ("Electrode 15 (Row 1, Col 0): HIGH" +++ nl);
                Transmit ("OK" +++ nl)]).
Proof.
  exact (set_then_get Demo.overlapped Demo.handler "15" "1"
           (ArrayDriver_wf Demo.no_files Demo.zeroed)
           (ArrayDriver_table_u8 Demo.no_files Demo.zeroed)
           eq_refl ltac:(vm_compute; split; discriminate) (or_intror eq_refl)).
Defined.

End SetGetExample.

(** ** The electrode test on the default table *)

Section SelfTest.

Import ArrayDriver Extra.

Lemma default_table fs mem i :
  fst (load_mappings fs (fresh mem)) = false -> (i < 140)%nat ->
  nth i (electrodeMap (ArrayDriver fs mem)) {| map_row := 0; map_col := 0 |}
  = default_entry i.
Proof.
  intros Hok Hi.
  destruct (ArrayDriver_cases fs mem) as [ok [d [E ->]]].
  pose proof (load_mappings_length fs (fresh mem)) as Hl.
  rewrite E in Hok, Hl. cbn [fst snd] in Hok, Hl. subst ok.
  destruct (fresh_lengths mem) as [Hm _].
  cbn [electrodeMap with_maps]. apply default_mapping_nth; [congruence | exact Hi].
Qed.

Lemma default_entry_cell r c :
  (r < 10)%nat -> (c < 14)%nat ->
  default_entry (r * 14 + c)
  = {| map_row := Z.of_nat r; map_col := Z.of_nat c |}.
Proof.
  intros Hr Hc. unfold default_entry, NUM_COLS.
  assert (Hq : Z.of_nat (r * 14 + c) / 14 = Z.of_nat r).
  { symmetry. apply (Z.div_unique _ _ _ (Z.of_nat c)); lia. }
  assert (Hm : Z.of_nat (r * 14 + c) mod 14 = Z.of_nat c).
  { symmetry. apply (Z.mod_unique _ _ (Z.of_nat r)); lia. }
  rewrite Hq, Hm. unfold u8. now rewrite !Z.mod_small by lia.
Qed.

(** On the default table each cell of the matrix is the cell of one of the
    140 electrode numbers. *)
Lemma default_table_covers fs mem d r c :
  fst (load_mappings fs (fresh mem)) = false ->
  electrodeMap d = electrodeMap (ArrayDriver fs mem) ->
  (r < 10)%nat -> (c < 14)%nat ->
  existsb (fun n => addresses d n (Z.of_nat r) (Z.of_nat c)) (map Z.of_nat (seq 1 140))
  = true.
Proof.
  intros Hok Hmap Hr Hc.
  apply existsb_exists. exists (Z.of_nat (r * 14 + c) + 1). split.
  - apply in_map_iff. exists (S (r * 14 + c)). split; [lia|]. apply in_seq. lia.
  - unfold addresses, getRowColFromElectrode, NUM_ELECTRODES.
    destruct (Z.ltb_spec (Z.of_nat (r * 14 + c) + 1) 1); [lia|].
    destruct (Z.gtb_spec (Z.of_nat (r * 14 + c) + 1) 140); [lia|].
    cbn [orb].
    replace (Z.to_nat (Z.of_nat (r * 14 + c) + 1 - 1)) with (r * 14 + c)%nat by lia.
    rewrite Hmap, (default_table fs mem _ Hok) by lia.
    rewrite default_entry_cell by lia. cbn [map_row map_col].
    rewrite !Z.eqb_refl.
    destruct (Z.ltb_spec (Z.of_nat r) 10); [|lia].
    destruct (Z.ltb_spec (Z.of_nat c) 14); [|lia]. reflexivity.
Qed.

Lemma all_low_pattern d :
  (forall r c, (r < 10)%nat -> (c < 14)%nat -> cell (electrodeState d) r c = false) ->
  getPattern d = repeat (repeat false 14) 10.
Proof.
  intros H. unfold getPattern.
  rewrite <- (wf_state_cells (repeat (repeat false 14) 10))
    by (split; [reflexivity | apply Forall_forall; intros x Hx;
                              apply repeat_spec in Hx; now subst]).
  apply map_ext_in; intros r Hr; apply in_seq in Hr.
  apply map_ext_in; intros c Hc; apply in_seq in Hc.
  rewrite H by lia.
  unfold cell. rewrite (nth_repeat_lt (repeat false 14) []) by lia.
  now rewrite nth_repeat.
Qed.

Lemma runElectrodeTest_eq d :
  runElectrodeTest d = each (pulse 100) (map Z.of_nat (seq 1 140)) d.
Proof. unfold runElectrodeTest. reflexivity. Qed.

(** X15. With the default table (a mapping file could not be loaded), the
    electrode test leaves every electrode of the matrix recorded low,
    whatever the state array held before: the 140 pulses, 100 ms each, go
    through every cell.  The table is the one of the constructor; the driver
    is any later state of it. *)
Theorem runElectrodeTest_leaves_all_low (fs : FileSystem) (mem : Storage) (d : t) :
  fst (load_mappings fs (fresh mem)) = false ->
  wf d -> electrodeMap d = electrodeMap (ArrayDriver fs mem) ->
  getPattern (fst (runElectrodeTest d)) = repeat (repeat false 14) 10
  /\ snd (runElectrodeTest d)
     = flat_map (pulse_events d 100) (map Z.of_nat (seq 1 140)).
Proof.
  intros Hok Hwf Hmap. rewrite runElectrodeTest_eq.
  assert (Hu : table_u8 d).
  { apply (table_u8_same_table (ArrayDriver fs mem)); auto using ArrayDriver_table_u8. }
  destruct (pulses_effect 100 (map Z.of_nat (seq 1 140)) d Hwf Hu)
    as [_ [_ [Hev Hc]]].
  split; [|exact Hev].
  apply all_low_pattern. intros r c Hr Hcol.
  specialize (Hc (Z.of_nat r) (Z.of_nat c) ltac:(lia) ltac:(lia)).
  rewrite getElectrodeState_cell, !Nat2Z.id in Hc by lia.
  rewrite (default_table_covers fs mem d r c Hok Hmap) in Hc by lia.
  replace (r <? 10)%nat with true in Hc by (symmetry; apply Nat.ltb_lt; lia).
  replace (c <? 14)%nat with true in Hc by (symmetry; apply Nat.ltb_lt; lia).
  rewrite !andb_true_l in Hc. exact Hc.
Qed.

Lemma runElectrodeTest_leaves_all_low_witness :
  getPattern (fst (runElectrodeTest (fst (setAllElectrodesHigh Demo.driver))))
  = repeat (repeat false 14) 10
  /\ snd (runElectrodeTest (fst (setAllElectrodesHigh Demo.driver)))
     = flat_map (pulse_events (fst (setAllElectrodesHigh Demo.driver)) 100)
                (map Z.of_nat (seq 1 140)).
Proof.
  apply (runElectrodeTest_leaves_all_low Demo.no_files Demo.zeroed).
  - reflexivity.
  - split; [|apply electrodeMap_length].
    apply fill_state_cell. apply (ArrayDriver_wf Demo.no_files Demo.zeroed).
  - reflexivity.
Defined.

End SelfTest.
